(** * Silvair UART modem: wire framing and message codec

    A shallow embedding of [silvair_uart_common_libs]:
    - [uart_common_classes.py]: the CRC, the send path and the frame
      reassembler of [UartAdapter];
    - [message_types.py]: the enumerations and [ModelDesc];
    - [messages.py]: the message classes, their [serialize] and [deserialize];
    - [message_factory.py]: the registry [UART_CLASSES], [serialize_message]
      and [deserialize_message].

    Python [bytes] and [bytearray] are lists of bytes, Python integers are
    [Z], exceptions are values of [exn] carried by [res]. *)

From Stdlib Require Import ZArith List Bool Lia.
From Stdlib.Strings Require Import Byte.
Import ListNotations.
Local Open Scope Z_scope.

(* ================================================================== *)
(** ** Bytes and integers *)

Definition bytes := list byte.

Definition byte_to_Z (b : byte) : Z := Z.of_N (Byte.to_N b).

Definition byte_of_Z (z : Z) : byte :=
  match Byte.of_N (Z.to_N (z mod 256)) with
  | Some b => b
  | None => x00
  end.

(** [len(b)] *)
Definition len {A : Type} (b : list A) : Z := Z.of_nat (length b).

(** [b[i:j]], [b[i:]] and [b[:j]] for indices that are not negative. *)
Definition slice (i j : Z) (b : bytes) : bytes :=
  firstn (Z.to_nat (j - i)) (skipn (Z.to_nat i) b).
Definition slice_from (i : Z) (b : bytes) : bytes := skipn (Z.to_nat i) b.
Definition slice_to (j : Z) (b : bytes) : bytes := firstn (Z.to_nat j) b.

(** [int.from_bytes(b, byteorder='little', signed=False)] *)
Fixpoint int_from_bytes (b : bytes) : Z :=
  match b with
  | [] => 0
  | x :: tl => byte_to_Z x + 256 * int_from_bytes tl
  end.

(** The [n] low bytes of [v], least significant first. *)
Fixpoint le_bytes (n : nat) (v : Z) : bytes :=
  match n with
  | O => []
  | S k => byte_of_Z v :: le_bytes k (v / 256)
  end.

Inductive exn : Set :=
| InvalidOpcode
| InvalidLen
| ValueError
| OverflowError
| AttributeError
| AssertionError
| RecursionError.

Inductive res (A : Type) : Type :=
| Ok (a : A)
| Err (e : exn).
Arguments Ok {A} a.
Arguments Err {A} e.

(** [v.to_bytes(n, byteorder='little', signed=False)]: raises
    [OverflowError] when [v] is negative or does not fit in [n] bytes. *)
Definition int_to_bytes (v : Z) (n : nat) : res bytes :=
  if (0 <=? v) && (v <? 256 ^ Z.of_nat n)
  then Ok (le_bytes n v)
  else Err OverflowError.

Definition bytes_eqb (a b : bytes) : bool :=
  if list_eq_dec Byte.byte_eq_dec a b then true else false.

(* ================================================================== *)
(** ** uart_common_classes.py: [UartAdapter] *)

Module UartAdapter.

Definition UART_PREAMBLE : bytes := [xaa; x55].

(** Modelled from the spec: [crcmod.mkCrcFun(0x18005, rev=False,
    initCrc=0xFFFF, xorOut=0x0000)] is the third-party [crcmod] package, not
    part of the sources.  Section 4.1 of the specification and the call's
    parameters fix the algorithm: CRC-16, polynomial 0x8005, initial register
    0xFFFF, bits taken most significant first, no final exclusive or. *)
Definition crc16_shift (crc : Z) : Z :=
  if Z.testbit crc 15
  then Z.land (Z.lxor (Z.shiftl crc 1) 0x8005) 0xFFFF
  else Z.land (Z.shiftl crc 1) 0xFFFF.

Definition crc16_update (crc : Z) (b : byte) : Z :=
  Nat.iter 8 crc16_shift (Z.lxor crc (Z.shiftl (byte_to_Z b) 8)).

Definition mkCrcFun_18005_FFFF (data : bytes) : Z :=
  fold_left crc16_update data 0xFFFF.

(** [calculate_crc(bytes_data)] *)
Definition calculate_crc (bytes_data : bytes) : Z :=
  let _checksum_function := mkCrcFun_18005_FFFF in
  let checksum := _checksum_function bytes_data in
  checksum.

(** [calculate_crc_bytes(bytes_data)] *)
Definition calculate_crc_bytes (bytes_data : bytes) : res bytes :=
  int_to_bytes (calculate_crc bytes_data) 2.

(** The outbound queue holds the chunks handed to the transport pump. *)
Definition out_queue := list bytes.

(** [write_uart_frame(uart_frame, send_raw)]: the chunk that is put on the
    outbound queue. *)
Definition frame_to_send (uart_frame : bytes) (send_raw : bool) : res bytes :=
  if send_raw then Ok uart_frame
  else
    match calculate_crc_bytes uart_frame with
    | Ok crc => Ok (UART_PREAMBLE ++ uart_frame ++ crc)
    | Err e => Err e
    end.

Definition write_uart_frame (uart_frame : bytes) (send_raw : bool)
    (q : out_queue) : res out_queue :=
  match frame_to_send uart_frame send_raw with
  | Ok f => Ok (q ++ [f])
  | Err e => Err e
  end.

(** The [while] loop of [eat_bytes_until_preamble]: bytes are popped from the
    front of [buffer_data] and appended to [orphaned_bytes] until the buffer
    is empty or starts with the preamble. *)
Fixpoint eat_loop (buffer_data orphaned_bytes : bytes) : bytes * bytes :=
  match buffer_data with
  | [] => (buffer_data, orphaned_bytes)
  | b :: tl =>
      if negb (bytes_eqb (slice_to 2 buffer_data) UART_PREAMBLE)
      then eat_loop tl (orphaned_bytes ++ [b])
      else (buffer_data, orphaned_bytes)
  end.

(** [eat_bytes_until_preamble(buffer_data)].  The buffer is a [bytearray],
    as [run] passes it ([pop] does not exist on [bytes]); the [print] of the
    removed bytes is not modelled.  [Interp.eat_bytes_until_preamble] below
    has both types of buffer. *)
Definition eat_bytes_until_preamble (buffer_data : bytes) : bytes :=
  let '(buffer_data, orphaned_bytes) := eat_loop buffer_data [] in
  if 0 <? len orphaned_bytes then
    if len buffer_data =? 0 then orphaned_bytes else buffer_data
  else buffer_data.

(** [extract_frames(raw_uart_data)].  The recursive call is on
    [remaining_data], which is at least six bytes shorter than the buffer;
    [fuel] bounds the depth of the recursion and [extract_frames] starts it
    with the length of the buffer, which is never exhausted
    (see [extract_frames_rec_fuel]).  This is the function on a [bytearray]
    as long as the interpreter's recursion limit is not reached;
    [Interp.extract_frames] below has the limit and the type of the buffer,
    and returns nothing but what this one returns
    (see [Interp_extract_frames_sound]). *)
Fixpoint extract_frames_rec (fuel : nat) (raw_uart_data : bytes)
    : list bytes * bytes :=
  let uart_frames : list bytes := [] in
  let raw_uart_data := eat_bytes_until_preamble raw_uart_data in
  if len raw_uart_data <? 6 then (uart_frames, raw_uart_data)
  else
    let data_len := int_from_bytes (slice 2 3 raw_uart_data) in
    if len raw_uart_data <? 6 + data_len then (uart_frames, raw_uart_data)
    else
      let uart_frame := slice_to (4 + data_len + 2) raw_uart_data in
      let remaining_data := slice_from (6 + data_len) raw_uart_data in
      let expected_crc := calculate_crc (slice 2 (4 + data_len) uart_frame) in
      let actual_crc :=
        int_from_bytes (slice_from (len uart_frame - 2) uart_frame) in
      let uart_frame_no_preamble_and_crc :=
        slice 2 (len uart_frame - 2) uart_frame in
      if expected_crc =? actual_crc then
        let uart_frames := uart_frames ++ [uart_frame_no_preamble_and_crc] in
        if 0 <? len remaining_data then
          match fuel with
          | O => (uart_frames, remaining_data)
          | S fuel' =>
              let '(another_frames, remaining_data) :=
                extract_frames_rec fuel' remaining_data in
              (uart_frames ++ another_frames, remaining_data)
          end
        else (uart_frames, remaining_data)
      else (uart_frames, remaining_data).

Definition extract_frames (raw_uart_data : bytes) : list bytes * bytes :=
  extract_frames_rec (length raw_uart_data) raw_uart_data.

End UartAdapter.

(* ================================================================== *)
(** ** Streams

    An [io.BytesIO] that is read is the list of its bytes after the current
    position; one that is written from empty is the list of the bytes written
    so far.  A computation on a stream either raises or returns a value and
    the new stream. *)

Definition M (A : Type) : Type := bytes -> res (A * bytes).

Definition ret {A : Type} (a : A) : M A := fun s => Ok (a, s).

Definition raise {A : Type} (e : exn) : M A := fun _ => Err e.

Definition bind {A B : Type} (m : M A) (f : A -> M B) : M B :=
  fun s =>
    match m s with
    | Ok (a, s') => f a s'
    | Err e => Err e
    end.

Definition lift {A : Type} (r : res A) : M A :=
  fun s =>
    match r with
    | Ok a => Ok (a, s)
    | Err e => Err e
    end.

Notation "x <- m ;; k" := (bind m (fun x => k))
  (at level 61, m at next level, right associativity).
Notation "m ;;; k" := (bind m (fun _ => k))
  (at level 61, right associativity).

(** [stream.read(n)]: up to [n] bytes, all the remaining ones when [n] is
    negative. *)
Definition read (n : Z) : M bytes :=
  fun s =>
    if n <? 0 then Ok (s, [])
    else Ok (firstn (Z.to_nat n) s, skipn (Z.to_nat n) s).

(** [stream.write(b)] *)
Definition write (b : bytes) : M unit := fun s => Ok (tt, s ++ b).

(** [int.from_bytes(stream.read(n), byteorder='little')] *)
Definition read_int (n : Z) : M Z :=
  b <- read n ;; ret (int_from_bytes b).

(** [stream.write(v.to_bytes(n, byteorder='little', signed=False))] *)
Definition write_int (v : Z) (n : nat) : M unit :=
  b <- lift (int_to_bytes v n) ;; write b.

(** [for x in l: body(x)] *)
Fixpoint for_each {A : Type} (l : list A) (body : A -> M unit) : M unit :=
  match l with
  | [] => ret tt
  | x :: tl => body x ;;; for_each tl body
  end.

(* ================================================================== *)
(** ** message_types.py *)

Definition UART_MODEL_ID_LEN : Z := 2.
Definition UART_SENSOR_SETUP_SERVER_CONFIG_LEN : Z := 10.

(** [E(v)] for an [IntEnum] [E]: the member of value [v], [ValueError] when
    there is none. *)
Definition enum_of_value {A : Type} (value : A -> Z) (members : list A)
    (v : Z) : res A :=
  match find (fun m => value m =? v) members with
  | Some m => Ok m
  | None => Err ValueError
  end.

Module ModelID.
Inductive t : Set :=
| GenOnOffClientID | GenLevelClientID | GenPowerOnOffClientID
| LightLightnessClientID | LightLCClientID | SensorServerID
| SensorSetupServerID | LightLightnessServerID | LightLCServerID
| SensorClientID | HealthServerID | HealthClientID.

Definition value (m : t) : Z :=
  match m with
  | GenOnOffClientID => 0x1001
  | GenLevelClientID => 0x1003
  | GenPowerOnOffClientID => 0x1008
  | LightLightnessClientID => 0x1302
  | LightLCClientID => 0x1311
  | SensorServerID => 0x1100
  | SensorSetupServerID => 0x1101
  | LightLightnessServerID => 0x1300
  | LightLCServerID => 0x130F
  | SensorClientID => 0x1102
  | HealthServerID => 0x0002
  | HealthClientID => 0x0003
  end.

Definition members : list t :=
  [GenOnOffClientID; GenLevelClientID; GenPowerOnOffClientID;
   LightLightnessClientID; LightLCClientID; SensorServerID;
   SensorSetupServerID; LightLightnessServerID; LightLCServerID;
   SensorClientID; HealthServerID; HealthClientID].

Definition of_value : Z -> res t := enum_of_value value members.

(** [ModelID.from_bytes(b, byteorder='little')] *)
Definition from_bytes (b : bytes) : res t := of_value (int_from_bytes b).

Definition eqb (a b : t) : bool := value a =? value b.
End ModelID.

Module ModemState.
Inductive t : Set := InitDevice | Device | InitNode | Node | Unknown.

Definition value (m : t) : Z :=
  match m with
  | InitDevice => 0x00
  | Device => 0x01
  | InitNode => 0x02
  | Node => 0x03
  | Unknown => 0xFF
  end.

Definition members : list t := [InitDevice; Device; InitNode; Node; Unknown].
Definition of_value : Z -> res t := enum_of_value value members.
Definition from_bytes (b : bytes) : res t := of_value (int_from_bytes b).
End ModemState.

Module Error.
Inductive t : Set :=
| InvalidCRC | InvalidCMD | InvalidLen | InvalidState | InvalidParam
| Timeout | NoLicenseForModelRegistration | NoResourcesForModelRegistration
| MeshMessageRequestProcessError.

Definition value (m : t) : Z :=
  match m with
  | InvalidCRC => 0x00
  | InvalidCMD => 0x01
  | InvalidLen => 0x02
  | InvalidState => 0x03
  | InvalidParam => 0x04
  | Timeout => 0x05
  | NoLicenseForModelRegistration => 0x06
  | NoResourcesForModelRegistration => 0x07
  | MeshMessageRequestProcessError => 0x08
  end.

Definition members : list t :=
  [InvalidCRC; InvalidCMD; InvalidLen; InvalidState; InvalidParam; Timeout;
   NoLicenseForModelRegistration; NoResourcesForModelRegistration;
   MeshMessageRequestProcessError].
Definition of_value : Z -> res t := enum_of_value value members.
Definition from_bytes (b : bytes) : res t := of_value (int_from_bytes b).
End Error.

Module DFUStatus.
Inductive t : Set :=
| DFU_INVALID_CODE | DFU_SUCCESS | DFU_OPCODE_NOT_SUPPORTED
| DFU_INVALID_PARAMETER | DFU_INSUFFICIENT_RESOURCES | DFU_INVALID_OBJECT
| DFU_UNSUPPORTED_TYPE | DFU_OPERATION_NOT_PERMITTED | DFU_OPERATION_FAILED
| DFU_FIRMWARE_SUCCESSFULLY_UPDATED.

Definition value (m : t) : Z :=
  match m with
  | DFU_INVALID_CODE => 0x00
  | DFU_SUCCESS => 0x01
  | DFU_OPCODE_NOT_SUPPORTED => 0x02
  | DFU_INVALID_PARAMETER => 0x03
  | DFU_INSUFFICIENT_RESOURCES => 0x04
  | DFU_INVALID_OBJECT => 0x05
  | DFU_UNSUPPORTED_TYPE => 0x07
  | DFU_OPERATION_NOT_PERMITTED => 0x08
  | DFU_OPERATION_FAILED => 0x0A
  | DFU_FIRMWARE_SUCCESSFULLY_UPDATED => 0xFF
  end.

Definition members : list t :=
  [DFU_INVALID_CODE; DFU_SUCCESS; DFU_OPCODE_NOT_SUPPORTED;
   DFU_INVALID_PARAMETER; DFU_INSUFFICIENT_RESOURCES; DFU_INVALID_OBJECT;
   DFU_UNSUPPORTED_TYPE; DFU_OPERATION_NOT_PERMITTED; DFU_OPERATION_FAILED;
   DFU_FIRMWARE_SUCCESSFULLY_UPDATED].
Definition of_value : Z -> res t := enum_of_value value members.
Definition from_bytes (b : bytes) : res t := of_value (int_from_bytes b).
End DFUStatus.

Module AttentionEvent.
Inductive t : Set := Off | On.
Definition value (m : t) : Z := match m with Off => 0x00 | On => 0x01 end.
Definition members : list t := [Off; On].
Definition of_value : Z -> res t := enum_of_value value members.
Definition from_bytes (b : bytes) : res t := of_value (int_from_bytes b).
End AttentionEvent.

Module DfuStatus.
Inductive t : Set := InProgress | NotInProgress.
Definition value (m : t) : Z :=
  match m with InProgress => 0x01 | NotInProgress => 0x00 end.
Definition members : list t := [InProgress; NotInProgress].
Definition of_value : Z -> res t := enum_of_value value members.
Definition from_bytes (b : bytes) : res t := of_value (int_from_bytes b).
End DfuStatus.

(** [ModelDesc]: [model_id] is [None] until it is set or decoded. *)
Module ModelDesc.
Record t : Set := mk { model_id : option ModelID.t; config : bytes }.

(** [ModelDesc(model_id)] *)
Definition new (model_id : option ModelID.t) : t :=
  {| model_id := model_id; config := [] |}.

Definition get_length (self : t) : Z :=
  UART_MODEL_ID_LEN + len (config self).

(** [self.model_id.to_bytes] on [None] raises [AttributeError]. *)
Definition serialize (self : t) : M unit :=
  match model_id self with
  | None => raise AttributeError
  | Some id =>
      write_int (ModelID.value id) (Z.to_nat UART_MODEL_ID_LEN) ;;;
      if ModelID.eqb id ModelID.SensorSetupServerID
      then write (config self)
      else ret tt
  end.

Definition deserialize (self : t) : M t :=
  b <- read UART_MODEL_ID_LEN ;;
  id <- lift (ModelID.from_bytes b) ;;
  let self := {| model_id := Some id; config := config self |} in
  if ModelID.eqb id ModelID.SensorSetupServerID
  then
    c <- read UART_SENSOR_SETUP_SERVER_CONFIG_LEN ;;
    ret {| model_id := model_id self; config := c |}
  else ret self.
End ModelDesc.

(* ================================================================== *)
(** ** messages.py *)

Definition UART_CMD_LEN : Z := 1.
Definition UART_LENGTH_LEN : Z := 1.
Definition UART_INSTANCE_INDEX_LEN : Z := 1.
Definition UART_SUB_INDEX_LEN : Z := 1.
Definition UART_MESH_OPCODE_LEN : Z := 2.
Definition UART_MODEM_STATE_LEN : Z := 1.
Definition UART_ERROR_ID_LEN : Z := 1.
Definition UART_PROPERTY_ID_LEN : Z := 2.
Definition UART_ATTENTION_EVENT_LEN : Z := 1.
Definition UART_UUID_LEN : Z := 16.
Definition UART_DFU_FIRMWARE_SIZE_LEN : Z := 4.
Definition UART_DFU_FIRMWARE_CRC_LEN : Z := 4.
Definition UART_DFU_APP_DATA_LENGTH_LEN : Z := 1.
Definition UART_DFU_STATUS_LEN : Z := 1.
Definition UART_DFU_SUPPORTED_PAGE_SIZE_LEN : Z := 4.
Definition UART_DFU_FIRMWARE_OFFSET_LEN : Z := 4.
Definition UART_REQUESTED_PAGE_SIZE_LEN : Z := 4.
Definition UART_DFU_DATA_LENGTH_LEN : Z := 1.
Definition UART_DFU_FIRMWARE_SHA256_LEN : Z := 32.
Definition UART_DFU_PRE_VALIDATION_STATUS_LEN : Z := 1.
Definition UART_COMPANY_ID_LEN : Z := 2.
Definition UART_TEST_ID_LEN : Z := 1.

Module UartCommand.
Inductive t : Set :=
| PingRequest | PongResponse | InitDeviceEvent | CreateInstancesRequest
| CreateInstancesResponse | InitNodeEvent | MeshMessageRequest | OpcodeError
| StartNodeRequest | StartNodeResponse | FactoryResetRequest
| FactoryResetResponse | FactoryResetEvent | MeshMessageResponse
| CurrentStateRequest | CurrentStateResponse | Error | FirmwareVersionRequest
| FirmwareVersionResponse | SensorUpdateRequest | AttentionEvent
| SoftResetRequest | SoftResetResponse | SensorUpdateResponse
| DeviceUUIDRequest | DeviceUUIDResponse | StartTestRequest
| StartTestResponse | DfuInitRequest | DfuInitResponse | DfuStatusRequest
| DfuStatusResponse | DfuPageCreateRequest | DfuPageCreateResponse
| DfuWriteDataEvent | DfuPageStoreRequest | DfuPageStoreResponse
| DfuStateRequest | DfuStateResponse | DfuCancelRequest | DfuCancelResponse
| Generic.

Definition value (c : t) : Z :=
  match c with
  | PingRequest => 0x01
  | PongResponse => 0x02
  | InitDeviceEvent => 0x03
  | CreateInstancesRequest => 0x04
  | CreateInstancesResponse => 0x05
  | InitNodeEvent => 0x06
  | MeshMessageRequest => 0x07
  | OpcodeError => 0x08
  | StartNodeRequest => 0x09
  | StartNodeResponse => 0x0B
  | FactoryResetRequest => 0x0C
  | FactoryResetResponse => 0x0D
  | FactoryResetEvent => 0x0E
  | MeshMessageResponse => 0x0F
  | CurrentStateRequest => 0x10
  | CurrentStateResponse => 0x11
  | Error => 0x12
  | FirmwareVersionRequest => 0x13
  | FirmwareVersionResponse => 0x14
  | SensorUpdateRequest => 0x15
  | AttentionEvent => 0x16
  | SoftResetRequest => 0x17
  | SoftResetResponse => 0x18
  | SensorUpdateResponse => 0x19
  | DeviceUUIDRequest => 0x1A
  | DeviceUUIDResponse => 0x1B
  | StartTestRequest => 0x20
  | StartTestResponse => 0x21
  | DfuInitRequest => 0x80
  | DfuInitResponse => 0x81
  | DfuStatusRequest => 0x82
  | DfuStatusResponse => 0x83
  | DfuPageCreateRequest => 0x84
  | DfuPageCreateResponse => 0x85
  | DfuWriteDataEvent => 0x86
  | DfuPageStoreRequest => 0x87
  | DfuPageStoreResponse => 0x88
  | DfuStateRequest => 0x89
  | DfuStateResponse => 0x8A
  | DfuCancelRequest => 0x8B
  | DfuCancelResponse => 0x8C
  | Generic => 0xFF
  end.
End UartCommand.

(** The message classes.  A value is an instance: the constructor is the
    class, its arguments are the instance's fields ([self.type] is fixed by
    the class, see [msg_type]). *)
Inductive Message : Set :=
| GenericMessage
| PingRequestMessage (data : bytes)
| PongResponseMessage (data : bytes)
| InitDeviceEventMessage (model_ids : list ModelID.t)
| CreateInstancesRequestMessage (model_descs : list ModelDesc.t)
| CreateInstancesResponseMessage (model_ids : list ModelID.t)
| InitNodeEventMessage (model_ids : list ModelID.t)
| MeshMessageRequestMessage (instance_index sub_index mesh_opcode : Z)
    (mesh_command : bytes)
| StartNodeRequestMessage
| StartNodeResponseMessage
| FactoryResetRequestMessage
| FactoryResetResponseMessage
| FactoryResetEventMessage
| MeshMessageResponseMessage (instance_index sub_index : Z)
| CurrentStateRequestMessage
| CurrentStateResponseMessage (state : ModemState.t)
| ErrorMessage (error : Error.t)
| FirmwareVersionRequestMessage
| FirmwareVersionResponseMessage (firmware_version : bytes)
| SensorUpdateRequestMessage (instance_index property_id : Z) (data : bytes)
| AttentionEventMessage (attention : AttentionEvent.t)
| SoftResetRequestMessage
| SoftResetResponseMessage
| SensorUpdateResponseMessage
| DeviceUUIDRequestMessage
| DeviceUUIDResponseMessage (uuid : bytes)
| DfuInitRequestMessage (firmware_size : Z) (firmware_sha256 : bytes)
    (app_data_length : Z) (app_data : bytes)
| DfuInitResponseMessage (status : DFUStatus.t)
| DfuStatusRequestMessage
| DfuStatusResponseMessage (status : DFUStatus.t)
    (supported_page_size firmware_offset firmware_crc : Z)
| DfuPageCreateRequestMessage (requested_page_size : Z)
| DfuPageCreateResponseMessage (status : DFUStatus.t)
| DfuWriteDataEventMessage (data_len : Z) (data : bytes)
| DfuPageStoreRequestMessage
| DfuPageStoreResponseMessage (status : DFUStatus.t)
| DfuStateRequestMessage
| DfuStateResponseMessage (status : DfuStatus.t)
| DfuCancelRequestMessage
| DfuCancelResponseMessage
| StartTestRequest (company_id test_id instance_index : Z)
| StartTestResponse.

(** [self.type], set by each class's [__init__]. *)
Definition msg_type (self : Message) : UartCommand.t :=
  match self with
  | GenericMessage => UartCommand.Generic
  | PingRequestMessage _ => UartCommand.PingRequest
  | PongResponseMessage _ => UartCommand.PongResponse
  | InitDeviceEventMessage _ => UartCommand.InitDeviceEvent
  | CreateInstancesRequestMessage _ => UartCommand.CreateInstancesRequest
  | CreateInstancesResponseMessage _ => UartCommand.CreateInstancesResponse
  | InitNodeEventMessage _ => UartCommand.InitNodeEvent
  | MeshMessageRequestMessage _ _ _ _ => UartCommand.MeshMessageRequest
  | StartNodeRequestMessage => UartCommand.StartNodeRequest
  | StartNodeResponseMessage => UartCommand.StartNodeResponse
  | FactoryResetRequestMessage => UartCommand.FactoryResetRequest
  | FactoryResetResponseMessage => UartCommand.FactoryResetResponse
  | FactoryResetEventMessage => UartCommand.FactoryResetEvent
  | MeshMessageResponseMessage _ _ => UartCommand.MeshMessageResponse
  | CurrentStateRequestMessage => UartCommand.CurrentStateRequest
  | CurrentStateResponseMessage _ => UartCommand.CurrentStateResponse
  | ErrorMessage _ => UartCommand.Error
  | FirmwareVersionRequestMessage => UartCommand.FirmwareVersionRequest
  | FirmwareVersionResponseMessage _ => UartCommand.FirmwareVersionResponse
  | SensorUpdateRequestMessage _ _ _ => UartCommand.SensorUpdateRequest
  | AttentionEventMessage _ => UartCommand.AttentionEvent
  | SoftResetRequestMessage => UartCommand.SoftResetRequest
  | SoftResetResponseMessage => UartCommand.SoftResetResponse
  | SensorUpdateResponseMessage => UartCommand.SensorUpdateResponse
  | DeviceUUIDRequestMessage => UartCommand.DeviceUUIDRequest
  | DeviceUUIDResponseMessage _ => UartCommand.DeviceUUIDResponse
  | DfuInitRequestMessage _ _ _ _ => UartCommand.DfuInitRequest
  | DfuInitResponseMessage _ => UartCommand.DfuInitResponse
  | DfuStatusRequestMessage => UartCommand.DfuStatusRequest
  | DfuStatusResponseMessage _ _ _ _ => UartCommand.DfuStatusResponse
  | DfuPageCreateRequestMessage _ => UartCommand.DfuPageCreateRequest
  | DfuPageCreateResponseMessage _ => UartCommand.DfuPageCreateResponse
  | DfuWriteDataEventMessage _ _ => UartCommand.DfuWriteDataEvent
  | DfuPageStoreRequestMessage => UartCommand.DfuPageStoreRequest
  | DfuPageStoreResponseMessage _ => UartCommand.DfuPageStoreResponse
  | DfuStateRequestMessage => UartCommand.DfuStateRequest
  | DfuStateResponseMessage _ => UartCommand.DfuStateResponse
  | DfuCancelRequestMessage => UartCommand.DfuCancelRequest
  | DfuCancelResponseMessage => UartCommand.DfuCancelResponse
  | StartTestRequest _ _ _ => UartCommand.StartTestRequest
  | StartTestResponse => UartCommand.StartTestResponse
  end.

(** [get_length()]; classes that do not override it inherit
    [GenericMessage.get_length], which returns 0. *)
Definition get_length (self : Message) : Z :=
  match self with
  | PingRequestMessage data => len data
  | PongResponseMessage data => len data
  | InitDeviceEventMessage model_ids => UART_MODEL_ID_LEN * len model_ids
  | CreateInstancesRequestMessage model_descs =>
      fold_left (fun length model_desc =>
                   length + ModelDesc.get_length model_desc) model_descs 0
  | CreateInstancesResponseMessage model_ids =>
      UART_MODEL_ID_LEN * len model_ids
  | InitNodeEventMessage model_ids => UART_MODEL_ID_LEN * len model_ids
  | MeshMessageRequestMessage _ _ _ mesh_command =>
      UART_INSTANCE_INDEX_LEN + UART_SUB_INDEX_LEN + UART_MESH_OPCODE_LEN
      + len mesh_command
  | MeshMessageResponseMessage _ _ =>
      UART_INSTANCE_INDEX_LEN + UART_SUB_INDEX_LEN
  | CurrentStateResponseMessage _ => UART_MODEM_STATE_LEN
  | ErrorMessage _ => UART_ERROR_ID_LEN
  | FirmwareVersionResponseMessage firmware_version => len firmware_version
  | SensorUpdateRequestMessage _ _ data =>
      UART_INSTANCE_INDEX_LEN + UART_PROPERTY_ID_LEN + len data
  | AttentionEventMessage _ => UART_ATTENTION_EVENT_LEN
  | DeviceUUIDResponseMessage _ => UART_UUID_LEN
  | DfuInitRequestMessage _ _ _ app_data =>
      UART_DFU_FIRMWARE_SIZE_LEN + UART_DFU_FIRMWARE_SHA256_LEN
      + UART_DFU_APP_DATA_LENGTH_LEN + len app_data
  | DfuInitResponseMessage _ => UART_DFU_STATUS_LEN
  | DfuStatusResponseMessage _ _ _ _ =>
      UART_DFU_STATUS_LEN + UART_DFU_SUPPORTED_PAGE_SIZE_LEN
      + UART_DFU_FIRMWARE_OFFSET_LEN + UART_DFU_FIRMWARE_CRC_LEN
  | DfuPageCreateRequestMessage _ => UART_REQUESTED_PAGE_SIZE_LEN
  | DfuPageCreateResponseMessage _ => UART_DFU_STATUS_LEN
  | DfuWriteDataEventMessage _ data => UART_DFU_DATA_LENGTH_LEN + len data
  | DfuPageStoreResponseMessage _ => UART_DFU_STATUS_LEN
  | DfuStateResponseMessage _ => UART_DFU_PRE_VALIDATION_STATUS_LEN
  | StartTestRequest _ _ _ =>
      UART_COMPANY_ID_LEN + UART_TEST_ID_LEN + UART_INSTANCE_INDEX_LEN
  | _ => 0
  end.

(** [serialize_common_part(stream)] *)
Definition serialize_common_part (self : Message) : M unit :=
  let length := get_length self in
  write_int length (Z.to_nat UART_LENGTH_LEN) ;;;
  write_int (UartCommand.value (msg_type self)) (Z.to_nat UART_CMD_LEN).

Definition write_model_id (model_id : ModelID.t) : M unit :=
  write_int (ModelID.value model_id) (Z.to_nat UART_MODEL_ID_LEN).

(** [serialize(stream)] of each class; [GenericMessage.serialize] is the
    base-class stub [assert False]. *)
Definition serialize (self : Message) : M unit :=
  match self with
  | GenericMessage => raise AssertionError
  | PingRequestMessage data
  | PongResponseMessage data =>
      serialize_common_part self ;;; write data
  | InitDeviceEventMessage model_ids
  | CreateInstancesResponseMessage model_ids
  | InitNodeEventMessage model_ids =>
      serialize_common_part self ;;; for_each model_ids write_model_id
  | CreateInstancesRequestMessage model_descs =>
      serialize_common_part self ;;; for_each model_descs ModelDesc.serialize
  | MeshMessageRequestMessage instance_index sub_index mesh_opcode
      mesh_command =>
      serialize_common_part self ;;;
      write_int instance_index (Z.to_nat UART_INSTANCE_INDEX_LEN) ;;;
      write_int sub_index (Z.to_nat UART_SUB_INDEX_LEN) ;;;
      write_int mesh_opcode (Z.to_nat UART_MESH_OPCODE_LEN) ;;;
      write mesh_command
  | MeshMessageResponseMessage instance_index sub_index =>
      serialize_common_part self ;;;
      write_int instance_index (Z.to_nat UART_INSTANCE_INDEX_LEN) ;;;
      write_int sub_index (Z.to_nat UART_SUB_INDEX_LEN)
  | CurrentStateResponseMessage state =>
      serialize_common_part self ;;;
      write_int (ModemState.value state) (Z.to_nat UART_MODEM_STATE_LEN)
  | ErrorMessage error =>
      serialize_common_part self ;;;
      write_int (Error.value error) (Z.to_nat UART_ERROR_ID_LEN)
  | FirmwareVersionResponseMessage firmware_version =>
      serialize_common_part self ;;; write firmware_version
  | SensorUpdateRequestMessage instance_index property_id data =>
      serialize_common_part self ;;;
      write_int instance_index (Z.to_nat UART_INSTANCE_INDEX_LEN) ;;;
      write_int property_id (Z.to_nat UART_PROPERTY_ID_LEN) ;;;
      write data
  | AttentionEventMessage attention =>
      serialize_common_part self ;;;
      write_int (AttentionEvent.value attention)
        (Z.to_nat UART_ATTENTION_EVENT_LEN)
  | DeviceUUIDResponseMessage uuid =>
      serialize_common_part self ;;; write uuid
  | DfuInitRequestMessage firmware_size firmware_sha256 app_data_length
      app_data =>
      serialize_common_part self ;;;
      write_int firmware_size (Z.to_nat UART_DFU_FIRMWARE_SIZE_LEN) ;;;
      write firmware_sha256 ;;;
      write_int app_data_length (Z.to_nat UART_DFU_APP_DATA_LENGTH_LEN) ;;;
      write app_data
  | DfuInitResponseMessage status
  | DfuPageCreateResponseMessage status
  | DfuPageStoreResponseMessage status =>
      serialize_common_part self ;;;
      write_int (DFUStatus.value status) (Z.to_nat UART_DFU_STATUS_LEN)
  | DfuStatusResponseMessage status supported_page_size firmware_offset
      firmware_crc =>
      serialize_common_part self ;;;
      write_int (DFUStatus.value status) (Z.to_nat UART_DFU_STATUS_LEN) ;;;
      write_int supported_page_size
        (Z.to_nat UART_DFU_SUPPORTED_PAGE_SIZE_LEN) ;;;
      write_int firmware_offset (Z.to_nat UART_DFU_FIRMWARE_OFFSET_LEN) ;;;
      write_int firmware_crc (Z.to_nat UART_DFU_FIRMWARE_CRC_LEN)
  | DfuPageCreateRequestMessage requested_page_size =>
      serialize_common_part self ;;;
      write_int requested_page_size (Z.to_nat UART_REQUESTED_PAGE_SIZE_LEN)
  | DfuWriteDataEventMessage data_len data =>
      serialize_common_part self ;;;
      write_int data_len (Z.to_nat UART_DFU_DATA_LENGTH_LEN) ;;;
      write data
  | DfuStateResponseMessage status =>
      serialize_common_part self ;;;
      write_int (DfuStatus.value status)
        (Z.to_nat UART_DFU_PRE_VALIDATION_STATUS_LEN)
  | StartTestRequest company_id test_id instance_index =>
      serialize_common_part self ;;;
      write_int company_id (Z.to_nat UART_COMPANY_ID_LEN) ;;;
      write_int test_id (Z.to_nat UART_TEST_ID_LEN) ;;;
      write_int instance_index (Z.to_nat UART_INSTANCE_INDEX_LEN)
  | StartNodeRequestMessage | StartNodeResponseMessage
  | FactoryResetRequestMessage | FactoryResetResponseMessage
  | FactoryResetEventMessage | CurrentStateRequestMessage
  | FirmwareVersionRequestMessage | SoftResetRequestMessage
  | SoftResetResponseMessage | SensorUpdateResponseMessage
  | DeviceUUIDRequestMessage | DfuStatusRequestMessage
  | DfuPageStoreRequestMessage | DfuStateRequestMessage
  | DfuCancelRequestMessage | DfuCancelResponseMessage
  | StartTestResponse =>
      serialize_common_part self
  end.

(** [deserialize_common_part(stream)] *)
Definition deserialize_common_part (self : Message) : M Z :=
  length <- read_int UART_LENGTH_LEN ;;
  opcode <- read_int UART_CMD_LEN ;;
  if negb (opcode =? UartCommand.value (msg_type self))
  then raise InvalidOpcode
  else ret length.

(** [while length >= UART_MODEL_ID_LEN: ...] of the three messages that
    carry a list of model identifiers.  Each turn takes 2 from [length], so
    [Z.to_nat length] turns of [fuel] are never exhausted. *)
Fixpoint model_ids_loop (fuel : nat) (length : Z)
    (model_ids : list ModelID.t) : M (Z * list ModelID.t) :=
  if UART_MODEL_ID_LEN <=? length then
    match fuel with
    | O => ret (length, model_ids)
    | S fuel' =>
        b <- read UART_MODEL_ID_LEN ;;
        model_id <- lift (ModelID.from_bytes b) ;;
        model_ids_loop fuel' (length - UART_MODEL_ID_LEN)
          (model_ids ++ [model_id])
    end
  else ret (length, model_ids).

(** The loop of [CreateInstancesRequestMessage.deserialize]; each turn takes
    [model_desc.get_length()], at least 2, from [length]. *)
Fixpoint model_descs_loop (fuel : nat) (length : Z)
    (model_descs : list ModelDesc.t) : M (Z * list ModelDesc.t) :=
  if UART_MODEL_ID_LEN <=? length then
    match fuel with
    | O => ret (length, model_descs)
    | S fuel' =>
        model_desc <- ModelDesc.deserialize (ModelDesc.new None) ;;
        model_descs_loop fuel' (length - ModelDesc.get_length model_desc)
          (model_descs ++ [model_desc])
    end
  else ret (length, model_descs).

Definition deserialize_model_ids (self : Message)
    (model_ids : list ModelID.t) (mk : list ModelID.t -> Message)
    : M Message :=
  length <- deserialize_common_part self ;;
  r <- model_ids_loop (Z.to_nat length) length model_ids ;;
  let '(length, model_ids) := r in
  if negb (length =? 0) then raise InvalidLen else ret (mk model_ids).

Definition deserialize_no_payload (self : Message) : M Message :=
  length <- deserialize_common_part self ;;
  if negb (length =? 0) then raise InvalidLen else ret self.

Definition deserialize_dfu_status (self : Message)
    (mk : DFUStatus.t -> Message) : M Message :=
  length <- deserialize_common_part self ;;
  b <- read UART_DFU_STATUS_LEN ;;
  status <- lift (DFUStatus.from_bytes b) ;;
  if negb (length - UART_DFU_STATUS_LEN =? 0) then raise InvalidLen
  else ret (mk status).

(** [deserialize(stream)] of each class: the fields of [self] are
    overwritten (lists are appended to) and the instance is returned;
    [GenericMessage.deserialize] is the base-class stub [assert False]. *)
Definition deserialize (self : Message) : M Message :=
  match self with
  | GenericMessage => raise AssertionError
  | PingRequestMessage _ =>
      length <- deserialize_common_part self ;;
      data <- read length ;;
      if negb (length =? len data) then raise InvalidLen
      else ret (PingRequestMessage data)
  | PongResponseMessage _ =>
      length <- deserialize_common_part self ;;
      data <- read length ;;
      if negb (length =? len data) then raise InvalidLen
      else ret (PongResponseMessage data)
  | InitDeviceEventMessage model_ids =>
      deserialize_model_ids self model_ids InitDeviceEventMessage
  | CreateInstancesResponseMessage model_ids =>
      deserialize_model_ids self model_ids CreateInstancesResponseMessage
  | InitNodeEventMessage model_ids =>
      deserialize_model_ids self model_ids InitNodeEventMessage
  | CreateInstancesRequestMessage model_descs =>
      length <- deserialize_common_part self ;;
      r <- model_descs_loop (Z.to_nat length) length model_descs ;;
      let '(length, model_descs) := r in
      if negb (length =? 0) then raise InvalidLen
      else ret (CreateInstancesRequestMessage model_descs)
  | MeshMessageRequestMessage _ _ _ _ =>
      length <- deserialize_common_part self ;;
      instance_index <- read_int UART_INSTANCE_INDEX_LEN ;;
      sub_index <- read_int UART_SUB_INDEX_LEN ;;
      mesh_opcode <- read_int UART_MESH_OPCODE_LEN ;;
      let length :=
        length - (UART_INSTANCE_INDEX_LEN + UART_SUB_INDEX_LEN
                  + UART_MESH_OPCODE_LEN) in
      mesh_command <- read length ;;
      if negb (length =? len mesh_command) then raise InvalidLen
      else ret (MeshMessageRequestMessage instance_index sub_index
                  mesh_opcode mesh_command)
  | MeshMessageResponseMessage _ _ =>
      length <- deserialize_common_part self ;;
      instance_index <- read_int UART_INSTANCE_INDEX_LEN ;;
      sub_index <- read_int UART_SUB_INDEX_LEN ;;
      if negb (length - UART_INSTANCE_INDEX_LEN - UART_SUB_INDEX_LEN =? 0)
      then raise InvalidLen
      else ret (MeshMessageResponseMessage instance_index sub_index)
  | CurrentStateResponseMessage _ =>
      length <- deserialize_common_part self ;;
      b <- read UART_MODEM_STATE_LEN ;;
      state <- lift (ModemState.from_bytes b) ;;
      if negb (length - UART_MODEM_STATE_LEN =? 0) then raise InvalidLen
      else ret (CurrentStateResponseMessage state)
  | ErrorMessage _ =>
      length <- deserialize_common_part self ;;
      b <- read UART_ERROR_ID_LEN ;;
      error <- lift (Error.from_bytes b) ;;
      if negb (length - UART_ERROR_ID_LEN =? 0) then raise InvalidLen
      else ret (ErrorMessage error)
  | FirmwareVersionResponseMessage _ =>
      length <- deserialize_common_part self ;;
      if length =? 0 then raise InvalidLen
      else
        firmware_version <- read length ;;
        ret (FirmwareVersionResponseMessage firmware_version)
  | SensorUpdateRequestMessage _ _ _ =>
      length <- deserialize_common_part self ;;
      instance_index <- read_int UART_INSTANCE_INDEX_LEN ;;
      property_id <- read_int UART_PROPERTY_ID_LEN ;;
      let length := length - (UART_INSTANCE_INDEX_LEN + UART_PROPERTY_ID_LEN) in
      data <- read length ;;
      if negb (length =? len data) then raise InvalidLen
      else ret (SensorUpdateRequestMessage instance_index property_id data)
  | AttentionEventMessage _ =>
      length <- deserialize_common_part self ;;
      b <- read UART_ATTENTION_EVENT_LEN ;;
      attention <- lift (AttentionEvent.from_bytes b) ;;
      if negb (length - UART_ATTENTION_EVENT_LEN =? 0) then raise InvalidLen
      else ret (AttentionEventMessage attention)
  | DeviceUUIDResponseMessage _ =>
      length <- deserialize_common_part self ;;
      uuid <- read UART_UUID_LEN ;;
      if negb (length - UART_UUID_LEN =? 0) then raise InvalidLen
      else if negb (len uuid - UART_UUID_LEN =? 0) then raise InvalidLen
      else ret (DeviceUUIDResponseMessage uuid)
  | DfuInitRequestMessage _ _ _ _ =>
      length <- deserialize_common_part self ;;
      firmware_size <- read_int UART_DFU_FIRMWARE_SIZE_LEN ;;
      firmware_sha256 <- read UART_DFU_FIRMWARE_SHA256_LEN ;;
      app_data_length <- read_int UART_DFU_APP_DATA_LENGTH_LEN ;;
      let length :=
        length - (UART_DFU_FIRMWARE_SIZE_LEN + UART_DFU_FIRMWARE_SHA256_LEN
                  + UART_DFU_APP_DATA_LENGTH_LEN) in
      if negb (length =? app_data_length) then raise InvalidLen
      else
        app_data <- read length ;;
        if negb (app_data_length =? len app_data) then raise InvalidLen
        else ret (DfuInitRequestMessage firmware_size firmware_sha256
                    app_data_length app_data)
  | DfuInitResponseMessage _ =>
      deserialize_dfu_status self DfuInitResponseMessage
  | DfuPageCreateResponseMessage _ =>
      deserialize_dfu_status self DfuPageCreateResponseMessage
  | DfuPageStoreResponseMessage _ =>
      deserialize_dfu_status self DfuPageStoreResponseMessage
  | DfuStatusResponseMessage _ _ _ _ =>
      length <- deserialize_common_part self ;;
      b <- read UART_DFU_STATUS_LEN ;;
      status <- lift (DFUStatus.from_bytes b) ;;
      supported_page_size <- read_int UART_DFU_SUPPORTED_PAGE_SIZE_LEN ;;
      firmware_offset <- read_int UART_DFU_FIRMWARE_OFFSET_LEN ;;
      firmware_crc <- read_int UART_DFU_FIRMWARE_CRC_LEN ;;
      if negb (length - UART_DFU_STATUS_LEN - UART_DFU_SUPPORTED_PAGE_SIZE_LEN
               - UART_DFU_FIRMWARE_OFFSET_LEN - UART_DFU_FIRMWARE_CRC_LEN =? 0)
      then raise InvalidLen
      else ret (DfuStatusResponseMessage status supported_page_size
                  firmware_offset firmware_crc)
  | DfuPageCreateRequestMessage _ =>
      length <- deserialize_common_part self ;;
      requested_page_size <- read_int UART_REQUESTED_PAGE_SIZE_LEN ;;
      if negb (length - UART_REQUESTED_PAGE_SIZE_LEN =? 0) then raise InvalidLen
      else ret (DfuPageCreateRequestMessage requested_page_size)
  | DfuWriteDataEventMessage _ _ =>
      length <- deserialize_common_part self ;;
      data_len <- read_int UART_DFU_DATA_LENGTH_LEN ;;
      let length := length - UART_DFU_DATA_LENGTH_LEN in
      if negb (length =? data_len) then raise InvalidLen
      else
        data <- read length ;;
        if negb (data_len =? len data) then raise InvalidLen
        else ret (DfuWriteDataEventMessage data_len data)
  | DfuStateResponseMessage _ =>
      length <- deserialize_common_part self ;;
      b <- read UART_DFU_PRE_VALIDATION_STATUS_LEN ;;
      status <- lift (DfuStatus.from_bytes b) ;;
      if negb (length - UART_DFU_PRE_VALIDATION_STATUS_LEN =? 0)
      then raise InvalidLen
      else ret (DfuStateResponseMessage status)
  | StartTestRequest _ _ _ =>
      length <- deserialize_common_part self ;;
      company_id <- read_int UART_COMPANY_ID_LEN ;;
      test_id <- read_int UART_TEST_ID_LEN ;;
      instance_index <- read_int UART_INSTANCE_INDEX_LEN ;;
      let length :=
        length - (UART_COMPANY_ID_LEN + UART_TEST_ID_LEN
                  + UART_INSTANCE_INDEX_LEN) in
      if negb (length =? 0) then raise InvalidLen
      else ret (StartTestRequest company_id test_id instance_index)
  | StartNodeRequestMessage | StartNodeResponseMessage
  | FactoryResetRequestMessage | FactoryResetResponseMessage
  | FactoryResetEventMessage | CurrentStateRequestMessage
  | FirmwareVersionRequestMessage | SoftResetRequestMessage
  | SoftResetResponseMessage | SensorUpdateResponseMessage
  | DeviceUUIDRequestMessage | DfuStatusRequestMessage
  | DfuPageStoreRequestMessage | DfuStateRequestMessage
  | DfuCancelRequestMessage | DfuCancelResponseMessage
  | StartTestResponse =>
      deserialize_no_payload self
  end.

(* ================================================================== *)
(** ** message_factory.py *)

(** The registry.  A class is entered as the instance [msg_class()] that its
    constructor builds, with the field values of its [__init__]. *)
Definition UART_CLASSES : list (UartCommand.t * Message) :=
  [ (UartCommand.PingRequest, PingRequestMessage []);
    (UartCommand.PongResponse, PongResponseMessage []);
    (UartCommand.InitDeviceEvent, InitDeviceEventMessage []);
    (UartCommand.CreateInstancesRequest, CreateInstancesRequestMessage []);
    (UartCommand.CreateInstancesResponse, CreateInstancesResponseMessage []);
    (UartCommand.InitNodeEvent, InitNodeEventMessage []);
    (UartCommand.MeshMessageRequest, MeshMessageRequestMessage 0 0 0 []);
    (UartCommand.StartNodeRequest, StartNodeRequestMessage);
    (UartCommand.StartNodeResponse, StartNodeResponseMessage);
    (UartCommand.FactoryResetRequest, FactoryResetRequestMessage);
    (UartCommand.FactoryResetResponse, FactoryResetResponseMessage);
    (UartCommand.FactoryResetEvent, FactoryResetEventMessage);
    (UartCommand.MeshMessageResponse, MeshMessageResponseMessage 0 0);
    (UartCommand.CurrentStateRequest, CurrentStateRequestMessage);
    (UartCommand.CurrentStateResponse,
       CurrentStateResponseMessage ModemState.Unknown);
    (UartCommand.Error, ErrorMessage Error.InvalidCRC);
    (UartCommand.FirmwareVersionRequest, FirmwareVersionRequestMessage);
    (UartCommand.FirmwareVersionResponse, FirmwareVersionResponseMessage []);
    (UartCommand.SensorUpdateRequest, SensorUpdateRequestMessage 0 0 []);
    (UartCommand.AttentionEvent, AttentionEventMessage AttentionEvent.Off);
    (UartCommand.SoftResetRequest, SoftResetRequestMessage);
    (UartCommand.SoftResetResponse, SoftResetResponseMessage);
    (UartCommand.SensorUpdateResponse, SensorUpdateResponseMessage);
    (UartCommand.DeviceUUIDRequest, DeviceUUIDRequestMessage);
    (UartCommand.DeviceUUIDResponse,
       DeviceUUIDResponseMessage (repeat x00 (Z.to_nat UART_UUID_LEN)));
    (UartCommand.StartTestRequest, StartTestRequest 0 0 0);
    (UartCommand.StartTestResponse, StartTestResponse);
    (UartCommand.Generic, GenericMessage);
    (UartCommand.DfuInitRequest,
       DfuInitRequestMessage 0
         (repeat x00 (Z.to_nat UART_DFU_FIRMWARE_SHA256_LEN)) 0 []);
    (UartCommand.DfuInitResponse,
       DfuInitResponseMessage DFUStatus.DFU_INVALID_CODE);
    (UartCommand.DfuStatusRequest, DfuStatusRequestMessage);
    (UartCommand.DfuStatusResponse,
       DfuStatusResponseMessage DFUStatus.DFU_INVALID_CODE 0 0 0);
    (UartCommand.DfuPageCreateRequest, DfuPageCreateRequestMessage 0);
    (UartCommand.DfuPageCreateResponse,
       DfuPageCreateResponseMessage DFUStatus.DFU_INVALID_CODE);
    (UartCommand.DfuWriteDataEvent, DfuWriteDataEventMessage 0 []);
    (UartCommand.DfuPageStoreRequest, DfuPageStoreRequestMessage);
    (UartCommand.DfuPageStoreResponse,
       DfuPageStoreResponseMessage DFUStatus.DFU_INVALID_CODE);
    (UartCommand.DfuStateRequest, DfuStateRequestMessage);
    (UartCommand.DfuStateResponse,
       DfuStateResponseMessage DfuStatus.NotInProgress);
    (UartCommand.DfuCancelRequest, DfuCancelRequestMessage);
    (UartCommand.DfuCancelResponse, DfuCancelResponseMessage) ].

(** [UART_CLASSES[cmd]]: [None] stands for [KeyError]. *)
Definition UART_CLASSES_get (cmd : Z) : option Message :=
  match find (fun kv => UartCommand.value (fst kv) =? cmd) UART_CLASSES with
  | Some kv => Some (snd kv)
  | None => None
  end.

(** [serialize_message(msg)] *)
Definition serialize_message (msg : Message) : res bytes :=
  let stream : bytes := [] in
  match serialize msg stream with
  | Ok (_, stream) => Ok stream
  | Err e => Err e
  end.

(** [deserialize_message(data)] *)
Definition deserialize_message (data : bytes) : res Message :=
  match nth_error data 1 with
  | None => Err InvalidLen
  | Some b =>
      let cmd := byte_to_Z b in
      let stream := data in
      match UART_CLASSES_get cmd with
      | None => Err InvalidOpcode
      | Some msg =>
          match deserialize msg stream with
          | Ok (msg, _) => Ok msg
          | Err e => Err e
          end
      end
  end.

(* ================================================================== *)
(** ** Vocabulary of the properties *)

(** A buffer that starts with a complete candidate frame: the preamble, the
    LENGTH byte [l], [body] = OPCODE and PAYLOAD, the two trailer bytes
    [crc], then whatever follows on the wire. *)
Definition candidate (l : byte) (body crc tail : bytes) : bytes :=
  UartAdapter.UART_PREAMBLE ++ (l :: body) ++ crc ++ tail.

(** The reassembler accepts the candidate at the head of [raw]: the frame
    [f] is the first one it delivers. *)
Definition accepts (raw f : bytes) : Prop :=
  hd_error (fst (UartAdapter.extract_frames raw)) = Some f.

(** The checksummed range as the specification words it: OPCODE and PAYLOAD,
    without the LENGTH byte. *)
Definition crc_over_opcode_payload_only (l : byte) (body crc tail : bytes)
    : Prop :=
  accepts (candidate l body crc tail) (l :: body) <->
  int_from_bytes crc = UartAdapter.calculate_crc body.

(** A fragment that starts with the preamble and is not yet a whole frame:
    the two early returns of [extract_frames]. *)
Definition incomplete_fragment (frag : bytes) : Prop :=
  slice_to 2 frag = UartAdapter.UART_PREAMBLE /\
  (len frag < 6 \/ len frag < 6 + int_from_bytes (slice 2 3 frag)).

(** The opcode a decoder is invoked for: [self.type]. *)
Definition opcode (self : Message) : Z := UartCommand.value (msg_type self).

(** The classes without payload: their [deserialize] is
    [length = self.deserialize_common_part(stream)] followed by
    [if length != 0: raise InvalidLen]. *)
Definition zero_payload (self : Message) : bool :=
  match self with
  | StartNodeRequestMessage | StartNodeResponseMessage
  | FactoryResetRequestMessage | FactoryResetResponseMessage
  | FactoryResetEventMessage | CurrentStateRequestMessage
  | FirmwareVersionRequestMessage | SoftResetRequestMessage
  | SoftResetResponseMessage | SensorUpdateResponseMessage
  | DeviceUUIDRequestMessage | DfuStatusRequestMessage
  | DfuPageStoreRequestMessage | DfuStateRequestMessage
  | DfuCancelRequestMessage | DfuCancelResponseMessage
  | StartTestResponse => true
  | _ => false
  end.

(** The embedded length sub-fields of the two DFU messages, as carried by
    the bytes [payload] that follow LENGTH and OPCODE: [app_data_length]
    comes after the 4-byte size and the 32-byte hash, [data_len] is first. *)
Definition DfuInitRequest_fixed_len : Z :=
  UART_DFU_FIRMWARE_SIZE_LEN + UART_DFU_FIRMWARE_SHA256_LEN
  + UART_DFU_APP_DATA_LENGTH_LEN.
Definition DfuInitRequest_embedded_length (payload : bytes) : Z :=
  int_from_bytes (slice 36 37 payload).
Definition DfuWriteDataEvent_embedded_length (payload : bytes) : Z :=
  int_from_bytes (slice 0 1 payload).

(** The layout of a ModelDescriptor as the specification words it, for the
    stream [s] a fresh [ModelDesc()] is decoded from: decoding succeeds,
    and either the identifier is the sensor-setup value, the configuration
    has exactly 10 bytes and 12 bytes are consumed, or the configuration is
    empty and exactly 2 bytes are consumed. *)
Definition ModelDesc_layout_as_specified (s : bytes) : Prop :=
  exists d s',
    ModelDesc.deserialize (ModelDesc.new None) s = Ok (d, s') /\
    if int_from_bytes (slice 0 2 s) =? ModelID.value ModelID.SensorSetupServerID
    then len (ModelDesc.config d) = UART_SENSOR_SETUP_SERVER_CONFIG_LEN
         /\ len s - len s' = 12
    else ModelDesc.config d = [] /\ len s - len s' = 2.

(** Size domains of the fields. *)
Definition u8 (v : Z) : Prop := 0 <= v < 256.
Definition u16 (v : Z) : Prop := 0 <= v < 65536.
Definition u32 (v : Z) : Prop := 0 <= v < 4294967296.

(** A ModelDesc carries a configuration block (of the declared 10 bytes)
    exactly when its identifier is the sensor-setup value. *)
Definition ModelDesc_consistent (d : ModelDesc.t) : Prop :=
  match ModelDesc.model_id d with
  | None => False
  | Some id =>
      if ModelID.eqb id ModelID.SensorSetupServerID
      then len (ModelDesc.config d) = UART_SENSOR_SETUP_SERVER_CONFIG_LEN
      else ModelDesc.config d = []
  end.

(** The fields of [m] lie within their declared size domains and are
    internally consistent: the payload fits the one-byte LENGTH, integers fit
    their byte counts, fixed blocks have their fixed size, embedded length
    fields equal the byte counts they describe. *)
Definition in_size_domains (m : Message) : Prop :=
  get_length m <= 255 /\
  match m with
  | CreateInstancesRequestMessage model_descs =>
      Forall ModelDesc_consistent model_descs
  | MeshMessageRequestMessage instance_index sub_index mesh_opcode _ =>
      u8 instance_index /\ u8 sub_index /\ u16 mesh_opcode
  | MeshMessageResponseMessage instance_index sub_index =>
      u8 instance_index /\ u8 sub_index
  | SensorUpdateRequestMessage instance_index property_id _ =>
      u8 instance_index /\ u16 property_id
  | DeviceUUIDResponseMessage uuid => len uuid = UART_UUID_LEN
  | DfuInitRequestMessage firmware_size firmware_sha256 app_data_length
      app_data =>
      u32 firmware_size /\
      len firmware_sha256 = UART_DFU_FIRMWARE_SHA256_LEN /\
      app_data_length = len app_data
  | DfuStatusResponseMessage _ supported_page_size firmware_offset
      firmware_crc =>
      u32 supported_page_size /\ u32 firmware_offset /\ u32 firmware_crc
  | DfuPageCreateRequestMessage requested_page_size => u32 requested_page_size
  | DfuWriteDataEventMessage data_len data => data_len = len data
  | StartTestRequest company_id test_id instance_index =>
      u16 company_id /\ u8 test_id /\ u8 instance_index
  | _ => True
  end.

(** [deserialize_message(serialize_message(m)) == m] *)
Definition round_trips (m : Message) : Prop :=
  exists data, serialize_message m = Ok data /\ deserialize_message data = Ok m.

(** The two cases the round trip leaves out: the base class, whose codec is
    the unimplemented stub, and a firmware version of no bytes, which the
    decoder refuses. *)
Definition has_codec (m : Message) : Prop :=
  match m with
  | GenericMessage => False
  | FirmwareVersionResponseMessage firmware_version => firmware_version <> []
  | _ => True
  end.

(** The bytes of one model identifier and of one model descriptor. *)
Definition model_id_bytes (model_id : ModelID.t) : bytes :=
  le_bytes 2 (ModelID.value model_id).

Definition model_desc_bytes (d : ModelDesc.t) : bytes :=
  match ModelDesc.model_id d with
  | None => []
  | Some id => model_id_bytes id ++ ModelDesc.config d
  end.

(** The payload layout of each class, field by field in the declared order;
    [serialize_layout] shows that [serialize] writes LENGTH, OPCODE and
    exactly these bytes. *)
Definition wire_payload (m : Message) : bytes :=
  match m with
  | PingRequestMessage data | PongResponseMessage data => data
  | InitDeviceEventMessage model_ids
  | CreateInstancesResponseMessage model_ids
  | InitNodeEventMessage model_ids => flat_map model_id_bytes model_ids
  | CreateInstancesRequestMessage model_descs =>
      flat_map model_desc_bytes model_descs
  | MeshMessageRequestMessage instance_index sub_index mesh_opcode
      mesh_command =>
      le_bytes 1 instance_index ++ le_bytes 1 sub_index
      ++ le_bytes 2 mesh_opcode ++ mesh_command
  | MeshMessageResponseMessage instance_index sub_index =>
      le_bytes 1 instance_index ++ le_bytes 1 sub_index
  | CurrentStateResponseMessage state => le_bytes 1 (ModemState.value state)
  | ErrorMessage error => le_bytes 1 (Error.value error)
  | FirmwareVersionResponseMessage firmware_version => firmware_version
  | SensorUpdateRequestMessage instance_index property_id data =>
      le_bytes 1 instance_index ++ le_bytes 2 property_id ++ data
  | AttentionEventMessage attention =>
      le_bytes 1 (AttentionEvent.value attention)
  | DeviceUUIDResponseMessage uuid => uuid
  | DfuInitRequestMessage firmware_size firmware_sha256 app_data_length
      app_data =>
      le_bytes 4 firmware_size ++ firmware_sha256
      ++ le_bytes 1 app_data_length ++ app_data
  | DfuInitResponseMessage status
  | DfuPageCreateResponseMessage status
  | DfuPageStoreResponseMessage status => le_bytes 1 (DFUStatus.value status)
  | DfuStatusResponseMessage status supported_page_size firmware_offset
      firmware_crc =>
      le_bytes 1 (DFUStatus.value status) ++ le_bytes 4 supported_page_size
      ++ le_bytes 4 firmware_offset ++ le_bytes 4 firmware_crc
  | DfuPageCreateRequestMessage requested_page_size =>
      le_bytes 4 requested_page_size
  | DfuWriteDataEventMessage data_len data => le_bytes 1 data_len ++ data
  | DfuStateResponseMessage status => le_bytes 1 (DfuStatus.value status)
  | StartTestRequest company_id test_id instance_index =>
      le_bytes 2 company_id ++ le_bytes 1 test_id
      ++ le_bytes 1 instance_index
  | _ => []
  end.

(** The opcode check as the specification words it for a decoder [self]
    and an input of at least 2 bytes: [InvalidOpcode] is raised when the
    opcode byte differs from the decoder's opcode and is not raised when it
    matches. *)
Definition opcode_check_as_specified (self : Message) (data : bytes) : Prop :=
  match data with
  | _ :: o :: _ =>
      (byte_to_Z o <> opcode self -> deserialize self data = Err InvalidOpcode)
      /\ (byte_to_Z o = opcode self ->
          deserialize self data <> Err InvalidOpcode)
  | _ => True
  end.

(** The computation [m] raises [e] on no stream. *)
Definition never_raises {A : Type} (e : exn) (m : M A) : Prop :=
  forall s, m s <> Err e.

(* ================================================================== *)
(** ** The adapter around the reassembler *)

(** The chunk [write_uart_frame] builds for the frame [f]: preamble, frame,
    little-endian CRC. *)
Definition wire (f : bytes) : bytes :=
  UartAdapter.UART_PREAMBLE ++ f
  ++ le_bytes 2 (UartAdapter.calculate_crc f).

(** A frame LENGTH, OPCODE, PAYLOAD whose LENGTH byte counts the payload. *)
Definition well_formed_frame (f : bytes) : Prop :=
  match f with
  | l :: _ :: payload => byte_to_Z l = len payload
  | _ => False
  end.

(** No position of [b] satisfies the exit test [buffer_data[:2] == preamble]
    of the loop of [eat_bytes_until_preamble]. *)
Fixpoint preamble_free (b : bytes) : bool :=
  match b with
  | [] => true
  | _ :: tl =>
      negb (bytes_eqb (slice_to 2 b) UartAdapter.UART_PREAMBLE)
      && preamble_free tl
  end.

(** *** Observers and the frame-processing loop of [UartAdapter]

    An observer object is known by its identity; the calls of
    [new_frame_notification] are recorded, in order, in a trace. *)

Definition observer : Set := nat.
Definition notification : Set := (observer * bytes)%type.

(** [register_observer(observer_obj)] *)
Definition register_observer (observer_obj : observer)
    (observers : list observer) : list observer :=
  if negb (existsb (Nat.eqb observer_obj) observers)
  then observers ++ [observer_obj]
  else observers.

(** [list.remove(x)]: the first occurrence goes, [ValueError] when there is
    none. *)
Fixpoint list_remove (x : observer) (l : list observer)
    : res (list observer) :=
  match l with
  | [] => Err ValueError
  | y :: tl =>
      if Nat.eqb y x then Ok tl
      else
        match list_remove x tl with
        | Ok tl' => Ok (y :: tl')
        | Err e => Err e
        end
  end.

(** [unregister_observer(observer_obj)] *)
Definition unregister_observer (observer_obj : observer)
    (observers : list observer) : res (list observer) :=
  list_remove observer_obj observers.

(** [_insert_parsed_frame(frame)] *)
Definition _insert_parsed_frame (observers : list observer) (frame : bytes)
    (trace : list notification) : list notification :=
  trace ++ map (fun observer => (observer, frame)) observers.

(** One turn of the loop of [UartAdapter.run] that received [chunk] from the
    inbound queue; a turn that times out ([queue.Empty]) changes nothing.
    The state is [not_processed_buffer_data] and the trace. *)
Definition run_iteration (observers : list observer)
    (st : bytes * list notification) (chunk : bytes)
    : bytes * list notification :=
  let '(not_processed_buffer_data, trace) := st in
  let not_processed_buffer_data := not_processed_buffer_data ++ chunk in
  let '(frames, not_processed_buffer_data) :=
    UartAdapter.extract_frames not_processed_buffer_data in
  (not_processed_buffer_data,
   fold_left (fun trace frame => _insert_parsed_frame observers frame trace)
     frames trace).

(** The loop over the chunks the inbound queue delivers, from the empty
    buffer. *)
Definition run (observers : list observer) (chunks : list bytes)
    : bytes * list notification :=
  fold_left (run_iteration observers) chunks ([], []).

(** *** The reassembler as the interpreter runs it

    The definitions of [UartAdapter] above are the functions on a
    [bytearray] and within the recursion limit.  The two things the
    interpreter adds are explicit here: the type of the buffer, since [pop]
    exists on a [bytearray] and not on [bytes], and the recursion limit,
    since [extract_frames] calls itself once for every frame it delivers. *)

Inductive buffer_type : Set := Bytes | Bytearray.

Module Interp.

(** The [while] loop of [eat_bytes_until_preamble] on a buffer of type [t]:
    [buffer_data.pop(0)] raises [AttributeError] on [bytes]. *)
Fixpoint eat_loop (t : buffer_type) (buffer_data orphaned_bytes : bytes)
    : res (bytes * bytes) :=
  match buffer_data with
  | [] => Ok (buffer_data, orphaned_bytes)
  | b :: tl =>
      if negb (bytes_eqb (slice_to 2 buffer_data) UartAdapter.UART_PREAMBLE)
      then
        match t with
        | Bytes => Err AttributeError
        | Bytearray => eat_loop t tl (orphaned_bytes ++ [b])
        end
      else Ok (buffer_data, orphaned_bytes)
  end.

(** [eat_bytes_until_preamble(buffer_data)] on a buffer of type [t]. *)
Definition eat_bytes_until_preamble (t : buffer_type) (buffer_data : bytes)
    : res bytes :=
  match eat_loop t buffer_data [] with
  | Err e => Err e
  | Ok (buffer_data, orphaned_bytes) =>
      if 0 <? len orphaned_bytes then
        if len buffer_data =? 0 then Ok orphaned_bytes else Ok buffer_data
      else Ok buffer_data
  end.

(** [extract_frames(raw_uart_data)] on a buffer of type [t], when the
    recursion limit leaves room for [depth] nested activations of
    [extract_frames], each with the calls it makes: the activation that
    would exceed it raises [RecursionError].  The slices, and so the frames
    and the leftover, have the type of the buffer. *)
Fixpoint extract_frames (depth : nat) (t : buffer_type)
    (raw_uart_data : bytes) : res (list bytes * bytes) :=
  match depth with
  | O => Err RecursionError
  | S depth =>
      let uart_frames : list bytes := [] in
      match eat_bytes_until_preamble t raw_uart_data with
      | Err e => Err e
      | Ok raw_uart_data =>
          if len raw_uart_data <? 6 then Ok (uart_frames, raw_uart_data)
          else
            let data_len := int_from_bytes (slice 2 3 raw_uart_data) in
            if len raw_uart_data <? 6 + data_len
            then Ok (uart_frames, raw_uart_data)
            else
              let uart_frame := slice_to (4 + data_len + 2) raw_uart_data in
              let remaining_data :=
                slice_from (6 + data_len) raw_uart_data in
              let expected_crc :=
                UartAdapter.calculate_crc
                  (slice 2 (4 + data_len) uart_frame) in
              let actual_crc :=
                int_from_bytes
                  (slice_from (len uart_frame - 2) uart_frame) in
              let uart_frame_no_preamble_and_crc :=
                slice 2 (len uart_frame - 2) uart_frame in
              if expected_crc =? actual_crc then
                let uart_frames :=
                  uart_frames ++ [uart_frame_no_preamble_and_crc] in
                if 0 <? len remaining_data then
                  match extract_frames depth t remaining_data with
                  | Err e => Err e
                  | Ok (another_frames, remaining_data) =>
                      Ok (uart_frames ++ another_frames, remaining_data)
                  end
                else Ok (uart_frames, remaining_data)
              else Ok (uart_frames, remaining_data)
      end
  end.

(** The loop of [UartAdapter.run] over the chunks the inbound queue
    delivers.  [not_processed_buffer_data] is a [bytearray].  Only
    [queue.Empty] is caught: any other exception leaves the loop and ends
    the thread, with the notifications made until then. *)
Fixpoint run (depth : nat) (observers : list observer)
    (chunks : list bytes) (not_processed_buffer_data : bytes)
    (trace : list notification) : res bytes * list notification :=
  match chunks with
  | [] => (Ok not_processed_buffer_data, trace)
  | chunk :: chunks =>
      let not_processed_buffer_data := not_processed_buffer_data ++ chunk in
      match extract_frames depth Bytearray not_processed_buffer_data with
      | Err e => (Err e, trace)
      | Ok (frames, not_processed_buffer_data) =>
          run depth observers chunks not_processed_buffer_data
            (fold_left
               (fun trace frame => _insert_parsed_frame observers frame trace)
               frames trace)
      end
  end.

End Interp.

(** *** The transport pump: [UartConnectionThread.run] *)

Module UartConnectionThread.

(** The loop's variable [data_to_be_sent], the two queues, and the bytes
    the port has accepted so far. *)
Record state : Set := mk {
  data_to_be_sent : bytes;
  out_queue : list bytes;
  in_queue : list bytes;
  port_written : bytes
}.

(** Modelled from the spec: the serial port is the [pyserial] package, not
    part of the sources.  As section 1 of the specification has it, writes
    are partial and reads drain what is available: [serial.write(data)]
    accepts the first [sent_bytes_n] bytes of [data] and returns that count,
    [serial.read_all()] returns the bytes [received].  One turn of the loop
    of [run]: *)
Definition run_iteration (st : state) (port : nat * bytes) : state :=
  let '(sent_bytes_n, received) := port in
  let '(data_to_be_sent, out_queue) :=
    match data_to_be_sent st, out_queue st with
    | [], chunk :: rest => (chunk, rest)
    | data, q => (data, q)
    end in
  let '(data_to_be_sent, port_written) :=
    match data_to_be_sent with
    | [] => (data_to_be_sent, port_written st)
    | _ :: _ =>
        (skipn sent_bytes_n data_to_be_sent,
         port_written st ++ firstn sent_bytes_n data_to_be_sent)
    end in
  {| data_to_be_sent := data_to_be_sent;
     out_queue := out_queue;
     in_queue := in_queue st ++ [received];
     port_written := port_written |}.

Definition run (st : state) (port : list (nat * bytes)) : state :=
  fold_left run_iteration port st.

End UartConnectionThread.

(** The computation [m] only returns values that satisfy [P]. *)
Definition returns {A : Type} (P : A -> Prop) (m : M A) : Prop :=
  forall s a s', m s = Ok (a, s') -> P a.

(** The values of the enumeration that the first payload byte of a class
    is converted to, for the classes whose first field is an [IntEnum]. *)
Definition enum_field_values (self : Message) : option (list Z) :=
  match self with
  | CurrentStateResponseMessage _ =>
      Some (map ModemState.value ModemState.members)
  | ErrorMessage _ => Some (map Error.value Error.members)
  | AttentionEventMessage _ =>
      Some (map AttentionEvent.value AttentionEvent.members)
  | DfuInitResponseMessage _
  | DfuPageCreateResponseMessage _
  | DfuPageStoreResponseMessage _
  | DfuStatusResponseMessage _ _ _ _ =>
      Some (map DFUStatus.value DFUStatus.members)
  | DfuStateResponseMessage _ =>
      Some (map DfuStatus.value DfuStatus.members)
  | _ => None
  end.

(* ================================================================== *)
(** ** Facts about bytes and integers *)

Lemma byte_to_Z_range (b : byte) : 0 <= byte_to_Z b < 256.
Proof.
  unfold byte_to_Z. pose proof (Byte.to_N_bounded b) as H.
  split; [apply N2Z.is_nonneg|]. apply N.le_lteq in H. lia.
Qed.

Lemma byte_to_of_Z (z : Z) : byte_to_Z (byte_of_Z z) = z mod 256.
Proof.
  unfold byte_to_Z, byte_of_Z.
  assert (Hr : 0 <= z mod 256 < 256) by (apply Z.mod_pos_bound; lia).
  destruct (Byte.of_N (Z.to_N (z mod 256))) as [b|] eqn:E.
  - apply Byte.to_of_N in E. rewrite E. rewrite Z2N.id; lia.
  - apply Byte.of_N_None_iff in E. lia.
Qed.

Lemma byte_of_to_Z (b : byte) : byte_of_Z (byte_to_Z b) = b.
Proof.
  unfold byte_of_Z. pose proof (byte_to_Z_range b) as Hr.
  rewrite Z.mod_small by lia. unfold byte_to_Z. rewrite N2Z.id.
  now rewrite Byte.of_to_N.
Qed.

Lemma length_le_bytes (n : nat) (v : Z) : length (le_bytes n v) = n.
Proof. revert v; induction n as [|n IH]; intros v; simpl; [|rewrite IH]; reflexivity. Qed.

Lemma int_from_bytes_range (b : bytes) :
  0 <= int_from_bytes b < 256 ^ len b.
Proof.
  unfold len. induction b as [|x tl IH].
  - simpl. lia.
  - cbn [int_from_bytes length]. rewrite Nat2Z.inj_succ, Z.pow_succ_r by lia.
    pose proof (byte_to_Z_range x). lia.
Qed.

Lemma int_from_le_bytes (n : nat) (v : Z) :
  0 <= v < 256 ^ Z.of_nat n -> int_from_bytes (le_bytes n v) = v.
Proof.
  revert v; induction n as [|n IH]; intros v Hv.
  - simpl in *. lia.
  - cbn [le_bytes int_from_bytes]. rewrite byte_to_of_Z.
    rewrite Nat2Z.inj_succ, Z.pow_succ_r in Hv by lia.
    rewrite IH.
    + pose proof (Z.div_mod v 256). lia.
    + split; [apply Z.div_pos; lia|]. apply Z.div_lt_upper_bound; lia.
Qed.

Lemma int_to_bytes_ok (v : Z) (n : nat) :
  0 <= v < 256 ^ Z.of_nat n -> int_to_bytes v n = Ok (le_bytes n v).
Proof.
  intros [H0 H1]. unfold int_to_bytes.
  apply Z.leb_le in H0. apply Z.ltb_lt in H1. now rewrite H0, H1.
Qed.

Lemma bytes_eqb_eq (a b : bytes) : bytes_eqb a b = true <-> a = b.
Proof.
  unfold bytes_eqb. destruct (list_eq_dec Byte.byte_eq_dec a b); split;
    intros; congruence.
Qed.

Lemma len_app {A : Type} (a b : list A) : len (a ++ b) = len a + len b.
Proof. unfold len. rewrite length_app. lia. Qed.

Lemma len_nonneg {A : Type} (a : list A) : 0 <= len a.
Proof. unfold len. lia. Qed.

Lemma firstn_app_exact {A : Type} (n : nat) (a b : list A) :
  length a = n -> firstn n (a ++ b) = a.
Proof.
  intros <-. rewrite firstn_app, Nat.sub_diag, firstn_all. simpl.
  apply app_nil_r.
Qed.

Lemma skipn_app_exact {A : Type} (n : nat) (a b : list A) :
  length a = n -> skipn n (a ++ b) = b.
Proof.
  intros <-. rewrite skipn_app, Nat.sub_diag, skipn_all. reflexivity.
Qed.

(* ================================================================== *)
(** ** The CRC engine *)

Import UartAdapter.

Lemma crc16_shift_range (crc : Z) : 0 <= crc16_shift crc < 65536.
Proof.
  unfold crc16_shift.
  change 0xFFFF with (Z.ones 16).
  destruct (Z.testbit crc 15); rewrite Z.land_ones by lia;
    apply Z.mod_pos_bound; lia.
Qed.

Lemma crc16_update_range (crc : Z) (b : byte) :
  0 <= crc16_update crc b < 65536.
Proof. unfold crc16_update. cbn [Nat.iter]. apply crc16_shift_range. Qed.

Lemma calculate_crc_range (data : bytes) : 0 <= calculate_crc data < 65536.
Proof.
  unfold calculate_crc, mkCrcFun_18005_FFFF.
  assert (H : forall init, 0 <= init < 65536 ->
                0 <= fold_left crc16_update data init < 65536).
  { induction data as [|b tl IH]; intros init Hi; simpl; [exact Hi|].
    apply IH, crc16_update_range. }
  apply H. lia.
Qed.

Lemma calculate_crc_bytes_ok (data : bytes) :
  calculate_crc_bytes data = Ok (le_bytes 2 (calculate_crc data)).
Proof.
  unfold calculate_crc_bytes. apply int_to_bytes_ok.
  pose proof (calculate_crc_range data). simpl. lia.
Qed.

(* ================================================================== *)
(** ** The frame reassembler *)

Lemma eat_loop_spec (buffer_data orphaned_bytes : bytes) :
  forall b' o', eat_loop buffer_data orphaned_bytes = (b', o') ->
    orphaned_bytes ++ buffer_data = o' ++ b' /\
    (length orphaned_bytes <= length o')%nat /\
    (b' = [] \/ slice_to 2 b' = UART_PREAMBLE).
Proof.
  revert orphaned_bytes.
  induction buffer_data as [|b tl IH]; intros o b' o' H.
  - simpl in H. inversion H; subst. auto.
  - cbn [eat_loop] in H.
    destruct (bytes_eqb (slice_to 2 (b :: tl)) UART_PREAMBLE) eqn:E;
      cbn [negb] in H.
    + inversion H; subst. apply bytes_eqb_eq in E. auto.
    + apply IH in H. destruct H as (H1 & H2 & H3).
      rewrite <- app_assoc in H1. rewrite length_app in H2. simpl in *.
      repeat split; [exact H1 | lia | exact H3].
Qed.

Lemma eat_bytes_until_preamble_length (buffer_data : bytes) :
  (length (eat_bytes_until_preamble buffer_data) <= length buffer_data)%nat.
Proof.
  unfold eat_bytes_until_preamble.
  destruct (eat_loop buffer_data []) as [b' o'] eqn:E.
  apply eat_loop_spec in E. destruct E as (H1 & _ & _). simpl in H1.
  rewrite H1, length_app.
  destruct (0 <? len o'); [destruct (len b' =? 0)|]; lia.
Qed.

Lemma eat_bytes_until_preamble_at_preamble (rest : bytes) :
  eat_bytes_until_preamble (UART_PREAMBLE ++ rest) = UART_PREAMBLE ++ rest.
Proof. reflexivity. Qed.

Lemma extract_frames_rec_eq (fuel : nat) (raw_uart_data : bytes) :
  extract_frames_rec fuel raw_uart_data =
  let raw_uart_data := eat_bytes_until_preamble raw_uart_data in
  if len raw_uart_data <? 6 then ([], raw_uart_data)
  else
    let data_len := int_from_bytes (slice 2 3 raw_uart_data) in
    if len raw_uart_data <? 6 + data_len then ([], raw_uart_data)
    else
      let uart_frame := slice_to (4 + data_len + 2) raw_uart_data in
      let remaining_data := slice_from (6 + data_len) raw_uart_data in
      if calculate_crc (slice 2 (4 + data_len) uart_frame)
         =? int_from_bytes (slice_from (len uart_frame - 2) uart_frame)
      then
        if 0 <? len remaining_data then
          match fuel with
          | O => ([slice 2 (len uart_frame - 2) uart_frame], remaining_data)
          | S fuel' =>
              let '(another_frames, remaining_data) :=
                extract_frames_rec fuel' remaining_data in
              (slice 2 (len uart_frame - 2) uart_frame :: another_frames,
               remaining_data)
          end
        else ([slice 2 (len uart_frame - 2) uart_frame], remaining_data)
      else ([], remaining_data).
Proof. destruct fuel; reflexivity. Qed.

(** The recursion never runs out of fuel: any two amounts that cover the
    length of the buffer give the same result. *)
Lemma extract_frames_rec_fuel (fuel1 : nat) :
  forall fuel2 raw,
    (length raw <= fuel1)%nat -> (length raw <= fuel2)%nat ->
    extract_frames_rec fuel1 raw = extract_frames_rec fuel2 raw.
Proof.
  induction fuel1 as [|f1 IH]; intros fuel2 raw H1 H2.
  - destruct raw; [|simpl in H1; lia]. destruct fuel2; reflexivity.
  - rewrite !extract_frames_rec_eq. cbv zeta.
    pose proof (eat_bytes_until_preamble_length raw) as He.
    set (r := eat_bytes_until_preamble raw) in *.
    destruct (len r <? 6) eqn:E6; [reflexivity|].
    destruct (len r <? 6 + int_from_bytes (slice 2 3 r)) eqn:El; [reflexivity|].
    destruct (_ =? _); [|reflexivity].
    destruct (0 <? len (slice_from _ r)) eqn:Er; [|reflexivity].
    apply Z.ltb_ge in E6, El. unfold len in E6.
    assert (Hs : (length (slice_from (6 + int_from_bytes (slice 2 3 r)) r)
                  <= length r - 6)%nat).
    { unfold slice_from. rewrite length_skipn.
      pose proof (int_from_bytes_range (slice 2 3 r)). lia. }
    destruct fuel2 as [|f2]; [lia|].
    rewrite (IH f2); [reflexivity | lia | lia].
Qed.

(** One step of the reassembler on a buffer that starts with a complete
    candidate frame: preamble, [f] = LENGTH, OPCODE, PAYLOAD, two CRC bytes. *)
Lemma extract_frames_rec_candidate (fuel : nat) (l : byte)
    (body crc tail : bytes) :
  len body = 1 + byte_to_Z l -> length crc = 2%nat ->
  extract_frames_rec fuel (UART_PREAMBLE ++ (l :: body) ++ crc ++ tail) =
  if calculate_crc (l :: body) =? int_from_bytes crc then
    if 0 <? len tail then
      match fuel with
      | O => ([l :: body], tail)
      | S fuel' =>
          let '(another_frames, remaining_data) :=
            extract_frames_rec fuel' tail in
          ((l :: body) :: another_frames, remaining_data)
      end
    else ([l :: body], tail)
  else ([], tail).
Proof.
  intros Hb Hc.
  rewrite extract_frames_rec_eq, eat_bytes_until_preamble_at_preamble.
  cbv zeta.
  pose proof (byte_to_Z_range l) as Hl.
  set (raw := UART_PREAMBLE ++ (l :: body) ++ crc ++ tail).
  assert (Hdl : int_from_bytes (slice 2 3 raw) = byte_to_Z l).
  { subst raw. change (slice 2 3 _) with [l]. cbn [int_from_bytes]. lia. }
  rewrite Hdl.
  assert (Hlen : len raw = 6 + byte_to_Z l + len tail).
  { subst raw. unfold len in *. rewrite !length_app. cbn [length UART_PREAMBLE].
    rewrite ?length_app. lia. }
  pose proof (len_nonneg tail) as Ht.
  replace (len raw <? 6) with false by (symmetry; apply Z.ltb_ge; lia).
  replace (len raw <? 6 + byte_to_Z l) with false
    by (symmetry; apply Z.ltb_ge; lia).
  assert (Hfr : slice_to (4 + byte_to_Z l + 2) raw
                = UART_PREAMBLE ++ (l :: body) ++ crc).
  { subst raw. unfold slice_to.
    replace (UART_PREAMBLE ++ (l :: body) ++ crc ++ tail)
      with ((UART_PREAMBLE ++ (l :: body) ++ crc) ++ tail)
      by (rewrite <- !app_assoc; reflexivity).
    apply firstn_app_exact. unfold len in Hb.
    rewrite !length_app. cbn [length UART_PREAMBLE]. lia. }
  assert (Hrem : slice_from (6 + byte_to_Z l) raw = tail).
  { subst raw. unfold slice_from.
    replace (UART_PREAMBLE ++ (l :: body) ++ crc ++ tail)
      with ((UART_PREAMBLE ++ (l :: body) ++ crc) ++ tail)
      by (rewrite <- !app_assoc; reflexivity).
    apply skipn_app_exact. unfold len in Hb.
    rewrite !length_app. cbn [length UART_PREAMBLE]. lia. }
  rewrite Hfr, Hrem.
  set (frame := UART_PREAMBLE ++ (l :: body) ++ crc).
  assert (Hfl : len frame = 6 + byte_to_Z l).
  { subst frame. unfold len in *. rewrite !length_app.
    cbn [length UART_PREAMBLE]. lia. }
  assert (Hcov : slice 2 (4 + byte_to_Z l) frame = l :: body).
  { subst frame. unfold slice.
    replace (Z.to_nat 2) with 2%nat by reflexivity.
    cbn [UART_PREAMBLE app skipn].
    change (l :: body ++ crc) with ((l :: body) ++ crc).
    apply firstn_app_exact. unfold len in Hb. cbn [length]. lia. }
  assert (Hact : slice_from (len frame - 2) frame = crc).
  { rewrite Hfl. subst frame. unfold slice_from.
    replace (UART_PREAMBLE ++ (l :: body) ++ crc)
      with ((UART_PREAMBLE ++ (l :: body)) ++ crc)
      by (rewrite <- !app_assoc; reflexivity).
    apply skipn_app_exact. unfold len in Hb.
    rewrite !length_app. cbn [length UART_PREAMBLE]. lia. }
  assert (Hpay : slice 2 (len frame - 2) frame = l :: body).
  { rewrite Hfl. subst frame. unfold slice.
    replace (Z.to_nat 2) with 2%nat by reflexivity.
    cbn [UART_PREAMBLE app skipn].
    change (l :: body ++ crc) with ((l :: body) ++ crc).
    apply firstn_app_exact. unfold len in Hb. cbn [length]. lia. }
  rewrite Hcov, Hact, Hpay. reflexivity.
Qed.

Lemma extract_frames_incomplete (fuel : nat) (frag : bytes) :
  incomplete_fragment frag -> extract_frames_rec fuel frag = ([], frag).
Proof.
  intros [Hp Hi].
  assert (He : eat_bytes_until_preamble frag = frag).
  { destruct frag as [|a [|b rest]]; [discriminate Hp | discriminate Hp |].
    change ([a; b] = [xaa; x55]) in Hp. injection Hp as -> ->. reflexivity. }
  rewrite extract_frames_rec_eq, He. cbv zeta.
  destruct (len frag <? 6) eqn:E6; [reflexivity|].
  apply Z.ltb_ge in E6.
  replace (len frag <? 6 + int_from_bytes (slice 2 3 frag)) with true
    by (symmetry; apply Z.ltb_lt; lia).
  reflexivity.
Qed.

(** When the trailer does not match, the call stops: nothing is delivered
    and everything after the candidate is handed back unscanned. *)
Lemma extract_frames_crc_mismatch (l : byte) (body crc tail : bytes) :
  len body = 1 + byte_to_Z l -> length crc = 2%nat ->
  calculate_crc (l :: body) <> int_from_bytes crc ->
  extract_frames (candidate l body crc tail) = ([], tail).
Proof.
  intros Hb Hc Hne. unfold extract_frames, candidate.
  rewrite extract_frames_rec_candidate by assumption.
  apply Z.eqb_neq in Hne. now rewrite Hne.
Qed.

(* ================================================================== *)
(** ** Claims on the wire framing *)

(** C1 (as the code has it). The 16-bit trailer covers LENGTH, OPCODE and
    PAYLOAD, the preamble alone is left out: the reassembler accepts a
    complete candidate frame exactly when its little-endian trailer equals
    [calculate_crc] of the LENGTH byte followed by opcode and payload, and
    the send path appends the little-endian CRC of that same range. *)
Theorem C1_crc_covers_length_opcode_payload
    (l : byte) (body crc tail : bytes) :
  len body = 1 + byte_to_Z l -> length crc = 2%nat ->
  (accepts (candidate l body crc tail) (l :: body) <->
   int_from_bytes crc = calculate_crc (l :: body)) /\
  frame_to_send (l :: body) false =
    Ok (UART_PREAMBLE ++ (l :: body) ++ le_bytes 2 (calculate_crc (l :: body))).
Proof.
  intros Hb Hc. split.
  - unfold accepts, extract_frames, candidate.
    rewrite extract_frames_rec_candidate by assumption.
    destruct (calculate_crc (l :: body) =? int_from_bytes crc) eqn:E.
    + apply Z.eqb_eq in E. split; [intros _; now symmetry|intros _].
      destruct (0 <? len tail); [|reflexivity].
      destruct (length (UART_PREAMBLE ++ _)) as [|fuel']; [reflexivity|].
      destruct (extract_frames_rec fuel' tail); reflexivity.
    + apply Z.eqb_neq in E. split; [discriminate|intros H; congruence].
  - unfold frame_to_send. now rewrite calculate_crc_bytes_ok.
Qed.

Lemma C1_crc_covers_length_opcode_payload_witness :
  (accepts (candidate x01 [x01; x22] [xdb; x88] []) [x01; x01; x22] <->
   int_from_bytes [xdb; x88] = calculate_crc [x01; x01; x22]) /\
  frame_to_send [x01; x01; x22] false =
    Ok (UART_PREAMBLE ++ [x01; x01; x22]
        ++ le_bytes 2 (calculate_crc [x01; x01; x22])).
Proof.
  apply (C1_crc_covers_length_opcode_payload x01 [x01; x22] [xdb; x88] []);
    reflexivity.
Defined.

(** C1 (as stated) fails: the frame AA 55 01 01 22 DB 88 of the
    repository's tests is accepted, and DB 88 is not the CRC of the opcode
    and payload bytes 01 22 alone. *)
Lemma C1_counterexample :
  len [x01; x22] = 1 + byte_to_Z x01 /\
  length [xdb; x88] = 2%nat /\
  ~ crc_over_opcode_payload_only x01 [x01; x22] [xdb; x88] [].
Proof.
  split; [reflexivity|]. split; [reflexivity|].
  unfold crc_over_opcode_payload_only. intros [H _].
  assert (Ha : accepts (candidate x01 [x01; x22] [xdb; x88] [])
                 [x01; x01; x22]) by (vm_compute; reflexivity).
  apply H in Ha. vm_compute in Ha. discriminate.
Qed.

(** C2 (what the code does). A candidate with a corrupt trailer followed by
    a complete valid frame: the call delivers no frame and hands the valid
    frame back as leftover; only a second call extracts it. *)
Theorem C2_crc_failure_stops_the_call :
  extract_frames ([xaa; x55; x01; x01; x22; xdb; x89]
                  ++ [xaa; x55; x01; x01; x22; xdb; x88])
    = ([], [xaa; x55; x01; x01; x22; xdb; x88]) /\
  extract_frames [xaa; x55; x01; x01; x22; xdb; x88]
    = ([[x01; x01; x22]], []).
Proof. split; vm_compute; reflexivity. Qed.

(** C4. The frame AA 55 01 01 22 DB 88 followed by an incomplete fragment
    that starts with the preamble: exactly the frame 01 01 22 is delivered
    and the fragment is the leftover, unchanged. *)
Theorem C4_one_and_a_half_frames (frag : bytes) :
  incomplete_fragment frag ->
  extract_frames ([xaa; x55; x01; x01; x22; xdb; x88] ++ frag)
    = ([[x01; x01; x22]], frag).
Proof.
  intros Hi. unfold extract_frames.
  change ([xaa; x55; x01; x01; x22; xdb; x88] ++ frag)
    with (UART_PREAMBLE ++ (x01 :: [x01; x22]) ++ [xdb; x88] ++ frag).
  rewrite extract_frames_rec_candidate by reflexivity.
  replace (calculate_crc [x01; x01; x22] =? int_from_bytes [xdb; x88])
    with true by (vm_compute; reflexivity).
  destruct (0 <? len frag); [|reflexivity].
  cbn [length app UART_PREAMBLE].
  now rewrite (extract_frames_incomplete _ frag Hi).
Qed.

Lemma C4_one_and_a_half_frames_witness :
  extract_frames ([xaa; x55; x01; x01; x22; xdb; x88]
                  ++ [xaa; x55; x01; x01])
    = ([[x01; x01; x22]], [xaa; x55; x01; x01]).
Proof.
  apply (C4_one_and_a_half_frames [xaa; x55; x01; x01]).
  split; [reflexivity | left; vm_compute; reflexivity].
Defined.

(** C9. Framing round trip: a frame LENGTH, OPCODE, PAYLOAD whose LENGTH
    byte counts the payload is wrapped by the send path into preamble,
    frame, little-endian CRC, and the reassembler turns that chunk back into
    exactly this one frame with nothing left over. *)
Theorem C9_framing_round_trip (l op : byte) (payload : bytes) :
  byte_to_Z l = len payload ->
  let f := l :: op :: payload in
  frame_to_send f false
    = Ok (UART_PREAMBLE ++ f ++ le_bytes 2 (calculate_crc f)) /\
  extract_frames (UART_PREAMBLE ++ f ++ le_bytes 2 (calculate_crc f))
    = ([f], []).
Proof.
  intros Hl f. split.
  - unfold frame_to_send. now rewrite calculate_crc_bytes_ok.
  - unfold extract_frames.
    rewrite <- (app_nil_r (le_bytes 2 (calculate_crc f))).
    subst f. rewrite extract_frames_rec_candidate.
    + rewrite int_from_le_bytes, Z.eqb_refl; [reflexivity|].
      pose proof (calculate_crc_range (l :: op :: payload)). simpl. lia.
    + unfold len in *. cbn [length]. lia.
    + apply length_le_bytes.
Qed.

Lemma C9_framing_round_trip_witness :
  frame_to_send [x01; x01; x22] false
    = Ok (UART_PREAMBLE ++ [x01; x01; x22]
          ++ le_bytes 2 (calculate_crc [x01; x01; x22])) /\
  extract_frames (UART_PREAMBLE ++ [x01; x01; x22]
                  ++ le_bytes 2 (calculate_crc [x01; x01; x22]))
    = ([[x01; x01; x22]], []).
Proof. apply (C9_framing_round_trip x01 x01 [x22]). reflexivity. Defined.

(* ================================================================== *)
(** ** Streams: reading *)

Lemma bind_ok {A B : Type} (m : M A) (k : A -> M B) (s s' : bytes) (a : A) :
  m s = Ok (a, s') -> bind m k s = k a s'.
Proof. intros H. unfold bind. now rewrite H. Qed.

Lemma bind_err {A B : Type} (m : M A) (k : A -> M B) (s : bytes) (e : exn) :
  m s = Err e -> bind m k s = Err e.
Proof. intros H. unfold bind. now rewrite H. Qed.

Lemma read_nonneg (n : Z) (s : bytes) :
  0 <= n -> read n s = Ok (firstn (Z.to_nat n) s, skipn (Z.to_nat n) s).
Proof.
  intros H. unfold read.
  replace (n <? 0) with false by (symmetry; apply Z.ltb_ge; lia).
  reflexivity.
Qed.

Lemma read_int_nonneg (n : Z) (s : bytes) :
  0 <= n ->
  read_int n s
  = Ok (int_from_bytes (firstn (Z.to_nat n) s), skipn (Z.to_nat n) s).
Proof.
  intros H. unfold read_int. now rewrite (bind_ok _ _ _ _ _ (read_nonneg n s H)).
Qed.

Lemma read_int_1 (b : byte) (s : bytes) :
  read_int 1 (b :: s) = Ok (byte_to_Z b, s).
Proof.
  rewrite read_int_nonneg by lia. change (Z.to_nat 1) with 1%nat.
  cbn [firstn skipn int_from_bytes]. do 2 f_equal. lia.
Qed.

Lemma deserialize_common_part_cons (self : Message) (l o : byte) (s : bytes) :
  deserialize_common_part self (l :: o :: s) =
  if negb (byte_to_Z o =? opcode self) then Err InvalidOpcode
  else Ok (byte_to_Z l, s).
Proof.
  unfold deserialize_common_part, UART_LENGTH_LEN, UART_CMD_LEN.
  rewrite (bind_ok _ _ _ _ _ (read_int_1 l (o :: s))).
  rewrite (bind_ok _ _ _ _ _ (read_int_1 o s)).
  fold (opcode self). now destruct (negb _).
Qed.

Lemma deserialize_no_payload_cons (self : Message) (l o : byte) (s : bytes) :
  deserialize_no_payload self (l :: o :: s) =
  if negb (byte_to_Z o =? opcode self) then Err InvalidOpcode
  else if negb (byte_to_Z l =? 0) then Err InvalidLen
  else Ok (self, s).
Proof.
  unfold deserialize_no_payload, bind.
  rewrite deserialize_common_part_cons.
  destruct (negb (byte_to_Z o =? opcode self)); [reflexivity|].
  now destruct (negb (byte_to_Z l =? 0)).
Qed.

Lemma zero_payload_deserialize (self : Message) :
  zero_payload self = true -> deserialize self = deserialize_no_payload self.
Proof. destruct self; try discriminate; reflexivity. Qed.

Lemma zero_payload_registered (self : Message) :
  zero_payload self = true -> UART_CLASSES_get (opcode self) = Some self.
Proof. destruct self; try discriminate; reflexivity. Qed.

(* ================================================================== *)
(** ** Claims on the error behaviour of the decoders *)

(** C10. A buffer of fewer than 2 bytes has no opcode byte at index 1:
    [deserialize_message] raises [InvalidLen], not [InvalidOpcode]. *)
Theorem C10_short_buffer_is_invalid_len (data : bytes) :
  len data < 2 -> deserialize_message data = Err InvalidLen.
Proof.
  intros H. destruct data as [|a [|b rest]]; try reflexivity.
  unfold len in H. cbn [length] in H. lia.
Qed.

Lemma C10_short_buffer_is_invalid_len_witness :
  deserialize_message [] = Err InvalidLen /\
  deserialize_message [x01] = Err InvalidLen.
Proof.
  split; [apply (C10_short_buffer_is_invalid_len []) |
          apply (C10_short_buffer_is_invalid_len [x01])]; reflexivity.
Defined.

(** C5. For a class without payload and an input whose opcode byte is the
    class's opcode: decoding succeeds exactly when the LENGTH byte is 0 (the
    bytes after the opcode are left unread) and raises [InvalidLen] for
    every other LENGTH; [deserialize_message] dispatches to this decoder and
    behaves the same. *)
Theorem C5_zero_payload_length (self : Message) (l o : byte) (rest : bytes) :
  zero_payload self = true -> byte_to_Z o = opcode self ->
  (byte_to_Z l = 0 ->
     deserialize self (l :: o :: rest) = Ok (self, rest) /\
     deserialize_message (l :: o :: rest) = Ok self) /\
  (byte_to_Z l <> 0 ->
     deserialize self (l :: o :: rest) = Err InvalidLen /\
     deserialize_message (l :: o :: rest) = Err InvalidLen).
Proof.
  intros Hz Ho.
  assert (Hm : deserialize_message (l :: o :: rest) =
               match deserialize self (l :: o :: rest) with
               | Ok (m, _) => Ok m
               | Err e => Err e
               end).
  { unfold deserialize_message. cbn [nth_error].
    now rewrite Ho, (zero_payload_registered self Hz). }
  rewrite Hm, (zero_payload_deserialize self Hz), deserialize_no_payload_cons.
  rewrite Ho, Z.eqb_refl. cbn [negb].
  split; intros Hl.
  - rewrite Hl. auto.
  - apply Z.eqb_neq in Hl. rewrite Hl. auto.
Qed.

Lemma C5_zero_payload_length_witness :
  (deserialize StartNodeRequestMessage [x02; x09; xaa; xbb] = Err InvalidLen /\
   deserialize_message [x02; x09; xaa; xbb] = Err InvalidLen) /\
  (deserialize StartNodeRequestMessage [x00; x09]
     = Ok (StartNodeRequestMessage, []) /\
   deserialize_message [x00; x09] = Ok StartNodeRequestMessage).
Proof.
  split.
  - apply (C5_zero_payload_length StartNodeRequestMessage x02 x09 [xaa; xbb]
             eq_refl eq_refl).
    vm_compute. discriminate.
  - apply (C5_zero_payload_length StartNodeRequestMessage x00 x09 []
             eq_refl eq_refl).
    reflexivity.
Defined.

(** *** Where [InvalidOpcode] can come from *)

Lemma nr_ret {A : Type} (e : exn) (a : A) : never_raises e (ret a).
Proof. intros s. discriminate. Qed.

Lemma nr_raise {A : Type} (e e' : exn) :
  e' <> e -> never_raises e (@raise A e').
Proof. intros H s. unfold raise. congruence. Qed.

Lemma nr_bind {A B : Type} (e : exn) (m : M A) (k : A -> M B) :
  never_raises e m -> (forall a, never_raises e (k a)) ->
  never_raises e (bind m k).
Proof.
  intros Hm Hk s. unfold bind. specialize (Hm s).
  destruct (m s) as [[a s']|e']; [apply Hk | congruence].
Qed.

Lemma nr_read (e : exn) (n : Z) : never_raises e (read n).
Proof. intros s. unfold read. destruct (n <? 0); discriminate. Qed.

Lemma nr_read_int (e : exn) (n : Z) : never_raises e (read_int n).
Proof.
  unfold read_int. apply nr_bind; [apply nr_read | intros a; apply nr_ret].
Qed.

Lemma nr_lift {A : Type} (e : exn) (r : res A) :
  r <> Err e -> never_raises e (lift r).
Proof. intros H s. unfold lift. destruct r; congruence. Qed.

Lemma enum_of_value_error {A : Type} (value : A -> Z) (members : list A)
    (v : Z) (e : exn) :
  enum_of_value value members v = Err e -> e = ValueError.
Proof.
  unfold enum_of_value. destruct (find _ members); congruence.
Qed.

Lemma nr_enum {A : Type} (value : A -> Z) (members : list A) (v : Z) :
  never_raises InvalidOpcode (lift (enum_of_value value members v)).
Proof.
  apply nr_lift. intros H. apply enum_of_value_error in H. discriminate.
Qed.

Ltac nr_step :=
  first
    [ apply nr_ret
    | apply nr_raise; discriminate
    | apply nr_read_int
    | apply nr_read
    | apply nr_enum
    | apply nr_bind; [|intros ?]
    | match goal with
      | |- never_raises _ (if ?c then _ else _) => destruct c
      | |- never_raises _ (let '(_, _) := ?p in _) => destruct p
      end ].

Lemma nr_ModelDesc_deserialize (self : ModelDesc.t) :
  never_raises InvalidOpcode (ModelDesc.deserialize self).
Proof.
  unfold ModelDesc.deserialize, ModelID.from_bytes, ModelID.of_value.
  repeat nr_step.
Qed.

Lemma nr_model_ids_loop (fuel : nat) :
  forall length model_ids,
    never_raises InvalidOpcode (model_ids_loop fuel length model_ids).
Proof.
  induction fuel as [|fuel IH]; intros length model_ids; cbn [model_ids_loop];
    unfold ModelID.from_bytes, ModelID.of_value;
    repeat first [ apply IH | nr_step ].
Qed.

Lemma nr_model_descs_loop (fuel : nat) :
  forall length model_descs,
    never_raises InvalidOpcode (model_descs_loop fuel length model_descs).
Proof.
  induction fuel as [|fuel IH]; intros length model_descs;
    cbn [model_descs_loop];
    repeat first [ apply nr_ModelDesc_deserialize | apply IH | nr_step ].
Qed.

Ltac unfold_decoders :=
  cbn [deserialize];
  unfold deserialize_model_ids, deserialize_no_payload,
    deserialize_dfu_status,
    ModemState.from_bytes, ModemState.of_value,
    Error.from_bytes, Error.of_value,
    DFUStatus.from_bytes, DFUStatus.of_value,
    AttentionEvent.from_bytes, AttentionEvent.of_value,
    DfuStatus.from_bytes, DfuStatus.of_value.

(** Every implemented decoder starts with [deserialize_common_part]: a
    wrong opcode byte is reported before anything else is read. *)
Lemma deserialize_opcode_mismatch (self : Message) (l o : byte)
    (rest : bytes) :
  self <> GenericMessage -> byte_to_Z o <> opcode self ->
  deserialize self (l :: o :: rest) = Err InvalidOpcode.
Proof.
  intros Hg Hne.
  assert (Hc : deserialize_common_part self (l :: o :: rest)
               = Err InvalidOpcode).
  { rewrite deserialize_common_part_cons.
    apply Z.eqb_neq in Hne. now rewrite Hne. }
  destruct self; try contradiction; unfold_decoders;
    apply bind_err; exact Hc.
Qed.

(** Past [deserialize_common_part] nothing raises [InvalidOpcode]. *)
Lemma deserialize_opcode_match (self : Message) (l o : byte) (rest : bytes) :
  byte_to_Z o = opcode self ->
  deserialize self (l :: o :: rest) <> Err InvalidOpcode.
Proof.
  intros Ho.
  assert (Hc : deserialize_common_part self (l :: o :: rest)
               = Ok (byte_to_Z l, rest)).
  { rewrite deserialize_common_part_cons. now rewrite Ho, Z.eqb_refl. }
  destruct self; unfold_decoders; try discriminate;
    rewrite (bind_ok _ _ _ _ _ Hc); cbv beta zeta;
    match goal with
    | |- ?m ?s <> Err InvalidOpcode =>
        refine ((_ : never_raises InvalidOpcode m) s)
    end;
    repeat first
      [ apply nr_model_ids_loop | apply nr_model_descs_loop | nr_step ].
Qed.

(** C6 (as the code has it). For every implemented decoder, that is every
    class but the base class [GenericMessage], and every input of at least 2
    bytes: [InvalidOpcode] is raised when the opcode byte differs from the
    decoder's opcode and is not raised when it matches; and
    [deserialize_message] raises [InvalidOpcode] when the second byte is not
    a registered opcode. *)
Theorem C6_opcode_mismatch (self : Message) (l o : byte) (rest : bytes) :
  self <> GenericMessage ->
  opcode_check_as_specified self (l :: o :: rest) /\
  (UART_CLASSES_get (byte_to_Z o) = None ->
   deserialize_message (l :: o :: rest) = Err InvalidOpcode).
Proof.
  intros Hg. split; [split|].
  - now apply deserialize_opcode_mismatch.
  - apply deserialize_opcode_match.
  - intros Hn. unfold deserialize_message. cbn [nth_error]. now rewrite Hn.
Qed.

Lemma C6_opcode_mismatch_witness :
  deserialize (PingRequestMessage []) [x01; xab; xaa] = Err InvalidOpcode /\
  deserialize (PingRequestMessage []) [x01; x01; xaa] <> Err InvalidOpcode /\
  deserialize_message [x01; xab; xaa] = Err InvalidOpcode.
Proof.
  assert (Hg : PingRequestMessage [] <> GenericMessage) by discriminate.
  split; [|split].
  - apply (proj1 (C6_opcode_mismatch (PingRequestMessage []) x01 xab [xaa] Hg)).
    vm_compute. discriminate.
  - apply (proj1 (C6_opcode_mismatch (PingRequestMessage []) x01 x01 [xaa] Hg)).
    reflexivity.
  - apply (proj2 (C6_opcode_mismatch (PingRequestMessage []) x01 xab [xaa] Hg)).
    reflexivity.
Defined.

(** C6 (as stated) fails for the registered class [GenericMessage]: its
    decoder is the base-class stub, which raises [AssertionError] whatever
    the opcode byte is. *)
Lemma C6_counterexample :
  UART_CLASSES_get 0xFF = Some GenericMessage /\
  deserialize GenericMessage [x00; x01] = Err AssertionError /\
  ~ opcode_check_as_specified GenericMessage [x00; x01].
Proof.
  split; [reflexivity|]. split; [reflexivity|].
  intros [H _].
  assert (Hne : byte_to_Z x01 <> opcode GenericMessage)
    by (vm_compute; discriminate).
  specialize (H Hne). discriminate H.
Qed.

(* ================================================================== *)
(** ** The DFU messages with an embedded length *)

Ltac unfold_consts :=
  unfold DfuInitRequest_fixed_len in *;
  unfold UART_CMD_LEN, UART_LENGTH_LEN, UART_INSTANCE_INDEX_LEN,
    UART_SUB_INDEX_LEN, UART_MESH_OPCODE_LEN, UART_MODEM_STATE_LEN,
    UART_ERROR_ID_LEN, UART_PROPERTY_ID_LEN, UART_ATTENTION_EVENT_LEN,
    UART_UUID_LEN, UART_DFU_FIRMWARE_SIZE_LEN, UART_DFU_FIRMWARE_CRC_LEN,
    UART_DFU_APP_DATA_LENGTH_LEN, UART_DFU_STATUS_LEN,
    UART_DFU_SUPPORTED_PAGE_SIZE_LEN, UART_DFU_FIRMWARE_OFFSET_LEN,
    UART_REQUESTED_PAGE_SIZE_LEN, UART_DFU_DATA_LENGTH_LEN,
    UART_DFU_FIRMWARE_SHA256_LEN, UART_DFU_PRE_VALIDATION_STATUS_LEN,
    UART_COMPANY_ID_LEN, UART_TEST_ID_LEN, UART_MODEL_ID_LEN,
    UART_SENSOR_SETUP_SERVER_CONFIG_LEN in *.

Lemma read_slice (a n : Z) (payload : bytes) :
  0 <= a -> 0 <= n ->
  read n (skipn (Z.to_nat a) payload)
  = Ok (slice a (a + n) payload, slice_from (a + n) payload).
Proof.
  intros Ha Hn. rewrite read_nonneg by lia. unfold slice, slice_from.
  rewrite skipn_skipn.
  replace (a + n - a) with n by lia.
  replace (Z.to_nat n + Z.to_nat a)%nat with (Z.to_nat (a + n)) by lia.
  reflexivity.
Qed.

Lemma len_slice_available (a n : Z) (payload : bytes) :
  0 <= a -> 0 <= n -> n <= len (slice_from a payload) ->
  len (slice a (a + n) payload) = n.
Proof.
  unfold len, slice, slice_from. intros Ha Hn H.
  rewrite length_firstn. replace (a + n - a) with n by lia. lia.
Qed.

Lemma DfuInitRequest_deserialize_eq (self : Message) (l : byte)
    (payload : bytes) :
  msg_type self = UartCommand.DfuInitRequest ->
  deserialize self (l :: x80 :: payload) =
  let sub := DfuInitRequest_embedded_length payload in
  if negb (byte_to_Z l - DfuInitRequest_fixed_len =? sub) then Err InvalidLen
  else if negb (sub =? len (slice 37 (37 + sub) payload)) then Err InvalidLen
  else Ok (DfuInitRequestMessage (int_from_bytes (slice 0 4 payload))
             (slice 4 36 payload) sub (slice 37 (37 + sub) payload),
           slice_from (37 + sub) payload).
Proof.
  intros Ht. destruct self; try discriminate Ht. clear Ht.
  assert (Hc : deserialize_common_part
                 (DfuInitRequestMessage firmware_size firmware_sha256
                    app_data_length app_data) (l :: x80 :: payload)
               = Ok (byte_to_Z l, payload))
    by (rewrite deserialize_common_part_cons; reflexivity).
  unfold_decoders. rewrite (bind_ok _ _ _ _ _ Hc). unfold_consts.
  rewrite (bind_ok _ _ _ _ _ (read_int_nonneg 4 payload ltac:(lia))).
  rewrite (bind_ok _ _ _ _ _ (read_nonneg 32 _ ltac:(lia))).
  rewrite (bind_ok _ _ _ _ _ (read_int_nonneg 1 _ ltac:(lia))).
  rewrite !skipn_skipn. cbv zeta.
  change (firstn (Z.to_nat 1) (skipn (Z.to_nat 32 + Z.to_nat 4) payload))
    with (slice 36 37 payload).
  change (int_from_bytes (slice 36 37 payload))
    with (DfuInitRequest_embedded_length payload).
  change (firstn (Z.to_nat 4) payload) with (slice 0 4 payload).
  change (firstn (Z.to_nat 32) (skipn (Z.to_nat 4) payload))
    with (slice 4 36 payload).
  change (Z.to_nat 1 + (Z.to_nat 32 + Z.to_nat 4))%nat with (Z.to_nat 37).
  set (sub := DfuInitRequest_embedded_length payload).
  assert (Hsub : 0 <= sub)
    by apply (int_from_bytes_range (slice 36 37 payload)).
  change (4 + 32 + 1) with 37.
  destruct (byte_to_Z l - 37 =? sub) eqn:E; [|reflexivity].
  apply Z.eqb_eq in E. rewrite E. cbn [negb].
  rewrite (bind_ok _ _ _ _ _ (read_slice 37 sub payload ltac:(lia) Hsub)).
  now destruct (negb _).
Qed.

Lemma DfuWriteDataEvent_deserialize_eq (self : Message) (l : byte)
    (payload : bytes) :
  msg_type self = UartCommand.DfuWriteDataEvent ->
  deserialize self (l :: x86 :: payload) =
  let sub := DfuWriteDataEvent_embedded_length payload in
  if negb (byte_to_Z l - UART_DFU_DATA_LENGTH_LEN =? sub) then Err InvalidLen
  else if negb (sub =? len (slice 1 (1 + sub) payload)) then Err InvalidLen
  else Ok (DfuWriteDataEventMessage sub (slice 1 (1 + sub) payload),
           slice_from (1 + sub) payload).
Proof.
  intros Ht. destruct self; try discriminate Ht. clear Ht.
  assert (Hc : deserialize_common_part (DfuWriteDataEventMessage data_len data)
                 (l :: x86 :: payload)
               = Ok (byte_to_Z l, payload))
    by (rewrite deserialize_common_part_cons; reflexivity).
  unfold_decoders. rewrite (bind_ok _ _ _ _ _ Hc). unfold_consts.
  rewrite (bind_ok _ _ _ _ _ (read_int_nonneg 1 payload ltac:(lia))).
  cbv zeta.
  change (int_from_bytes (firstn (Z.to_nat 1) payload))
    with (DfuWriteDataEvent_embedded_length payload).
  set (sub := DfuWriteDataEvent_embedded_length payload).
  assert (Hsub : 0 <= sub)
    by apply (int_from_bytes_range (slice 0 1 payload)).
  destruct (byte_to_Z l - 1 =? sub) eqn:E; [|reflexivity].
  apply Z.eqb_eq in E. rewrite E. cbn [negb].
  rewrite (bind_ok _ _ _ _ _ (read_slice 1 sub payload ltac:(lia) Hsub)).
  now destruct (negb _).
Qed.

(** C7. For the two DFU messages that carry an embedded length
    ([DfuInitRequestMessage]: [app_data_length]; [DfuWriteDataEventMessage]:
    [data_len]) and an input with the message's opcode: decoding raises
    [InvalidLen] whenever LENGTH minus the fixed fields (37 and 1 bytes)
    differs from the embedded length; when they are equal and that many
    bytes follow, decoding succeeds and the data field holds exactly those
    bytes. *)
Theorem C7_dfu_embedded_length (init write : Message) (l : byte)
    (payload : bytes) :
  msg_type init = UartCommand.DfuInitRequest ->
  msg_type write = UartCommand.DfuWriteDataEvent ->
  let app_data_length := DfuInitRequest_embedded_length payload in
  let data_len := DfuWriteDataEvent_embedded_length payload in
  (byte_to_Z l - DfuInitRequest_fixed_len <> app_data_length ->
   deserialize init (l :: x80 :: payload) = Err InvalidLen) /\
  (byte_to_Z l - DfuInitRequest_fixed_len = app_data_length ->
   app_data_length <= len (slice_from 37 payload) ->
   deserialize init (l :: x80 :: payload)
   = Ok (DfuInitRequestMessage (int_from_bytes (slice 0 4 payload))
           (slice 4 36 payload) app_data_length
           (slice 37 (37 + app_data_length) payload),
         slice_from (37 + app_data_length) payload)) /\
  (byte_to_Z l - UART_DFU_DATA_LENGTH_LEN <> data_len ->
   deserialize write (l :: x86 :: payload) = Err InvalidLen) /\
  (byte_to_Z l - UART_DFU_DATA_LENGTH_LEN = data_len ->
   data_len <= len (slice_from 1 payload) ->
   deserialize write (l :: x86 :: payload)
   = Ok (DfuWriteDataEventMessage data_len (slice 1 (1 + data_len) payload),
         slice_from (1 + data_len) payload)).
Proof.
  intros Hi Hw app_data_length data_len.
  rewrite (DfuInitRequest_deserialize_eq init l payload Hi).
  rewrite (DfuWriteDataEvent_deserialize_eq write l payload Hw).
  cbv zeta. fold app_data_length data_len.
  assert (Ha : 0 <= app_data_length)
    by apply (int_from_bytes_range (slice 36 37 payload)).
  assert (Hd : 0 <= data_len)
    by apply (int_from_bytes_range (slice 0 1 payload)).
  repeat split.
  - intros H. apply Z.eqb_neq in H. now rewrite H.
  - intros H Hav. rewrite H, Z.eqb_refl.
    rewrite len_slice_available, Z.eqb_refl by lia. reflexivity.
  - intros H. apply Z.eqb_neq in H. now rewrite H.
  - intros H Hav. rewrite H, Z.eqb_refl.
    rewrite len_slice_available, Z.eqb_refl by lia. reflexivity.
Qed.

Lemma C7_dfu_embedded_length_witness :
  deserialize (DfuInitRequestMessage 0 [] 0 []) [x03; x80; x02; xaa; xbb]
    = Err InvalidLen /\
  deserialize (DfuInitRequestMessage 0 [] 0 [])
    (x26 :: x80 :: repeat x00 36 ++ [x01; xaa])
    = Ok (DfuInitRequestMessage 0 (repeat x00 32) 1 [xaa], []) /\
  deserialize (DfuWriteDataEventMessage 0 []) [x03; x86; x02; xaa; xbb]
    = Ok (DfuWriteDataEventMessage 2 [xaa; xbb], []) /\
  deserialize (DfuWriteDataEventMessage 0 []) [x04; x86; x02; xaa; xbb]
    = Err InvalidLen.
Proof.
  pose proof (C7_dfu_embedded_length (DfuInitRequestMessage 0 [] 0 [])
                (DfuWriteDataEventMessage 0 []) x03 [x02; xaa; xbb]
                eq_refl eq_refl) as (H1 & _ & _ & H4).
  pose proof (C7_dfu_embedded_length (DfuInitRequestMessage 0 [] 0 [])
                (DfuWriteDataEventMessage 0 []) x04 [x02; xaa; xbb]
                eq_refl eq_refl) as (_ & _ & H3 & _).
  pose proof (C7_dfu_embedded_length (DfuInitRequestMessage 0 [] 0 [])
                (DfuWriteDataEventMessage 0 []) x26
                (repeat x00 36 ++ [x01; xaa])
                eq_refl eq_refl) as (_ & H2 & _ & _).
  split; [|split; [|split]].
  - apply H1. vm_compute. discriminate.
  - apply H2; [reflexivity | vm_compute; discriminate].
  - apply H4; [reflexivity | vm_compute; discriminate].
  - apply H3. vm_compute. discriminate.
Defined.

(* ================================================================== *)
(** ** The model descriptor *)

Lemma enum_of_value_ok {A : Type} (value : A -> Z) (members : list A)
    (v : Z) (m : A) :
  enum_of_value value members v = Ok m -> value m = v.
Proof.
  unfold enum_of_value. destruct (find _ members) as [x|] eqn:E; [|discriminate].
  intros H. injection H as <-. apply find_some in E. now apply Z.eqb_eq.
Qed.

Lemma enum_of_value_not_member {A : Type} (value : A -> Z)
    (members : list A) (v : Z) :
  ~ In v (map value members) ->
  enum_of_value value members v = Err ValueError.
Proof.
  intros H. unfold enum_of_value.
  destruct (find _ members) as [m|] eqn:E; [|reflexivity].
  apply find_some in E as [Hin Hv]. apply Z.eqb_eq in Hv.
  exfalso. apply H. rewrite <- Hv. now apply in_map.
Qed.

Lemma ModelID_of_value_value (m : ModelID.t) :
  ModelID.of_value (ModelID.value m) = Ok m.
Proof. destruct m; reflexivity. Qed.

Lemma ModelDesc_deserialize_eq (self : ModelDesc.t) (s : bytes) :
  ModelDesc.deserialize self s =
  match ModelID.of_value (int_from_bytes (slice 0 2 s)) with
  | Err e => Err e
  | Ok m =>
      if ModelID.eqb m ModelID.SensorSetupServerID
      then Ok ({| ModelDesc.model_id := Some m;
                  ModelDesc.config := slice 2 12 s |}, slice_from 12 s)
      else Ok ({| ModelDesc.model_id := Some m;
                  ModelDesc.config := ModelDesc.config self |},
               slice_from 2 s)
  end.
Proof.
  unfold ModelDesc.deserialize. unfold_consts.
  rewrite (bind_ok _ _ _ _ _ (read_nonneg 2 s ltac:(lia))).
  unfold ModelID.from_bytes.
  change (firstn (Z.to_nat 2) s) with (slice 0 2 s).
  destruct (ModelID.of_value (int_from_bytes (slice 0 2 s))) as [m|e] eqn:E.
  - erewrite bind_ok by reflexivity.
    destruct (ModelID.eqb m ModelID.SensorSetupServerID); [|reflexivity].
    now rewrite (bind_ok _ _ _ _ _ (read_slice 2 10 s ltac:(lia) ltac:(lia))).
  - now apply bind_err.
Qed.

(** C8 (as the code has it). For a stream [s] that holds the whole
    descriptor, at least 2 bytes and at least 12 when the first two, read
    little-endian, are the sensor-setup value, decoded into a fresh
    [ModelDesc()], with [id] its first two bytes read little-endian:
    - when [id] is the value of a member of [ModelID], the layout is the
      specified one: exactly 10 configuration bytes and 12 bytes consumed
      for the sensor-setup value, empty configuration and exactly 2 bytes
      consumed for every other member;
    - when [id] is no member of [ModelID], decoding raises [ValueError]. *)
Theorem C8_model_desc_layout (s : bytes) :
  let id := int_from_bytes (slice 0 2 s) in
  2 <= len s ->
  (id = ModelID.value ModelID.SensorSetupServerID -> 12 <= len s) ->
  (forall m, ModelID.value m = id ->
     ModelDesc_layout_as_specified s /\
     ModelDesc.deserialize (ModelDesc.new None) s
     = Ok ({| ModelDesc.model_id := Some m;
              ModelDesc.config :=
                if ModelID.eqb m ModelID.SensorSetupServerID
                then slice 2 12 s else [] |},
           slice_from
             (if ModelID.eqb m ModelID.SensorSetupServerID then 12 else 2)
             s)) /\
  (~ In id (map ModelID.value ModelID.members) ->
     ModelDesc.deserialize (ModelDesc.new None) s = Err ValueError).
Proof.
  intros id Hs H12. split.
  - intros m Hv.
    assert (Hd := ModelDesc_deserialize_eq (ModelDesc.new None) s).
    fold id in Hd. rewrite <- Hv, ModelID_of_value_value in Hd.
    unfold ModelDesc_layout_as_specified. fold id. rewrite <- Hv.
    fold (ModelID.eqb m ModelID.SensorSetupServerID).
    destruct (ModelID.eqb m ModelID.SensorSetupServerID) eqn:E.
    + assert (Hm : m = ModelID.SensorSetupServerID)
        by (destruct m; try discriminate E; reflexivity).
      assert (12 <= len s) by (apply H12; now rewrite <- Hv, Hm).
      split; [|exact Hd].
      eexists; eexists; (split; [exact Hd|]).
      cbn [ModelDesc.config]. unfold_consts.
      unfold len, slice, slice_from in *.
      rewrite length_firstn, !length_skipn. lia.
    + split; [|exact Hd].
      eexists; eexists; (split; [exact Hd|]).
      cbn [ModelDesc.config ModelDesc.new].
      unfold len, slice_from in *. rewrite length_skipn.
      split; [reflexivity|lia].
  - intros Hn. rewrite ModelDesc_deserialize_eq. fold id.
    unfold ModelID.of_value. now rewrite enum_of_value_not_member by exact Hn.
Qed.

Lemma C8_model_desc_layout_witness :
  ModelDesc_layout_as_specified
    [x01; x11; x00; x00; x11; x22; x22; x33; x33; x44; x44; x55; x11; x13] /\
  ModelDesc.deserialize (ModelDesc.new None) [xaa; xaa; x00]
    = Err ValueError.
Proof.
  split.
  - refine (proj1 (proj1 (C8_model_desc_layout
      [x01; x11; x00; x00; x11; x22; x22; x33; x33; x44; x44; x55; x11; x13]
      _ _) ModelID.SensorSetupServerID eq_refl)).
    + vm_compute. discriminate.
    + intros _. vm_compute. discriminate.
  - refine (proj2 (C8_model_desc_layout [xaa; xaa; x00] _ _) _).
    + vm_compute. discriminate.
    + intros H. vm_compute in H. discriminate H.
    + vm_compute. intuition discriminate.
Defined.

(** C8 (as stated) fails on an identifier that is no member of [ModelID]:
    on 0xAAAA decoding raises [ValueError] instead of leaving an empty
    configuration behind two consumed bytes. *)
Lemma C8_counterexample :
  ModelDesc.deserialize (ModelDesc.new None) [xaa; xaa; x00]
    = Err ValueError /\
  ~ ModelDesc_layout_as_specified [xaa; xaa; x00].
Proof.
  split; [reflexivity|].
  intros (d & s' & H & _). vm_compute in H. discriminate H.
Qed.

(* ================================================================== *)
(** ** Serialization writes the wire layout *)

Lemma write_as (b s s' : bytes) : s' = s ++ b -> write b s = Ok (tt, s').
Proof. intros ->. reflexivity. Qed.

Lemma ret_as {A : Type} (a : A) (s s' : bytes) : s' = s -> ret a s = Ok (a, s').
Proof. intros ->. reflexivity. Qed.

Lemma write_int_as (v : Z) (n : nat) (s s' : bytes) :
  0 <= v < 256 ^ Z.of_nat n -> s' = s ++ le_bytes n v ->
  write_int v n s = Ok (tt, s').
Proof.
  intros Hv ->. unfold write_int.
  rewrite (bind_ok (lift (int_to_bytes v n)) _ s s (le_bytes n v)).
  - reflexivity.
  - unfold lift. now rewrite int_to_bytes_ok.
Qed.

Lemma write_int_1 (v : Z) (s s' : bytes) :
  u8 v -> s' = s ++ le_bytes 1 v -> write_int v (Z.to_nat 1) s = Ok (tt, s').
Proof. intros Hv. apply write_int_as. exact Hv. Qed.

Lemma write_int_2 (v : Z) (s s' : bytes) :
  u16 v -> s' = s ++ le_bytes 2 v -> write_int v (Z.to_nat 2) s = Ok (tt, s').
Proof. intros Hv. apply write_int_as. exact Hv. Qed.

Lemma write_int_4 (v : Z) (s s' : bytes) :
  u32 v -> s' = s ++ le_bytes 4 v -> write_int v (Z.to_nat 4) s = Ok (tt, s').
Proof. intros Hv. apply write_int_as. exact Hv. Qed.

Lemma ModelID_value_u16 (m : ModelID.t) : u16 (ModelID.value m).
Proof. destruct m; unfold u16; cbn; lia. Qed.

Lemma ModemState_value_u8 (m : ModemState.t) : u8 (ModemState.value m).
Proof. destruct m; unfold u8; cbn; lia. Qed.

Lemma Error_value_u8 (m : Error.t) : u8 (Error.value m).
Proof. destruct m; unfold u8; cbn; lia. Qed.

Lemma DFUStatus_value_u8 (m : DFUStatus.t) : u8 (DFUStatus.value m).
Proof. destruct m; unfold u8; cbn; lia. Qed.

Lemma AttentionEvent_value_u8 (m : AttentionEvent.t) :
  u8 (AttentionEvent.value m).
Proof. destruct m; unfold u8; cbn; lia. Qed.

Lemma DfuStatus_value_u8 (m : DfuStatus.t) : u8 (DfuStatus.value m).
Proof. destruct m; unfold u8; cbn; lia. Qed.

Lemma opcode_u8 (m : Message) : u8 (opcode m).
Proof. unfold opcode. destruct (msg_type m); unfold u8; cbn; lia. Qed.

Lemma fold_left_get_length (descs : list ModelDesc.t) (a : Z) :
  fold_left (fun length d => length + ModelDesc.get_length d) descs a
  = a + fold_left (fun length d => length + ModelDesc.get_length d) descs 0.
Proof.
  revert a. induction descs as [|d tl IH]; intros a; cbn [fold_left]; [lia|].
  rewrite (IH (a + _)), (IH (0 + _)). lia.
Qed.

Lemma ModelDesc_get_length_min (d : ModelDesc.t) : 2 <= ModelDesc.get_length d.
Proof.
  unfold ModelDesc.get_length, UART_MODEL_ID_LEN.
  pose proof (len_nonneg (ModelDesc.config d)). lia.
Qed.

Lemma fold_left_get_length_nonneg (descs : list ModelDesc.t) :
  2 * len descs
  <= fold_left (fun length d => length + ModelDesc.get_length d) descs 0.
Proof.
  induction descs as [|d tl IH]; cbn [fold_left]; [unfold len; simpl; lia|].
  rewrite fold_left_get_length. pose proof (ModelDesc_get_length_min d).
  unfold len in *. cbn [length]. lia.
Qed.

Lemma get_length_nonneg (m : Message) : 0 <= get_length m.
Proof.
  destruct m; cbn [get_length]; unfold_consts;
    try match goal with
        | |- context [fold_left _ ?l 0] =>
            pose proof (fold_left_get_length_nonneg l);
            pose proof (len_nonneg l)
        end;
    repeat match goal with
           | |- context [len ?x] =>
               lazymatch goal with
               | _ : 0 <= len x |- _ => fail
               | _ => pose proof (len_nonneg x)
               end
           end; lia.
Qed.

Lemma serialize_common_part_as (m : Message) (s s' : bytes) :
  get_length m <= 255 ->
  s' = s ++ le_bytes 1 (get_length m) ++ le_bytes 1 (opcode m) ->
  serialize_common_part m s = Ok (tt, s').
Proof.
  intros Hl ->. unfold serialize_common_part. unfold_consts.
  pose proof (get_length_nonneg m). pose proof (opcode_u8 m).
  erewrite bind_ok by (apply write_int_1; [unfold u8; lia | reflexivity]).
  apply write_int_1; [assumption|]. now rewrite <- app_assoc.
Qed.

Lemma for_each_write_model_id (model_ids : list ModelID.t) :
  forall s, for_each model_ids write_model_id s
            = Ok (tt, s ++ flat_map model_id_bytes model_ids).
Proof.
  induction model_ids as [|id tl IH]; intros s; cbn [for_each flat_map].
  - now rewrite app_nil_r.
  - unfold write_model_id at 1. unfold_consts.
    erewrite bind_ok
      by (apply write_int_2; [apply ModelID_value_u16 | reflexivity]).
    rewrite IH. unfold model_id_bytes at 2. now rewrite <- app_assoc.
Qed.

Lemma ModelDesc_serialize_consistent (d : ModelDesc.t) (s : bytes) :
  ModelDesc_consistent d ->
  ModelDesc.serialize d s = Ok (tt, s ++ model_desc_bytes d).
Proof.
  unfold ModelDesc_consistent, ModelDesc.serialize, model_desc_bytes.
  destruct (ModelDesc.model_id d) as [id|]; [|contradiction].
  intros Hc. unfold_consts.
  erewrite bind_ok
    by (apply write_int_2; [apply ModelID_value_u16 | reflexivity]).
  unfold model_id_bytes.
  destruct (ModelID.eqb id ModelID.SensorSetupServerID).
  - apply write_as. now rewrite <- app_assoc.
  - rewrite Hc. apply ret_as. now rewrite app_nil_r.
Qed.

Lemma for_each_ModelDesc_serialize (model_descs : list ModelDesc.t) :
  Forall ModelDesc_consistent model_descs ->
  forall s, for_each model_descs ModelDesc.serialize s
            = Ok (tt, s ++ flat_map model_desc_bytes model_descs).
Proof.
  induction 1 as [|d tl Hd _ IH]; intros s; cbn [for_each flat_map].
  - now rewrite app_nil_r.
  - rewrite (bind_ok _ _ _ _ _ (ModelDesc_serialize_consistent d s Hd)).
    rewrite IH. now rewrite <- app_assoc.
Qed.

Ltac split_hyps :=
  repeat match goal with
         | H : _ /\ _ |- _ => destruct H
         end.

Ltac lens :=
  unfold u8, u16, u32, len in *;
  rewrite ?length_app, ?length_le_bytes; cbn [length]; lia.

Ltac in_range :=
  first
    [ assumption
    | apply ModelID_value_u16 | apply ModemState_value_u8
    | apply Error_value_u8 | apply DFUStatus_value_u8
    | apply AttentionEvent_value_u8 | apply DfuStatus_value_u8
    | lens ].

Ltac app_eq := rewrite <- ?app_assoc, ?app_nil_r; reflexivity.

Ltac ser_atom tac :=
  first
    [ apply write_int_1; [in_range | tac]
    | apply write_int_2; [in_range | tac]
    | apply write_int_4; [in_range | tac]
    | apply write_as; tac
    | rewrite for_each_write_model_id; do 2 f_equal; tac
    | rewrite for_each_ModelDesc_serialize by assumption; do 2 f_equal; tac ].

Lemma serialize_layout (m : Message) (s : bytes) :
  in_size_domains m -> m <> GenericMessage ->
  serialize m s
  = Ok (tt, s ++ le_bytes 1 (get_length m) ++ le_bytes 1 (opcode m)
               ++ wire_payload m).
Proof.
  intros [Hl Hd] Hg.
  destruct m; try (now contradiction Hg); cbn [serialize wire_payload];
    try (apply serialize_common_part_as; [exact Hl | app_eq]);
    erewrite bind_ok
      by (apply serialize_common_part_as; [exact Hl | reflexivity]);
    cbn [in_size_domains get_length] in Hl, Hd; split_hyps; unfold_consts;
    repeat (erewrite bind_ok by ser_atom reflexivity);
    ser_atom app_eq.
Qed.

(* ================================================================== *)
(** ** Decoding reads the wire layout back *)

Lemma read_app (n : Z) (b s : bytes) :
  len b = n -> read n (b ++ s) = Ok (b, s).
Proof.
  intros H. rewrite read_nonneg by (rewrite <- H; apply len_nonneg).
  unfold len in H.
  rewrite firstn_app_exact, skipn_app_exact by lia. reflexivity.
Qed.

Lemma read_int_le (n : nat) (k v : Z) (s : bytes) :
  k = Z.of_nat n -> 0 <= v < 256 ^ k ->
  read_int k (le_bytes n v ++ s) = Ok (v, s).
Proof.
  intros -> Hv. unfold read_int.
  rewrite (bind_ok _ _ _ _ _ (read_app (Z.of_nat n) (le_bytes n v) s
                                 ltac:(unfold len; now rewrite length_le_bytes))).
  unfold ret. now rewrite int_from_le_bytes.
Qed.

Lemma read_int_le_1 (v : Z) (s : bytes) :
  u8 v -> read_int 1 (le_bytes 1 v ++ s) = Ok (v, s).
Proof. intros H. now apply read_int_le. Qed.

Lemma read_int_le_2 (v : Z) (s : bytes) :
  u16 v -> read_int 2 (le_bytes 2 v ++ s) = Ok (v, s).
Proof. intros H. now apply read_int_le. Qed.

Lemma read_int_le_4 (v : Z) (s : bytes) :
  u32 v -> read_int 4 (le_bytes 4 v ++ s) = Ok (v, s).
Proof. intros H. now apply read_int_le. Qed.

Lemma lift_as {A : Type} (r : res A) (a : A) (s : bytes) :
  r = Ok a -> lift r s = Ok (a, s).
Proof. intros ->. reflexivity. Qed.

Lemma ModelID_from_bytes_value (m : ModelID.t) :
  ModelID.from_bytes (le_bytes 2 (ModelID.value m)) = Ok m.
Proof. destruct m; reflexivity. Qed.

Lemma ModemState_from_bytes_value (m : ModemState.t) :
  ModemState.from_bytes (le_bytes 1 (ModemState.value m)) = Ok m.
Proof. destruct m; reflexivity. Qed.

Lemma Error_from_bytes_value (m : Error.t) :
  Error.from_bytes (le_bytes 1 (Error.value m)) = Ok m.
Proof. destruct m; reflexivity. Qed.

Lemma DFUStatus_from_bytes_value (m : DFUStatus.t) :
  DFUStatus.from_bytes (le_bytes 1 (DFUStatus.value m)) = Ok m.
Proof. destruct m; reflexivity. Qed.

Lemma AttentionEvent_from_bytes_value (m : AttentionEvent.t) :
  AttentionEvent.from_bytes (le_bytes 1 (AttentionEvent.value m)) = Ok m.
Proof. destruct m; reflexivity. Qed.

Lemma DfuStatus_from_bytes_value (m : DfuStatus.t) :
  DfuStatus.from_bytes (le_bytes 1 (DfuStatus.value m)) = Ok m.
Proof. destruct m; reflexivity. Qed.

Lemma deserialize_common_part_layout (self : Message) (length : Z)
    (s : bytes) :
  u8 length ->
  deserialize_common_part self
    (le_bytes 1 length ++ le_bytes 1 (opcode self) ++ s)
  = Ok (length, s).
Proof.
  intros Hl. cbn [le_bytes app]. rewrite deserialize_common_part_cons.
  pose proof (opcode_u8 self) as Ho. unfold u8 in *.
  rewrite !byte_to_of_Z, !Z.mod_small by lia.
  now rewrite Z.eqb_refl.
Qed.

Lemma model_ids_loop_eq (fuel : nat) (length : Z)
    (model_ids : list ModelID.t) :
  model_ids_loop fuel length model_ids =
  if UART_MODEL_ID_LEN <=? length then
    match fuel with
    | O => ret (length, model_ids)
    | S fuel' =>
        b <- read UART_MODEL_ID_LEN ;;
        model_id <- lift (ModelID.from_bytes b) ;;
        model_ids_loop fuel' (length - UART_MODEL_ID_LEN)
          (model_ids ++ [model_id])
    end
  else ret (length, model_ids).
Proof. destruct fuel; reflexivity. Qed.

Lemma model_ids_loop_layout (ids : list ModelID.t) :
  forall fuel acc rest,
    (length ids <= fuel)%nat ->
    model_ids_loop fuel (2 * len ids) acc
      (flat_map model_id_bytes ids ++ rest)
    = Ok ((0, acc ++ ids), rest).
Proof.
  induction ids as [|id tl IH]; intros fuel acc rest Hf;
    rewrite model_ids_loop_eq; unfold_consts.
  - change (2 <=? 2 * len (@nil ModelID.t)) with false.
    now rewrite app_nil_r.
  - replace (2 <=? 2 * len (id :: tl)) with true
      by (symmetry; apply Z.leb_le; lens).
    destruct fuel as [|fuel]; [cbn [length] in Hf; lia|].
    cbn [flat_map]. unfold model_id_bytes at 1. rewrite <- app_assoc.
    erewrite bind_ok by (apply read_app; lens).
    erewrite bind_ok by (apply lift_as, ModelID_from_bytes_value).
    replace (2 * len (id :: tl) - 2) with (2 * len tl) by lens.
    rewrite IH by (cbn [length] in Hf; lia).
    now rewrite <- app_assoc.
Qed.

Lemma ModelDesc_deserialize_consistent (d : ModelDesc.t) (s : bytes) :
  ModelDesc_consistent d ->
  ModelDesc.deserialize (ModelDesc.new None) (model_desc_bytes d ++ s)
  = Ok (d, s).
Proof.
  destruct d as [[id|] c]; unfold ModelDesc_consistent, model_desc_bytes;
    cbn [ModelDesc.model_id ModelDesc.config]; [|contradiction].
  intros Hc. unfold ModelDesc.deserialize, model_id_bytes. unfold_consts.
  rewrite <- app_assoc.
  erewrite bind_ok by (apply read_app; lens).
  erewrite bind_ok by (apply lift_as, ModelID_from_bytes_value).
  destruct (ModelID.eqb id ModelID.SensorSetupServerID).
  - erewrite bind_ok by (apply read_app; exact Hc). reflexivity.
  - subst c. reflexivity.
Qed.

Lemma model_descs_loop_eq (fuel : nat) (length : Z)
    (model_descs : list ModelDesc.t) :
  model_descs_loop fuel length model_descs =
  if UART_MODEL_ID_LEN <=? length then
    match fuel with
    | O => ret (length, model_descs)
    | S fuel' =>
        model_desc <- ModelDesc.deserialize (ModelDesc.new None) ;;
        model_descs_loop fuel' (length - ModelDesc.get_length model_desc)
          (model_descs ++ [model_desc])
    end
  else ret (length, model_descs).
Proof. destruct fuel; reflexivity. Qed.

Lemma model_descs_loop_layout (descs : list ModelDesc.t) :
  Forall ModelDesc_consistent descs ->
  forall fuel acc rest,
    (length descs <= fuel)%nat ->
    model_descs_loop fuel
      (fold_left (fun length d => length + ModelDesc.get_length d) descs 0)
      acc (flat_map model_desc_bytes descs ++ rest)
    = Ok ((0, acc ++ descs), rest).
Proof.
  induction 1 as [|d tl Hd _ IH]; intros fuel acc rest Hf;
    rewrite model_descs_loop_eq; unfold_consts.
  - cbn [fold_left flat_map app]. change (2 <=? 0) with false.
    now rewrite app_nil_r.
  - cbn [fold_left]. rewrite fold_left_get_length.
    pose proof (ModelDesc_get_length_min d) as Hmin.
    pose proof (fold_left_get_length_nonneg tl) as Hnn.
    pose proof (len_nonneg tl) as Htl.
    match goal with
    | |- context [2 <=? ?x] =>
        replace (2 <=? x) with true by (symmetry; apply Z.leb_le; lia)
    end.
    destruct fuel as [|fuel]; [cbn [length] in Hf; lia|].
    cbn [flat_map]. rewrite <- app_assoc.
    rewrite (bind_ok _ _ _ _ _ (ModelDesc_deserialize_consistent d _ Hd)).
    match goal with
    | |- model_descs_loop _ ?x _ _ = _ =>
        replace x
          with (fold_left (fun length d => length + ModelDesc.get_length d)
                  tl 0) by lia
    end.
    rewrite IH by (cbn [length] in Hf; lia).
    now rewrite <- app_assoc.
Qed.

(** *** The decoding loops never run out of fuel

    Any two amounts of fuel that cover [Z.to_nat length] give the same
    result, so the [O] branch of the loops is never the one that answers
    when they are started with [Z.to_nat length]. *)

Lemma model_ids_loop_fuel (fuel1 : nat) :
  forall fuel2 length model_ids s,
    (Z.to_nat length <= fuel1)%nat -> (Z.to_nat length <= fuel2)%nat ->
    model_ids_loop fuel1 length model_ids s
    = model_ids_loop fuel2 length model_ids s.
Proof.
  induction fuel1 as [|f1 IH]; intros fuel2 length model_ids s H1 H2;
    rewrite !model_ids_loop_eq; unfold_consts;
    destruct (2 <=? length) eqn:E; try reflexivity;
    apply Z.leb_le in E.
  - lia.
  - destruct fuel2 as [|f2]; [lia|].
    unfold bind. destruct (read 2 s) as [[b s']|e]; [|reflexivity].
    destruct (lift (ModelID.from_bytes b) s') as [[id s'']|e]; [|reflexivity].
    apply IH; lia.
Qed.

Lemma model_descs_loop_fuel (fuel1 : nat) :
  forall fuel2 length model_descs s,
    (Z.to_nat length <= fuel1)%nat -> (Z.to_nat length <= fuel2)%nat ->
    model_descs_loop fuel1 length model_descs s
    = model_descs_loop fuel2 length model_descs s.
Proof.
  induction fuel1 as [|f1 IH]; intros fuel2 length model_descs s H1 H2;
    rewrite !model_descs_loop_eq; unfold_consts;
    destruct (2 <=? length) eqn:E; try reflexivity;
    apply Z.leb_le in E.
  - lia.
  - destruct fuel2 as [|f2]; [lia|].
    unfold bind.
    destruct (ModelDesc.deserialize (ModelDesc.new None) s) as [[d s']|e];
      [|reflexivity].
    pose proof (ModelDesc_get_length_min d).
    apply IH; lia.
Qed.

Ltac dec_atom :=
  first
    [ apply read_int_le_1; in_range
    | apply read_int_le_2; in_range
    | apply read_int_le_4; in_range
    | apply read_app; lens
    | apply lift_as;
      first [ apply ModemState_from_bytes_value
            | apply Error_from_bytes_value
            | apply DFUStatus_from_bytes_value
            | apply AttentionEvent_from_bytes_value
            | apply DfuStatus_from_bytes_value ]
    | apply model_ids_loop_layout; lens
    | apply model_descs_loop_layout;
      [ assumption
      | match goal with
        | |- context [fold_left _ ?l 0] =>
            pose proof (fold_left_get_length_nonneg l); lens
        end ] ].

Ltac pass_check :=
  match goal with
  | |- (if negb (?a =? ?b) then _ else _) _ = _ =>
      replace (a =? b) with true by (symmetry; apply Z.eqb_eq; lens);
      cbn [negb]
  | |- (if ?a =? 0 then _ else _) _ = _ =>
      replace (a =? 0) with false by (symmetry; apply Z.eqb_neq; lens)
  end.

Ltac dec_step :=
  first [ erewrite bind_ok by dec_atom | pass_check ]; cbv beta zeta iota.

Lemma deserialize_layout (m : Message) (rest : bytes) :
  in_size_domains m -> has_codec m ->
  exists msg_class,
    UART_CLASSES_get (opcode m) = Some msg_class /\
    deserialize msg_class
      (le_bytes 1 (get_length m) ++ le_bytes 1 (opcode m)
       ++ wire_payload m ++ rest)
    = Ok (m, rest).
Proof.
  intros [Hl Hd] Hc. pose proof (get_length_nonneg m) as H0.
  assert (Hu : u8 (get_length m)) by (unfold u8; lia).
  destruct m; try contradiction;
    (eexists; split; [reflexivity|]);
    cbn [snd]; unfold_decoders;
    match goal with
    | |- bind (deserialize_common_part ?self) _ (_ ++ le_bytes 1 ?o ++ _) = _ =>
        change o with (opcode self)
    end;
    rewrite (bind_ok _ _ _ _ _ (deserialize_common_part_layout _ _ _ Hu));
    cbn [in_size_domains get_length wire_payload has_codec] in *;
    split_hyps; unfold_consts; rewrite <- ?app_assoc;
    try match goal with
        | firmware_version : bytes, H : _ <> [] |- _ =>
            destruct firmware_version; [contradiction|]
        end;
    repeat dec_step; reflexivity.
Qed.

(* ================================================================== *)
(** ** Claim on the message round trip *)

(** C3 (as the code has it). For every message class with an implemented
    codec (every class but the base class [GenericMessage]) and every
    instance whose fields lie within their size domains and are internally
    consistent, a [FirmwareVersionResponseMessage] carrying at least one
    byte of version, [deserialize_message(serialize_message(m))] returns
    [m]. *)
Theorem C3_message_round_trip (m : Message) :
  in_size_domains m -> has_codec m -> round_trips m.
Proof.
  intros Hd Hc.
  assert (Hg : m <> GenericMessage) by (intros ->; exact Hc).
  exists (le_bytes 1 (get_length m) ++ le_bytes 1 (opcode m)
          ++ wire_payload m).
  split.
  - unfold serialize_message. now rewrite (serialize_layout m [] Hd Hg).
  - destruct (deserialize_layout m [] Hd Hc) as (msg_class & Hr & Hm).
    rewrite app_nil_r in Hm.
    unfold deserialize_message.
    change (nth_error _ 1) with (Some (byte_of_Z (opcode m))).
    cbv beta iota zeta. rewrite byte_to_of_Z, Z.mod_small by apply opcode_u8.
    now rewrite Hr, Hm.
Qed.

Lemma C3_message_round_trip_witness :
  round_trips
    (CreateInstancesRequestMessage
       [ ModelDesc.mk (Some ModelID.SensorSetupServerID)
           [x00; x00; x11; x22; x22; x33; x33; x44; x44; x55];
         ModelDesc.new (Some ModelID.LightLCClientID) ]) /\
  round_trips (DfuWriteDataEventMessage 2 [xaa; xbb]).
Proof.
  split.
  - apply C3_message_round_trip; [|exact I].
    split; [vm_compute; discriminate|].
    repeat constructor.
  - apply C3_message_round_trip; [|exact I].
    split; [vm_compute; discriminate | reflexivity].
Defined.

(** C3 (as stated) fails on two instances that satisfy its hypothesis: a
    default [FirmwareVersionResponseMessage], whose empty version is encoded
    as 00 14 and refused by the decoder's [if length == 0: raise InvalidLen];
    and a [GenericMessage], which is registered under 0xFF and whose
    [serialize] is the stub that asserts. *)
Lemma C3_counterexample :
  in_size_domains (FirmwareVersionResponseMessage []) /\
  serialize_message (FirmwareVersionResponseMessage []) = Ok [x00; x14] /\
  deserialize_message [x00; x14] = Err InvalidLen /\
  ~ round_trips (FirmwareVersionResponseMessage []) /\
  in_size_domains GenericMessage /\
  serialize_message GenericMessage = Err AssertionError /\
  ~ round_trips GenericMessage.
Proof.
  repeat split; try reflexivity; try (vm_compute; discriminate).
  - intros (data & Hs & Hdz). vm_compute in Hs. injection Hs as <-.
    vm_compute in Hdz. discriminate Hdz.
  - intros (data & Hs & _). vm_compute in Hs. discriminate Hs.
Qed.

(* ================================================================== *)
(** ** The vectors of the repository's unit tests *)

Example test_two_frames_from_buffer_are_processed :
  extract_frames ([xaa; x55; x01; x01; x22; xdb; x88]
                  ++ [xaa; x55; x01; x01; x22; xdb; x88])
  = ([[x01; x01; x22]; [x01; x01; x22]], []).
Proof. vm_compute. reflexivity. Qed.

Example test_one_and_half_frame_is_parsed :
  extract_frames ([xaa; x55; x01; x01; x22; xdb; x88]
                  ++ [xaa; x55; x01; x01; x22])
  = ([[x01; x01; x22]], [xaa; x55; x01; x01; x22]).
Proof. vm_compute. reflexivity. Qed.

Example test_empty_buffer_is_processed : extract_frames [] = ([], []).
Proof. reflexivity. Qed.

Example test_ping_request_deserialize_valid :
  deserialize_message [x01; x01; xaa] = Ok (PingRequestMessage [xaa]).
Proof. reflexivity. Qed.

Example test_ping_request_serialize_valid :
  serialize_message (PingRequestMessage [xbb]) = Ok [x01; x01; xbb].
Proof. reflexivity. Qed.

Example test_ping_request_deserialize_invalid_too_short :
  deserialize (PingRequestMessage []) [x03; x01; xaa; xbb] = Err InvalidLen.
Proof. reflexivity. Qed.

Example test_init_device_event_deserialize_valid :
  deserialize_message [x06; x03; x01; x10; x03; x10; x08; x10]
  = Ok (InitDeviceEventMessage
          [ModelID.GenOnOffClientID; ModelID.GenLevelClientID;
           ModelID.GenPowerOnOffClientID]).
Proof. reflexivity. Qed.

Example test_init_device_event_deserialize_invalid_len :
  deserialize (InitDeviceEventMessage [])
    [x07; x03; x01; x10; x03; x10; x08; x10] = Err InvalidLen /\
  deserialize (InitDeviceEventMessage [])
    [x05; x03; x01; x10; x03; x10; x08; x10] = Err InvalidLen.
Proof. split; reflexivity. Qed.

Example test_create_instances_request_deserialize_valid_with_config :
  deserialize_message
    [x0e; x04; x01; x11; x00; x00; x11; x22; x22; x33; x33; x44; x44; x55;
     x11; x13]
  = Ok (CreateInstancesRequestMessage
          [ ModelDesc.mk (Some ModelID.SensorSetupServerID)
              [x00; x00; x11; x22; x22; x33; x33; x44; x44; x55];
            ModelDesc.new (Some ModelID.LightLCClientID) ]).
Proof. reflexivity. Qed.

Example test_create_instances_request_serialize_valid_with_config :
  serialize_message
    (CreateInstancesRequestMessage
       [ ModelDesc.mk (Some ModelID.SensorSetupServerID)
           [x00; x00; x11; x22; x22; x33; x33; x44; x44; x55];
         ModelDesc.new (Some ModelID.LightLCClientID) ])
  = Ok [x0e; x04; x01; x11; x00; x00; x11; x22; x22; x33; x33; x44; x44;
        x55; x11; x13].
Proof. reflexivity. Qed.

Example test_mesh_message_request_deserialize_valid :
  deserialize_message [x06; x07; xaa; xbb; xcc; xdd; x12; x34]
  = Ok (MeshMessageRequestMessage 0xAA 0xBB 0xDDCC [x12; x34]).
Proof. reflexivity. Qed.

Example test_mesh_message_request_deserialize_invalid_len :
  deserialize_message [x08; x07; xaa; xbb; xcc; xdd; x12; x34]
  = Err InvalidLen.
Proof. reflexivity. Qed.

(* ================================================================== *)
(** ** Further properties of the reassembler *)

Lemma eat_loop_preamble_free (b : bytes) :
  forall o, preamble_free b = true -> eat_loop b o = ([], o ++ b).
Proof.
  induction b as [|x tl IH]; intros o H.
  - now rewrite app_nil_r.
  - cbn [preamble_free] in H. apply andb_prop in H as [H1 H2].
    cbn [eat_loop]. rewrite H1, (IH _ H2), <- app_assoc. reflexivity.
Qed.

Lemma window_at_garbage_end (x : byte) :
  bytes_eqb [x; xaa] UART_PREAMBLE = false.
Proof.
  destruct (bytes_eqb [x; xaa] UART_PREAMBLE) eqn:E; [|reflexivity].
  apply bytes_eqb_eq in E. discriminate E.
Qed.

Lemma eat_loop_garbage (g : bytes) :
  forall o rest,
    preamble_free g = true ->
    eat_loop (g ++ UART_PREAMBLE ++ rest) o = (UART_PREAMBLE ++ rest, o ++ g).
Proof.
  induction g as [|x tl IH]; intros o rest H.
  - now rewrite app_nil_r.
  - cbn [preamble_free] in H. apply andb_prop in H as [H1 H2].
    change ((x :: tl) ++ UART_PREAMBLE ++ rest)
      with (x :: (tl ++ UART_PREAMBLE ++ rest)).
    cbn [eat_loop].
    assert (Hw : negb (bytes_eqb
                         (slice_to 2 (x :: (tl ++ UART_PREAMBLE ++ rest)))
                         UART_PREAMBLE) = true).
    { destruct tl as [|y tl'].
      - change (slice_to 2 _) with [x; xaa].
        now rewrite window_at_garbage_end.
      - exact H1. }
    rewrite Hw, (IH _ _ H2), <- app_assoc. reflexivity.
Qed.

(** X1. A buffer in which the preamble occurs nowhere is handed back whole:
    the bytes popped into [orphaned_bytes] are returned, none is dropped. *)
Theorem eat_bytes_until_preamble_no_preamble (b : bytes) :
  preamble_free b = true -> eat_bytes_until_preamble b = b.
Proof.
  intros H. unfold eat_bytes_until_preamble.
  rewrite (eat_loop_preamble_free b [] H). cbn [app].
  destruct b; reflexivity.
Qed.

Lemma eat_bytes_until_preamble_no_preamble_witness :
  eat_bytes_until_preamble [x01; xaa] = [x01; xaa].
Proof. apply eat_bytes_until_preamble_no_preamble. reflexivity. Defined.

(** *** The interpreter's view and the functions on a [bytearray] *)

Lemma Interp_eat_loop_bytearray (b : bytes) :
  forall o, Interp.eat_loop Bytearray b o = Ok (eat_loop b o).
Proof.
  induction b as [|x tl IH]; intros o; [reflexivity|].
  cbn [Interp.eat_loop eat_loop].
  destruct (negb (bytes_eqb (slice_to 2 (x :: tl)) UART_PREAMBLE));
    [apply IH | reflexivity].
Qed.

Lemma Interp_eat_bytearray (b : bytes) :
  Interp.eat_bytes_until_preamble Bytearray b
  = Ok (eat_bytes_until_preamble b).
Proof.
  unfold Interp.eat_bytes_until_preamble, eat_bytes_until_preamble.
  rewrite Interp_eat_loop_bytearray.
  destruct (eat_loop b []) as [b' o'].
  destruct (0 <? len o'); [destruct (len b' =? 0)|]; reflexivity.
Qed.

(** On [bytes] the function returns the buffer itself when no byte has to
    be removed and raises [AttributeError] at the first byte that has. *)
Lemma Interp_eat_bytes (b : bytes) :
  Interp.eat_bytes_until_preamble Bytes b
  = match b with
    | [] => Ok b
    | _ :: _ =>
        if bytes_eqb (slice_to 2 b) UART_PREAMBLE then Ok b
        else Err AttributeError
    end.
Proof.
  destruct b as [|x tl]; [reflexivity|].
  unfold Interp.eat_bytes_until_preamble. cbn [Interp.eat_loop].
  destruct (bytes_eqb (slice_to 2 (x :: tl)) UART_PREAMBLE); reflexivity.
Qed.

(** What the function returns, for either type, is what it returns on a
    [bytearray]. *)
Lemma Interp_eat_sound (t : buffer_type) (b r : bytes) :
  Interp.eat_bytes_until_preamble t b = Ok r ->
  r = eat_bytes_until_preamble b.
Proof.
  destruct t.
  - rewrite Interp_eat_bytes. destruct b as [|x tl].
    + now intros [= <-].
    + destruct (bytes_eqb (slice_to 2 (x :: tl)) UART_PREAMBLE) eqn:E;
        [|discriminate].
      intros [= <-]. unfold eat_bytes_until_preamble. cbn [eat_loop].
      now rewrite E.
  - rewrite Interp_eat_bytearray. now intros [= <-].
Qed.

(** One activation, the recursive call apart: [extract_frames_rec 0] is the
    body of the function with the recursion cut. *)
Lemma Interp_extract_frames_eq (depth : nat) (t : buffer_type)
    (raw : bytes) :
  Interp.extract_frames (S depth) t raw =
  match Interp.eat_bytes_until_preamble t raw with
  | Err e => Err e
  | Ok _ =>
      let '(frames, remaining_data) := extract_frames_rec 0 raw in
      match frames with
      | [] => Ok ([], remaining_data)
      | f :: _ =>
          if 0 <? len remaining_data then
            match Interp.extract_frames depth t remaining_data with
            | Err e => Err e
            | Ok (another_frames, remaining_data) =>
                Ok (f :: another_frames, remaining_data)
            end
          else Ok ([f], remaining_data)
      end
  end.
Proof.
  cbn [Interp.extract_frames].
  destruct (Interp.eat_bytes_until_preamble t raw) as [r|e] eqn:E;
    [|reflexivity].
  apply Interp_eat_sound in E. subst r.
  rewrite extract_frames_rec_eq. cbv zeta.
  set (r := eat_bytes_until_preamble raw).
  destruct (len r <? 6); [reflexivity|].
  destruct (len r <? 6 + int_from_bytes (slice 2 3 r)); [reflexivity|].
  destruct (_ =? _); [|reflexivity].
  destruct (0 <? len (slice_from _ r)) eqn:Er; rewrite ?Er; reflexivity.
Qed.

Lemma extract_frames_eq (raw : bytes) :
  extract_frames raw =
  let '(frames, remaining_data) := extract_frames_rec 0 raw in
  match frames with
  | [] => ([], remaining_data)
  | f :: _ =>
      if 0 <? len remaining_data then
        let '(another_frames, remaining_data) :=
          extract_frames remaining_data in
        (f :: another_frames, remaining_data)
      else ([f], remaining_data)
  end.
Proof.
  unfold extract_frames.
  rewrite (extract_frames_rec_eq (length raw)), (extract_frames_rec_eq 0).
  cbv zeta.
  pose proof (eat_bytes_until_preamble_length raw) as He.
  set (r := eat_bytes_until_preamble raw) in *.
  destruct (len r <? 6) eqn:E6; [reflexivity|].
  destruct (len r <? 6 + int_from_bytes (slice 2 3 r)) eqn:El; [reflexivity|].
  destruct (_ =? _); [|reflexivity].
  destruct (0 <? len (slice_from _ r)) eqn:Er; rewrite ?Er; [|reflexivity].
  apply Z.ltb_ge in E6, El. unfold len in E6.
  assert (Hs : (length (slice_from (6 + int_from_bytes (slice 2 3 r)) r)
                <= length r - 6)%nat).
  { unfold slice_from. rewrite length_skipn.
    pose proof (int_from_bytes_range (slice 2 3 r)). lia. }
  destruct (length raw) as [|fuel] eqn:Eraw; [lia|].
  rewrite (extract_frames_rec_fuel fuel
             (length (slice_from (6 + int_from_bytes (slice 2 3 r)) r)))
    by lia.
  reflexivity.
Qed.

(** Whatever the interpreter returns, for either type of buffer and any
    recursion limit, is the result of the function on a [bytearray]. *)
Lemma Interp_extract_frames_sound (depth : nat) (t : buffer_type) :
  forall raw r,
    Interp.extract_frames depth t raw = Ok r -> r = extract_frames raw.
Proof.
  induction depth as [|d IH]; intros raw r H; [discriminate H|].
  rewrite Interp_extract_frames_eq in H. rewrite extract_frames_eq.
  destruct (Interp.eat_bytes_until_preamble t raw) as [r0|e0];
    [|discriminate H].
  destruct (extract_frames_rec 0 raw) as [[|f fs] rem].
  - now injection H as <-.
  - destruct (0 <? len rem); [|now injection H as <-].
    destruct (Interp.extract_frames d t rem) as [[more rem']|e] eqn:E;
      [|discriminate H].
    apply IH in E. rewrite <- E. now injection H as <-.
Qed.

(** On a [bytearray], a recursion limit above the number of frames in the
    buffer is enough. *)
Lemma Interp_extract_frames_enough (depth : nat) :
  forall raw,
    (length (fst (extract_frames raw)) < depth)%nat ->
    Interp.extract_frames depth Bytearray raw = Ok (extract_frames raw).
Proof.
  induction depth as [|d IH]; intros raw H; [lia|].
  rewrite Interp_extract_frames_eq, Interp_eat_bytearray.
  rewrite extract_frames_eq in H |- *.
  destruct (extract_frames_rec 0 raw) as [[|f fs] rem]; [reflexivity|].
  destruct (0 <? len rem); [|reflexivity].
  destruct (extract_frames rem) as [more rem'] eqn:E.
  cbn [fst length] in H.
  rewrite IH by (rewrite E; cbn [fst]; lia).
  now rewrite E.
Qed.

(** A buffer that holds more frames in a row than the recursion limit
    leaves room for raises [RecursionError]. *)
Lemma Interp_extract_frames_deep (depth : nat) :
  forall raw,
    (depth < length (fst (extract_frames raw)))%nat ->
    Interp.extract_frames depth Bytearray raw = Err RecursionError.
Proof.
  induction depth as [|d IH]; intros raw H; [reflexivity|].
  rewrite Interp_extract_frames_eq, Interp_eat_bytearray.
  rewrite extract_frames_eq in H.
  destruct (extract_frames_rec 0 raw) as [[|f fs] rem];
    [cbn [fst length] in H; lia|].
  destruct (0 <? len rem); [|cbn [fst length] in H; lia].
  destruct (extract_frames rem) as [more rem'] eqn:E.
  cbn [fst length] in H.
  now rewrite IH by (rewrite E; cbn [fst]; lia).
Qed.

Lemma Interp_eat_at_preamble (t : buffer_type) (rest : bytes) :
  Interp.eat_bytes_until_preamble t (UART_PREAMBLE ++ rest)
  = Ok (UART_PREAMBLE ++ rest).
Proof. destruct t; reflexivity. Qed.

Lemma window_in_garbage (x : byte) (tl rest : bytes) :
  preamble_free (x :: tl) = true ->
  bytes_eqb (slice_to 2 (x :: tl ++ UART_PREAMBLE ++ rest)) UART_PREAMBLE
  = false.
Proof.
  intros H. cbn [preamble_free] in H. apply andb_prop in H as [H1 _].
  destruct tl as [|y tl'].
  - change (slice_to 2 _) with [x; xaa]. apply window_at_garbage_end.
  - apply negb_true_iff in H1. exact H1.
Qed.

(** X2. Bytes in front of the first preamble are dropped from a
    [bytearray] and change nothing else: whatever the recursion limit, the
    result is that of the buffer that starts at the preamble.  On a [bytes]
    buffer the first such byte raises [AttributeError], since [pop] does not
    exist there. *)
Theorem extract_frames_skips_garbage (depth : nat) (g rest : bytes) :
  preamble_free g = true ->
  Interp.eat_bytes_until_preamble Bytearray (g ++ UART_PREAMBLE ++ rest)
    = Ok (UART_PREAMBLE ++ rest) /\
  Interp.extract_frames depth Bytearray (g ++ UART_PREAMBLE ++ rest)
    = Interp.extract_frames depth Bytearray (UART_PREAMBLE ++ rest) /\
  (g <> [] ->
   Interp.extract_frames (S depth) Bytes (g ++ UART_PREAMBLE ++ rest)
     = Err AttributeError).
Proof.
  intros H.
  assert (He : eat_bytes_until_preamble (g ++ UART_PREAMBLE ++ rest)
               = UART_PREAMBLE ++ rest).
  { unfold eat_bytes_until_preamble.
    rewrite (eat_loop_garbage g [] rest H). cbn [app].
    destruct (0 <? len g); reflexivity. }
  split; [now rewrite Interp_eat_bytearray, He|]. split.
  - destruct depth as [|d]; [reflexivity|].
    rewrite !Interp_extract_frames_eq, !Interp_eat_bytearray.
    rewrite (extract_frames_rec_eq 0 (g ++ UART_PREAMBLE ++ rest)),
      (extract_frames_rec_eq 0 (UART_PREAMBLE ++ rest)).
    now rewrite He, eat_bytes_until_preamble_at_preamble.
  - intros Hg. destruct g as [|x tl]; [contradiction|].
    rewrite Interp_extract_frames_eq, Interp_eat_bytes.
    change ((x :: tl) ++ UART_PREAMBLE ++ rest)
      with (x :: tl ++ UART_PREAMBLE ++ rest).
    now rewrite (window_in_garbage x tl rest H).
Qed.

Lemma extract_frames_skips_garbage_witness :
  Interp.eat_bytes_until_preamble Bytearray
    ([x00; x55; xaa] ++ UART_PREAMBLE ++ [x01; x01; x22; xdb; x88])
    = Ok (UART_PREAMBLE ++ [x01; x01; x22; xdb; x88]) /\
  Interp.extract_frames 5 Bytearray
    ([x00; x55; xaa] ++ UART_PREAMBLE ++ [x01; x01; x22; xdb; x88])
    = Interp.extract_frames 5 Bytearray
        (UART_PREAMBLE ++ [x01; x01; x22; xdb; x88]) /\
  Interp.extract_frames 5 Bytes
    ([x00; x55; xaa] ++ UART_PREAMBLE ++ [x01; x01; x22; xdb; x88])
    = Err AttributeError.
Proof.
  destruct (extract_frames_skips_garbage 4 [x00; x55; xaa]
              [x01; x01; x22; xdb; x88] eq_refl) as (H1 & _ & H3).
  destruct (extract_frames_skips_garbage 5 [x00; x55; xaa]
              [x01; x01; x22; xdb; x88] eq_refl) as (_ & H2 & _).
  split; [exact H1|]. split; [exact H2|].
  apply H3. discriminate.
Defined.

Lemma eat_bytes_until_preamble_suffix (raw : bytes) :
  exists dropped, raw = dropped ++ eat_bytes_until_preamble raw.
Proof.
  unfold eat_bytes_until_preamble.
  destruct (eat_loop raw []) as [b' o'] eqn:E.
  apply eat_loop_spec in E. destruct E as (H1 & _ & _). cbn [app] in H1.
  destruct (0 <? len o'); [|now exists o'].
  destruct (len b' =? 0) eqn:E0; [|now exists o'].
  exists []. apply Z.eqb_eq in E0. destruct b'; [|discriminate E0].
  now rewrite app_nil_r in H1.
Qed.

(** One step of the reassembler, whatever the first two bytes of the buffer
    that [eat_bytes_until_preamble] returns are: they are never compared with
    the preamble again. *)
Lemma extract_frames_rec_step (fuel : nat) (raw : bytes) (p0 p1 l : byte)
    (body crc tail : bytes) :
  eat_bytes_until_preamble raw = p0 :: p1 :: (l :: body) ++ crc ++ tail ->
  len body = 1 + byte_to_Z l -> length crc = 2%nat ->
  extract_frames_rec fuel raw =
  if calculate_crc (l :: body) =? int_from_bytes crc then
    if 0 <? len tail then
      match fuel with
      | O => ([l :: body], tail)
      | S fuel' =>
          let '(another_frames, remaining_data) :=
            extract_frames_rec fuel' tail in
          ((l :: body) :: another_frames, remaining_data)
      end
    else ([l :: body], tail)
  else ([], tail).
Proof.
  intros He Hb Hc. rewrite extract_frames_rec_eq, He. cbv zeta.
  pose proof (byte_to_Z_range l) as Hl.
  set (pre := [p0; p1]).
  change (p0 :: p1 :: (l :: body) ++ crc ++ tail)
    with (pre ++ (l :: body) ++ crc ++ tail).
  assert (Hpre : length pre = 2%nat) by reflexivity.
  set (r := pre ++ (l :: body) ++ crc ++ tail).
  assert (Hdl : int_from_bytes (slice 2 3 r) = byte_to_Z l).
  { subst r pre. change (slice 2 3 _) with [l]. cbn [int_from_bytes]. lia. }
  rewrite Hdl.
  assert (Hlen : len r = 6 + byte_to_Z l + len tail).
  { subst r. unfold len in *. rewrite !length_app. cbn [length].
    rewrite ?length_app. lia. }
  pose proof (len_nonneg tail) as Ht.
  replace (len r <? 6) with false by (symmetry; apply Z.ltb_ge; lia).
  replace (len r <? 6 + byte_to_Z l) with false
    by (symmetry; apply Z.ltb_ge; lia).
  assert (Hassoc : r = (pre ++ (l :: body) ++ crc) ++ tail)
    by (subst r; rewrite <- !app_assoc; reflexivity).
  assert (Hfl : length (pre ++ (l :: body) ++ crc)
                = Z.to_nat (4 + byte_to_Z l + 2)).
  { unfold len in Hb. rewrite !length_app. cbn [length]. lia. }
  assert (Hfr : slice_to (4 + byte_to_Z l + 2) r = pre ++ (l :: body) ++ crc).
  { rewrite Hassoc. unfold slice_to. now apply firstn_app_exact. }
  assert (Hrem : slice_from (6 + byte_to_Z l) r = tail).
  { rewrite Hassoc. unfold slice_from. apply skipn_app_exact.
    rewrite Hfl. lia. }
  rewrite Hfr, Hrem.
  set (frame := pre ++ (l :: body) ++ crc).
  assert (Hflen : len frame = 6 + byte_to_Z l).
  { unfold len. subst frame. rewrite Hfl. lia. }
  assert (Hcov : slice 2 (4 + byte_to_Z l) frame = l :: body).
  { subst frame pre. unfold slice.
    replace (Z.to_nat 2) with 2%nat by reflexivity.
    cbn [app skipn].
    change (l :: body ++ crc) with ((l :: body) ++ crc).
    apply firstn_app_exact. unfold len in Hb. cbn [length]. lia. }
  assert (Hact : slice_from (len frame - 2) frame = crc).
  { rewrite Hflen. subst frame. unfold slice_from.
    replace (pre ++ (l :: body) ++ crc)
      with ((pre ++ (l :: body)) ++ crc)
      by (rewrite <- !app_assoc; reflexivity).
    apply skipn_app_exact. unfold len in Hb.
    rewrite !length_app. cbn [length]. lia. }
  assert (Hpay : slice 2 (len frame - 2) frame = l :: body).
  { rewrite Hflen. subst frame pre. unfold slice.
    replace (Z.to_nat 2) with 2%nat by reflexivity.
    cbn [app skipn].
    change (l :: body ++ crc) with ((l :: body) ++ crc).
    apply firstn_app_exact. unfold len in Hb. cbn [length]. lia. }
  rewrite Hcov, Hact, Hpay. reflexivity.
Qed.

(** Either the buffer is handed back for lack of bytes, or it holds a
    complete candidate. *)
Lemma extract_frames_rec_cases (fuel : nat) (raw : bytes) :
  extract_frames_rec fuel raw = ([], eat_bytes_until_preamble raw) \/
  exists p0 p1 l body crc tail,
    eat_bytes_until_preamble raw = p0 :: p1 :: (l :: body) ++ crc ++ tail /\
    len body = 1 + byte_to_Z l /\ length crc = 2%nat.
Proof.
  rewrite extract_frames_rec_eq. cbv zeta.
  set (r := eat_bytes_until_preamble raw).
  destruct (len r <? 6) eqn:E6; [now left|].
  destruct (len r <? 6 + int_from_bytes (slice 2 3 r)) eqn:El; [now left|].
  right. apply Z.ltb_ge in E6, El.
  destruct r as [|p0 [|p1 [|l rest]]];
    try (unfold len in E6; cbn [length] in E6; lia).
  change (slice 2 3 (p0 :: p1 :: l :: rest)) with [l] in El.
  cbn [int_from_bytes] in El.
  pose proof (byte_to_Z_range l) as Hl.
  set (n := Z.to_nat (1 + byte_to_Z l)).
  assert (Hrest : (n + 2 <= length rest)%nat).
  { unfold len in *. cbn [length] in *. lia. }
  exists p0, p1, l, (firstn n rest), (firstn 2 (skipn n rest)),
    (skipn 2 (skipn n rest)).
  repeat split.
  - cbn [app]. now rewrite !firstn_skipn.
  - unfold len. rewrite length_firstn. lia.
  - rewrite length_firstn, length_skipn. lia.
Qed.

Lemma extract_frames_stream_then (fs : list bytes) (frag : bytes) :
  Forall well_formed_frame fs ->
  extract_frames frag = ([], frag) ->
  extract_frames (concat (map wire fs) ++ frag) = (fs, frag).
Proof.
  intros Hfs Hfrag. induction Hfs as [|f tl Hf _ IH].
  - exact Hfrag.
  - destruct f as [|l [|op payload]]; try contradiction.
    cbn [well_formed_frame] in Hf.
    cbn [map concat]. unfold wire at 1. rewrite <- !app_assoc.
    set (tail := concat (map wire tl) ++ frag) in *.
    unfold extract_frames.
    rewrite extract_frames_rec_candidate;
      [| unfold len in *; cbn [length]; lia | apply length_le_bytes].
    rewrite int_from_le_bytes, Z.eqb_refl
      by (pose proof (calculate_crc_range (l :: op :: payload)); simpl; lia).
    destruct (0 <? len tail) eqn:Et.
    + cbn [UART_PREAMBLE app length].
      rewrite (extract_frames_rec_fuel _ (length tail) tail)
        by (rewrite ?length_app; cbn [length]; lia).
      fold (extract_frames tail). now rewrite IH.
    + apply Z.ltb_ge in Et. destruct tail as [|x tail'] eqn:Etl;
        [|unfold len in Et; cbn [length] in Et; lia].
      subst tail. apply app_eq_nil in Etl as [Hc ->].
      destruct tl as [|f' tl']; [reflexivity|discriminate Hc].
Qed.

Lemma Interp_extract_frames_candidate (depth : nat) (t : buffer_type)
    (l : byte) (body crc tail : bytes) :
  len body = 1 + byte_to_Z l -> length crc = 2%nat ->
  Interp.extract_frames (S depth) t
    (UART_PREAMBLE ++ (l :: body) ++ crc ++ tail) =
  if calculate_crc (l :: body) =? int_from_bytes crc then
    if 0 <? len tail then
      match Interp.extract_frames depth t tail with
      | Err e => Err e
      | Ok (another_frames, remaining_data) =>
          Ok ((l :: body) :: another_frames, remaining_data)
      end
    else Ok ([l :: body], tail)
  else Ok ([], tail).
Proof.
  intros Hb Hc.
  rewrite Interp_extract_frames_eq, Interp_eat_at_preamble.
  rewrite (extract_frames_rec_candidate 0 l body crc tail Hb Hc).
  destruct (_ =? _); [|reflexivity].
  destruct (0 <? len tail) eqn:Et; rewrite ?Et; reflexivity.
Qed.

Lemma Interp_extract_frames_stream (t : buffer_type) (fs : list bytes)
    (frag : bytes) :
  Forall well_formed_frame fs ->
  frag = [] \/ incomplete_fragment frag ->
  forall depth,
    (length fs < depth)%nat ->
    Interp.extract_frames depth t (concat (map wire fs) ++ frag)
    = Ok (fs, frag).
Proof.
  intros Hfs Hfrag. induction Hfs as [|f tl Hf _ IH]; intros depth Hd;
    (destruct depth as [|d]; [cbn [length] in Hd; lia|]).
  - cbn [map concat app]. rewrite Interp_extract_frames_eq.
    destruct Hfrag as [->|Hi]; [destruct t; reflexivity|].
    rewrite (extract_frames_incomplete 0 frag Hi).
    destruct Hi as [Hp _].
    destruct frag as [|a [|b rest]]; [discriminate Hp | discriminate Hp |].
    change ([a; b] = [xaa; x55]) in Hp. injection Hp as -> ->.
    pose proof (Interp_eat_at_preamble t rest) as He.
    cbn [UART_PREAMBLE app] in He. now rewrite He.
  - destruct f as [|l [|op payload]]; try contradiction.
    cbn [well_formed_frame] in Hf.
    cbn [map concat]. unfold wire at 1. rewrite <- !app_assoc.
    set (tail := concat (map wire tl) ++ frag) in *.
    rewrite Interp_extract_frames_candidate;
      [| unfold len in *; cbn [length]; lia | apply length_le_bytes].
    rewrite int_from_le_bytes, Z.eqb_refl
      by (pose proof (calculate_crc_range (l :: op :: payload)); simpl; lia).
    destruct (0 <? len tail) eqn:Et.
    + now rewrite IH by (cbn [length] in Hd; lia).
    + apply Z.ltb_ge in Et. destruct tail as [|x tail'] eqn:Etl;
        [|unfold len in Et; cbn [length] in Et; lia].
      subst tail. apply app_eq_nil in Etl as [Hc ->].
      destruct tl as [|f' tl']; [reflexivity|discriminate Hc].
Qed.

Lemma Interp_extract_frames_stream_deep (t : buffer_type) (depth : nat) :
  forall fs frag,
    Forall well_formed_frame fs ->
    (depth < length fs)%nat ->
    Interp.extract_frames depth t (concat (map wire fs) ++ frag)
    = Err RecursionError.
Proof.
  induction depth as [|d IH]; intros fs frag Hfs Hd; [reflexivity|].
  destruct Hfs as [|f tl Hf Htl]; [cbn [length] in Hd; lia|].
  destruct f as [|l [|op payload]]; try contradiction.
  cbn [well_formed_frame] in Hf.
  cbn [map concat]. unfold wire at 1. rewrite <- !app_assoc.
  set (tail := concat (map wire tl) ++ frag) in *.
  rewrite Interp_extract_frames_candidate;
    [| unfold len in *; cbn [length]; lia | apply length_le_bytes].
  rewrite int_from_le_bytes, Z.eqb_refl
    by (pose proof (calculate_crc_range (l :: op :: payload)); simpl; lia).
  assert (Et : (0 <? len tail) = true).
  { apply Z.ltb_lt. subst tail.
    destruct tl as [|f' tl']; [cbn [length] in Hd; lia|].
    unfold len. cbn [map concat]. unfold wire at 1.
    rewrite !length_app. cbn [length UART_PREAMBLE]. lia. }
  rewrite Et. subst tail.
  now rewrite IH by (auto; cbn [length] in Hd; lia).
Qed.

(** X3. A buffer, of either type, of well-formed frames, each wrapped as
    the send path wraps it, optionally followed by an incomplete fragment.
    When the recursion limit leaves room for more activations than there are
    frames, every frame is delivered, in order, and the fragment is the
    leftover.  When there are more frames than activations, the call raises
    [RecursionError] and delivers nothing. *)
Theorem extract_frames_stream (t : buffer_type) (depth : nat)
    (fs : list bytes) (frag : bytes) :
  Forall well_formed_frame fs ->
  frag = [] \/ incomplete_fragment frag ->
  ((length fs < depth)%nat ->
   Interp.extract_frames depth t (concat (map wire fs) ++ frag)
   = Ok (fs, frag)) /\
  ((depth < length fs)%nat ->
   Interp.extract_frames depth t (concat (map wire fs) ++ frag)
   = Err RecursionError).
Proof.
  intros Hfs Hfrag. split; intros Hd.
  - now apply Interp_extract_frames_stream.
  - now apply Interp_extract_frames_stream_deep.
Qed.

Lemma extract_frames_stream_witness :
  Interp.extract_frames 3 Bytes
    (concat (map wire [[x01; x01; x22]; [x00; x09]]) ++ [xaa; x55; x01])
  = Ok ([[x01; x01; x22]; [x00; x09]], [xaa; x55; x01]) /\
  Interp.extract_frames 1 Bytes
    (concat (map wire [[x01; x01; x22]; [x00; x09]]) ++ [xaa; x55; x01])
  = Err RecursionError.
Proof.
  assert (Hfs : Forall well_formed_frame [[x01; x01; x22]; [x00; x09]])
    by (repeat constructor).
  assert (Hfrag : [xaa; x55; x01] = [] \/ incomplete_fragment [xaa; x55; x01])
    by (right; split; [reflexivity | left; vm_compute; reflexivity]).
  split.
  - apply (proj1 (extract_frames_stream Bytes 3 _ _ Hfs Hfrag)).
    cbn [length]. lia.
  - apply (proj2 (extract_frames_stream Bytes 1 _ _ Hfs Hfrag)).
    cbn [length]. lia.
Defined.

Ltac norm_app := repeat first [rewrite <- app_assoc | progress (cbn [app])].

Lemma extract_frames_rec_sound (fuel : nat) :
  forall raw,
    (exists consumed, raw = consumed ++ snd (extract_frames_rec fuel raw)) /\
    (forall f, In f (fst (extract_frames_rec fuel raw)) ->
       well_formed_frame f /\
       exists before crc after,
         raw = before ++ f ++ crc ++ after /\ length crc = 2%nat /\
         int_from_bytes crc = calculate_crc f).
Proof.
  induction fuel as [|fuel IH]; intros raw;
    destruct (eat_bytes_until_preamble_suffix raw) as [o Ho];
    (match goal with
     | |- context [extract_frames_rec ?n raw] =>
         destruct (extract_frames_rec_cases n raw) as
           [H | (p0 & p1 & l & body & crc & tail & He & Hb & Hc)]
     end;
     [ rewrite H; cbn [fst snd]; split;
       [now exists o | intros f []] | ]);
    rewrite (extract_frames_rec_step _ _ _ _ _ _ _ _ He Hb Hc);
    rewrite He in Ho;
    assert (Hsplit : raw = (o ++ p0 :: p1 :: (l :: body) ++ crc) ++ tail)
      by (rewrite Ho; norm_app; reflexivity);
    assert (Hhead : calculate_crc (l :: body) = int_from_bytes crc ->
              well_formed_frame (l :: body) /\
              exists before crc0 after,
                raw = before ++ (l :: body) ++ crc0 ++ after /\
                length crc0 = 2%nat /\
                int_from_bytes crc0 = calculate_crc (l :: body))
      by (intros Hcrc; split;
          [ destruct body as [|op payload];
            [ pose proof (byte_to_Z_range l); unfold len in Hb;
              cbn [length] in Hb; lia
            | cbn [well_formed_frame]; unfold len in *;
              cbn [length] in Hb; lia ]
          | exists (o ++ [p0; p1]), crc, tail;
            split; [rewrite Ho; norm_app; reflexivity | auto] ]);
    (destruct (calculate_crc (l :: body) =? int_from_bytes crc) eqn:Ecrc;
     [ apply Z.eqb_eq in Ecrc; specialize (Hhead Ecrc)
     | cbn [fst snd]; split; [eexists; exact Hsplit | intros f []] ]).
  - (* no fuel left: the head frame only *)
    destruct (0 <? len tail); cbn [fst snd];
      (split; [eexists; exact Hsplit|]); intros f [<-|[]]; exact Hhead.
  - destruct (0 <? len tail).
    + destruct (IH tail) as [[c Hc'] Hin].
      destruct (extract_frames_rec fuel tail) as [more rem].
      cbn [fst snd] in *. split.
      * exists ((o ++ p0 :: p1 :: (l :: body) ++ crc) ++ c).
        rewrite Hsplit at 1. rewrite Hc' at 1. now rewrite <- !app_assoc.
      * intros f [<-|Hf]; [exact Hhead|].
        destruct (Hin f Hf) as [Hw (b & crc' & a & Ht & Hl & Hv)].
        split; [exact Hw|].
        exists ((o ++ p0 :: p1 :: (l :: body) ++ crc) ++ b), crc', a.
        split; [|auto].
        rewrite Hsplit at 1. rewrite Ht at 1.
        now rewrite <- !app_assoc.
    + cbn [fst snd]. split; [eexists; exact Hsplit|].
      intros f [<-|[]]. exact Hhead.
Qed.

(** X4. Every frame [extract_frames] delivers is a contiguous piece of the
    buffer, is followed there by the two bytes that are the little-endian
    [calculate_crc] of the frame, and has a LENGTH byte that counts its
    payload. *)
Theorem extract_frames_delivers_checked_frames (raw f : bytes) :
  In f (fst (extract_frames raw)) ->
  well_formed_frame f /\
  exists before crc after,
    raw = before ++ f ++ crc ++ after /\ length crc = 2%nat /\
    int_from_bytes crc = calculate_crc f.
Proof. apply (proj2 (extract_frames_rec_sound (length raw) raw)). Qed.

Lemma extract_frames_delivers_checked_frames_witness :
  well_formed_frame [x01; x01; x22] /\
  exists before crc after,
    [x00; xaa; x55; x01; x01; x22; xdb; x88; xaa]
      = before ++ [x01; x01; x22] ++ crc ++ after /\
    length crc = 2%nat /\
    int_from_bytes crc = calculate_crc [x01; x01; x22].
Proof.
  apply (extract_frames_delivers_checked_frames
           [x00; xaa; x55; x01; x01; x22; xdb; x88; xaa] [x01; x01; x22]).
  vm_compute. left. reflexivity.
Defined.

(** X5. The leftover buffer is always a suffix of the input: the
    reassembler only drops bytes from the front, it never reorders or
    invents any. *)
Theorem extract_frames_leftover_is_suffix (raw : bytes) :
  exists consumed, raw = consumed ++ snd (extract_frames raw).
Proof. apply (proj1 (extract_frames_rec_sound (length raw) raw)). Qed.

Lemma eat_bytes_until_preamble_preamble_free (b : bytes) :
  preamble_free b = true -> eat_bytes_until_preamble b = b.
Proof.
  intros H. unfold eat_bytes_until_preamble.
  rewrite (eat_loop_preamble_free b [] H). cbn [app].
  destruct b; reflexivity.
Qed.

(** X6. The preamble is only searched for, never required: when it occurs
    nowhere in a [bytearray], the first two bytes are taken for it, and a
    complete candidate behind them is checked and delivered exactly as if
    they were AA 55, whatever the recursion limit.  The same buffer as
    [bytes] raises [AttributeError] at the first [pop]. *)
Theorem extract_frames_without_preamble (depth : nat) (p0 p1 l : byte)
    (body crc tail : bytes) :
  preamble_free (p0 :: p1 :: (l :: body) ++ crc ++ tail) = true ->
  len body = 1 + byte_to_Z l -> length crc = 2%nat ->
  Interp.extract_frames depth Bytearray
    (p0 :: p1 :: (l :: body) ++ crc ++ tail)
  = Interp.extract_frames depth Bytearray (candidate l body crc tail) /\
  Interp.extract_frames (S depth) Bytes
    (p0 :: p1 :: (l :: body) ++ crc ++ tail)
  = Err AttributeError.
Proof.
  intros Hp Hb Hc. split.
  - destruct depth as [|d]; [reflexivity|]. unfold candidate.
    rewrite (Interp_extract_frames_candidate d Bytearray l body crc tail
               Hb Hc).
    rewrite Interp_extract_frames_eq, Interp_eat_bytearray.
    rewrite (extract_frames_rec_step 0 _ p0 p1 l body crc tail
               (eat_bytes_until_preamble_preamble_free _ Hp) Hb Hc).
    destruct (_ =? _); [|reflexivity].
    destruct (0 <? len tail) eqn:Et; rewrite ?Et; reflexivity.
  - rewrite Interp_extract_frames_eq, Interp_eat_bytes.
    cbn [preamble_free] in Hp. apply andb_prop in Hp as [Hw _].
    apply negb_true_iff in Hw. now rewrite Hw.
Qed.

Lemma extract_frames_without_preamble_witness :
  Interp.extract_frames 1 Bytearray [x00; x00; x01; x01; x22; xdb; x88]
  = Ok ([[x01; x01; x22]], []) /\
  Interp.extract_frames 1 Bytes [x00; x00; x01; x01; x22; xdb; x88]
  = Err AttributeError.
Proof.
  destruct (extract_frames_without_preamble 1 x00 x00 x01 [x01; x22]
              [xdb; x88] [] eq_refl eq_refl eq_refl) as [H1 _].
  destruct (extract_frames_without_preamble 0 x00 x00 x01 [x01; x22]
              [xdb; x88] [] eq_refl eq_refl eq_refl) as [_ H2].
  split; [exact (eq_trans H1 eq_refl) | exact H2].
Defined.

(** X7. The send path never raises: the CRC always fits its two bytes.  One
    chunk is appended at the tail of the outbound queue, the frame itself
    when [send_raw], else the frame wrapped in preamble and CRC, four bytes
    longer. *)
Theorem write_uart_frame_total (uart_frame : bytes) (send_raw : bool)
    (q : out_queue) :
  write_uart_frame uart_frame send_raw q
  = Ok (q ++ [if send_raw then uart_frame else wire uart_frame]) /\
  len (wire uart_frame) = len uart_frame + 4.
Proof.
  split.
  - unfold write_uart_frame, frame_to_send.
    destruct send_raw; [reflexivity|].
    now rewrite calculate_crc_bytes_ok.
  - unfold wire, len. rewrite !length_app, length_le_bytes.
    cbn [length UART_PREAMBLE]. lia.
Qed.

(* ================================================================== *)
(** ** Observers *)

Lemma existsb_eqb_In (x : observer) (l : list observer) :
  existsb (Nat.eqb x) l = true <-> In x l.
Proof.
  rewrite existsb_exists. split.
  - intros (y & Hy & E). apply Nat.eqb_eq in E. now subst.
  - intros H. exists x. split; [exact H | apply Nat.eqb_refl].
Qed.

(** X8. [register_observer] keeps the list of observers free of duplicates
    and registers at the end: the observer is in the list afterwards, the
    observers already there keep their places, and registering again changes
    nothing. *)
Theorem register_observer_no_duplicates (o : observer)
    (observers : list observer) :
  NoDup observers ->
  NoDup (register_observer o observers) /\
  In o (register_observer o observers) /\
  (exists added, register_observer o observers = observers ++ added) /\
  register_observer o (register_observer o observers)
  = register_observer o observers.
Proof.
  intros Hnd.
  destruct (existsb (Nat.eqb o) observers) eqn:E.
  - assert (Hr : register_observer o observers = observers)
      by (unfold register_observer; now rewrite E).
    rewrite !Hr. apply existsb_eqb_In in E. repeat split; auto.
    exists []. now rewrite app_nil_r.
  - assert (Hr : register_observer o observers = observers ++ [o])
      by (unfold register_observer; now rewrite E).
    rewrite !Hr.
    assert (Hn : ~ In o observers).
    { intros Hin. apply existsb_eqb_In in Hin. congruence. }
    assert (Hin : In o (observers ++ [o]))
      by (apply in_or_app; right; left; reflexivity).
    repeat split; auto.
    + apply NoDup_app; [exact Hnd | repeat constructor; intros [] |].
      intros x Hx [<-|[]]. contradiction.
    + now exists [o].
    + unfold register_observer. apply existsb_eqb_In in Hin. now rewrite Hin.
Qed.

Lemma register_observer_no_duplicates_witness :
  NoDup (register_observer 2%nat [1; 2; 3]%nat) /\
  In 2%nat (register_observer 2%nat [1; 2; 3]%nat) /\
  (exists added,
     register_observer 2%nat [1; 2; 3]%nat = [1; 2; 3]%nat ++ added) /\
  register_observer 2%nat (register_observer 2%nat [1; 2; 3]%nat)
  = register_observer 2%nat [1; 2; 3]%nat.
Proof.
  apply register_observer_no_duplicates.
  repeat constructor; cbn; intuition discriminate.
Defined.

Lemma list_remove_spec (x : observer) (l : list observer) :
  (In x l ->
   exists before after,
     l = before ++ x :: after /\ ~ In x before /\
     list_remove x l = Ok (before ++ after)) /\
  (~ In x l -> list_remove x l = Err ValueError).
Proof.
  induction l as [|y tl [IHin IHout]]; split.
  - intros [].
  - reflexivity.
  - intros Hin. cbn [list_remove].
    destruct (Nat.eqb y x) eqn:E.
    + apply Nat.eqb_eq in E. subst y. exists [], tl. auto.
    + apply Nat.eqb_neq in E. destruct Hin as [->|Hin]; [congruence|].
      destruct (IHin Hin) as (b & a & -> & Hb & ->).
      exists (y :: b), a. repeat split; auto.
      intros [->|H]; [congruence | contradiction].
  - intros Hn. cbn [list_remove].
    destruct (Nat.eqb y x) eqn:E.
    + apply Nat.eqb_eq in E. subst y. exfalso. apply Hn. now left.
    + rewrite IHout; [reflexivity|]. intros H. apply Hn. now right.
Qed.

(** X9. [unregister_observer] raises [ValueError] for an observer that is
    not registered; for a registered one, in a list without duplicates, it
    removes exactly that observer and keeps the others in their order. *)
Theorem unregister_observer_spec (o : observer) (observers : list observer) :
  NoDup observers ->
  (~ In o observers -> unregister_observer o observers = Err ValueError) /\
  (In o observers ->
   exists before after,
     observers = before ++ o :: after /\
     unregister_observer o observers = Ok (before ++ after) /\
     ~ In o (before ++ after) /\ NoDup (before ++ after)).
Proof.
  intros Hnd. unfold unregister_observer.
  destruct (list_remove_spec o observers) as [Hin Hout].
  split; [exact Hout|]. intros H.
  destruct (Hin H) as (b & a & -> & Hb & Hr).
  exists b, a. repeat split; auto.
  - apply NoDup_remove_2 in Hnd. exact Hnd.
  - now apply NoDup_remove_1 in Hnd.
Qed.

Lemma unregister_observer_spec_witness :
  unregister_observer 7%nat [1; 2; 3]%nat = Err ValueError /\
  exists before after,
    [1; 2; 3]%nat = before ++ 2%nat :: after /\
    unregister_observer 2%nat [1; 2; 3]%nat = Ok (before ++ after) /\
    ~ In 2%nat (before ++ after) /\ NoDup (before ++ after).
Proof.
  assert (Hnd : NoDup [1; 2; 3]%nat)
    by (repeat constructor; cbn; intuition discriminate).
  split.
  - apply (proj1 (unregister_observer_spec 7%nat [1; 2; 3]%nat Hnd)).
    cbn. intuition discriminate.
  - apply (proj2 (unregister_observer_spec 2%nat [1; 2; 3]%nat Hnd)).
    cbn. auto.
Defined.

(* ================================================================== *)
(** ** The frame-processing loop *)

Lemma well_formed_frame_len_wire (f : bytes) :
  well_formed_frame f ->
  exists l op payload,
    f = l :: op :: payload /\ byte_to_Z l = len payload /\
    len (wire f) = 6 + byte_to_Z l.
Proof.
  destruct f as [|l [|op payload]]; try contradiction.
  cbn [well_formed_frame]. intros H. exists l, op, payload.
  repeat split; auto.
  unfold wire, len in *. rewrite !length_app, length_le_bytes.
  cbn [length UART_PREAMBLE]. lia.
Qed.


(** A buffer that holds only the beginning of a wrapped frame is handed
    back whole. *)
Lemma extract_frames_proper_prefix (f p q : bytes) :
  well_formed_frame f -> p ++ q = wire f -> q <> [] ->
  extract_frames p = ([], p).
Proof.
  intros Hf Hpq Hq.
  destruct (well_formed_frame_len_wire f Hf)
    as (l & op & payload & -> & Hl & Hw).
  assert (Hlen : len p < 6 + byte_to_Z l).
  { rewrite <- Hw, <- Hpq. unfold len. rewrite length_app.
    destruct q; [congruence | cbn [length]; lia]. }
  unfold wire in Hpq. cbn [UART_PREAMBLE app] in Hpq.
  destruct p as [|a [|b p']].
  - reflexivity.
  - injection Hpq as -> _. reflexivity.
  - injection Hpq as -> -> Hp'.
    apply extract_frames_incomplete. split; [reflexivity|].
    destruct p' as [|l' p'']; [left; unfold len; cbn [length]; lia|].
    injection Hp' as -> _. right.
    change (slice 2 3 _) with [l]. cbn [int_from_bytes]. lia.
Qed.



Lemma insert_parsed_frames (observers : list observer) (fs : list bytes) :
  forall trace,
    fold_left (fun trace frame => _insert_parsed_frame observers frame trace)
      fs trace
    = trace ++ flat_map (fun f => map (fun observer => (observer, f))
                                    observers) fs.
Proof.
  induction fs as [|f tl IH]; intros trace; cbn [fold_left flat_map].
  - now rewrite app_nil_r.
  - rewrite IH. unfold _insert_parsed_frame. now rewrite <- app_assoc.
Qed.

Lemma concat_wire_nil (fs : list bytes) :
  concat (map wire fs) = [] -> fs = [].
Proof. destruct fs as [|f tl]; [reflexivity | discriminate]. Qed.

(** A prefix of a stream of wrapped frames is a number of whole ones
    followed by the beginning of the next. *)
Lemma stream_prefix_decompose (fs : list bytes) :
  forall b rest,
    b ++ rest = concat (map wire fs) ->
    exists fs1 fs2 p,
      fs = fs1 ++ fs2 /\ b = concat (map wire fs1) ++ p /\
      p ++ rest = concat (map wire fs2) /\
      (p = [] \/
       exists f fs2' q, fs2 = f :: fs2' /\ p ++ q = wire f /\ q <> []).
Proof.
  induction fs as [|f tl IH]; intros b rest H.
  - cbn [map concat] in H. apply app_eq_nil in H as [-> ->].
    exists [], [], []. auto.
  - cbn [map concat] in H. apply app_eq_app in H as [mid [[Hb Hr]|[Hw Hr]]].
    + symmetry in Hr. destruct (IH mid rest Hr)
        as (fs1 & fs2 & p & -> & -> & Hp & Hcase).
      exists (f :: fs1), fs2, p. repeat split; auto.
      cbn [map concat]. now rewrite Hb, <- app_assoc.
    + destruct mid as [|x mid].
      * rewrite app_nil_r in Hw. cbn [app] in Hr. subst.
        exists [f], tl, []. cbn [map concat app]. rewrite !app_nil_r. auto.
      * exists [], (f :: tl), b. cbn [map concat app]. repeat split.
        -- now rewrite Hr, Hw, <- app_assoc.
        -- right. exists f, tl, (x :: mid). repeat split; auto. discriminate.
Qed.

Lemma Interp_run_stream (depth : nat) (observers : list observer)
    (chunks : list bytes) :
  forall fs p trace,
    Forall well_formed_frame fs ->
    (length fs < depth)%nat ->
    p ++ concat chunks = concat (map wire fs) ->
    (p = [] \/
     exists f fs' q, fs = f :: fs' /\ p ++ q = wire f /\ q <> []) ->
    Interp.run depth observers chunks p trace
    = (Ok [], trace ++ flat_map (fun f => map (fun observer => (observer, f))
                                            observers) fs).
Proof.
  induction chunks as [|c cs IH]; intros fs p trace Hfs Hd Hp Hcase.
  - cbn [concat Interp.run] in *. rewrite app_nil_r in Hp.
    destruct Hcase as [->|(f & fs' & q & -> & Hq & Hne)].
    + symmetry in Hp. apply concat_wire_nil in Hp. subst fs.
      cbn [flat_map]. now rewrite app_nil_r.
    + exfalso. cbn [map concat] in Hp. rewrite <- Hq in Hp.
      apply (f_equal (@length byte)) in Hp. rewrite !length_app in Hp.
      destruct q; [congruence | cbn [length] in Hp; lia].
  - cbn [concat] in Hp. cbn [Interp.run]. cbv zeta.
    rewrite app_assoc in Hp.
    destruct (stream_prefix_decompose fs (p ++ c) (concat cs) Hp)
      as (fs1 & fs2 & p' & -> & Hb & Hp' & Hcase').
    apply Forall_app in Hfs as [Hfs1 Hfs2].
    rewrite length_app in Hd.
    assert (He : extract_frames p' = ([], p')).
    { destruct Hcase' as [->|(f & fs2' & q & -> & Hq & Hne)];
        [reflexivity|].
      apply (extract_frames_proper_prefix f p' q); auto.
      now inversion Hfs2. }
    pose proof (extract_frames_stream_then fs1 p' Hfs1 He) as Hx.
    rewrite Hb, Interp_extract_frames_enough by (rewrite Hx; cbn [fst]; lia).
    rewrite Hx, insert_parsed_frames.
    rewrite (IH fs2 p' _ Hfs2 ltac:(lia) Hp' Hcase').
    now rewrite flat_map_app, app_assoc.
Qed.

(** X10. The frame-processing loop is re-entrant and keeps the order of
    the wire, within the recursion limit.  When the stream holds fewer
    wrapped frames than the limit leaves room for activations, then however
    the transport cuts it into chunks (empty chunks, chunks that end inside
    a frame or span several frames), every frame is delivered exactly once
    to every registered observer, the frames in the order they were sent and
    the observers in registration order, and the loop ends with an empty
    buffer.  When a single chunk holds more frames than that,
    [extract_frames] raises [RecursionError], which the loop does not catch:
    the thread ends before any observer is notified. *)
Theorem run_delivers_in_order (depth : nat) (observers : list observer)
    (fs : list bytes) (chunks : list bytes) :
  Forall well_formed_frame fs ->
  ((length fs < depth)%nat ->
   concat chunks = concat (map wire fs) ->
   Interp.run depth observers chunks [] []
   = (Ok [],
      flat_map (fun f => map (fun observer => (observer, f)) observers) fs))
  /\
  ((depth < length fs)%nat ->
   Interp.run depth observers (concat (map wire fs) :: chunks) [] []
   = (Err RecursionError, [])).
Proof.
  intros Hfs. split.
  - intros Hd Hc.
    now rewrite (Interp_run_stream depth observers chunks fs [] [] Hfs Hd Hc
                   (or_introl eq_refl)).
  - intros Hd. cbn [Interp.run app].
    pose proof (extract_frames_stream_then fs [] Hfs eq_refl) as Hx.
    rewrite app_nil_r in Hx.
    now rewrite Interp_extract_frames_deep by (rewrite Hx; exact Hd).
Qed.

Lemma run_delivers_in_order_witness :
  Interp.run 3 [4; 9]%nat
    [[xaa]; []; [x55; x01; x01]; [x22; xdb; x88; xaa; x55; x00];
     [x09; x3b; x80]] [] []
  = (Ok [], [(4%nat, [x01; x01; x22]); (9%nat, [x01; x01; x22]);
             (4%nat, [x00; x09]); (9%nat, [x00; x09])]) /\
  Interp.run 1 [4; 9]%nat
    [[xaa; x55; x01; x01; x22; xdb; x88; xaa; x55; x00; x09; x3b; x80]]
    [] []
  = (Err RecursionError, []).
Proof.
  assert (Hfs : Forall well_formed_frame [[x01; x01; x22]; [x00; x09]])
    by (repeat constructor).
  split.
  - apply (proj1 (run_delivers_in_order 3 [4; 9]%nat
                    [[x01; x01; x22]; [x00; x09]] _ Hfs)).
    + cbn [length]. lia.
    + vm_compute. reflexivity.
  - apply (proj2 (run_delivers_in_order 1 [4; 9]%nat
                    [[x01; x01; x22]; [x00; x09]] [] Hfs)).
    cbn [length]. lia.
Defined.

(* ================================================================== *)
(** ** The transport pump *)

(** X11. Whatever the port accepts and returns at each turn, the pump keeps
    the outbound bytes in order: what the port has accepted, followed by
    the rest of the current chunk and by the chunks still queued, is always
    the same byte sequence, so no byte is lost, duplicated or interleaved
    with another chunk.  Every turn forwards what was read, empty or not,
    to the inbound queue. *)
Theorem pump_keeps_order (st : UartConnectionThread.state)
    (port : list (nat * bytes)) :
  let st' := UartConnectionThread.run st port in
  UartConnectionThread.port_written st'
  ++ UartConnectionThread.data_to_be_sent st'
  ++ concat (UartConnectionThread.out_queue st')
  = UartConnectionThread.port_written st
    ++ UartConnectionThread.data_to_be_sent st
    ++ concat (UartConnectionThread.out_queue st) /\
  UartConnectionThread.in_queue st'
  = UartConnectionThread.in_queue st ++ map snd port.
Proof.
  cbv zeta. unfold UartConnectionThread.run. revert st.
  induction port as [|[n rx] port IH]; intros st.
  - cbn [fold_left map]. now rewrite app_nil_r.
  - cbn [fold_left map snd]. destruct (IH (UartConnectionThread.run_iteration st (n, rx)))
      as [H1 H2].
    rewrite H1, H2. clear IH H1 H2.
    destruct st as [d q i w]. unfold UartConnectionThread.run_iteration.
    cbn [UartConnectionThread.data_to_be_sent UartConnectionThread.out_queue
         UartConnectionThread.in_queue UartConnectionThread.port_written].
    destruct d as [|x d]; [destruct q as [|[|y c] q]|];
      cbn [UartConnectionThread.data_to_be_sent
           UartConnectionThread.out_queue UartConnectionThread.in_queue
           UartConnectionThread.port_written concat app];
      (split; [|now rewrite <- app_assoc]);
      rewrite <- ?app_assoc, ?(app_assoc (firstn n _) (skipn n _)),
        ?firstn_skipn; reflexivity.
Qed.

(* ================================================================== *)
(** ** Further properties of the message codec *)

Lemma serialize_common_part_overflow (m : Message) (s : bytes) :
  255 < get_length m -> serialize_common_part m s = Err OverflowError.
Proof.
  intros H. unfold serialize_common_part. unfold_consts.
  apply bind_err. unfold write_int. apply bind_err.
  unfold lift, int_to_bytes.
  replace (get_length m <? 256 ^ Z.of_nat (Z.to_nat 1)) with false
    by (symmetry; apply Z.ltb_ge; simpl; lia).
  now rewrite andb_false_r.
Qed.

(** X12. A message whose payload does not fit the one-byte LENGTH cannot be
    serialized: [serialize_message] raises [OverflowError] for every class
    with a codec. *)
Theorem serialize_message_overflow (m : Message) :
  m <> GenericMessage -> 255 < get_length m ->
  serialize_message m = Err OverflowError.
Proof.
  intros Hg Hl. unfold serialize_message.
  assert (H : serialize m [] = Err OverflowError).
  { pose proof (serialize_common_part_overflow m [] Hl) as Hc.
    destruct m; try (now contradiction Hg); cbn [serialize];
      first [exact Hc | apply bind_err; exact Hc]. }
  now rewrite H.
Qed.

Lemma serialize_message_overflow_witness :
  serialize_message (PingRequestMessage (repeat xaa 256))
  = Err OverflowError.
Proof.
  apply serialize_message_overflow; [discriminate | vm_compute; reflexivity].
Defined.

Lemma len_flat_map_model_id_bytes (ids : list ModelID.t) :
  len (flat_map model_id_bytes ids) = 2 * len ids.
Proof.
  induction ids as [|id tl IH]; [reflexivity|].
  cbn [flat_map]. rewrite len_app, IH. unfold model_id_bytes, len.
  rewrite length_le_bytes. cbn [length]. lia.
Qed.

Lemma len_flat_map_model_desc_bytes (descs : list ModelDesc.t) :
  Forall ModelDesc_consistent descs ->
  len (flat_map model_desc_bytes descs)
  = fold_left (fun length d => length + ModelDesc.get_length d) descs 0.
Proof.
  induction 1 as [|d tl Hd _ IH]; [reflexivity|].
  cbn [flat_map fold_left]. rewrite fold_left_get_length, len_app, IH.
  unfold ModelDesc_consistent in Hd. unfold model_desc_bytes.
  unfold ModelDesc.get_length, UART_MODEL_ID_LEN.
  destruct (ModelDesc.model_id d); [|contradiction].
  rewrite len_app. unfold model_id_bytes, len. rewrite length_le_bytes. lia.
Qed.

Lemma len_wire_payload (m : Message) :
  in_size_domains m -> len (wire_payload m) = get_length m.
Proof.
  intros [_ Hd].
  destruct m; cbn [wire_payload get_length in_size_domains] in *;
    split_hyps; unfold_consts;
    rewrite ?len_flat_map_model_id_bytes;
    try (now apply len_flat_map_model_desc_bytes);
    try reflexivity; lens.
Qed.

Lemma message_layout_well_formed (m : Message) :
  in_size_domains m ->
  well_formed_frame
    (le_bytes 1 (get_length m) ++ le_bytes 1 (opcode m) ++ wire_payload m).
Proof.
  intros Hd. cbn [le_bytes app well_formed_frame].
  rewrite byte_to_of_Z, (len_wire_payload m Hd).
  destruct Hd as [Hl _]. pose proof (get_length_nonneg m).
  apply Z.mod_small. lia.
Qed.

(** X13. What [serialize_message] returns is a well-formed frame: its first
    byte is [get_length()], its second byte the opcode, and the bytes after
    them are exactly [get_length()] many, so the LENGTH on the wire always
    counts the payload. *)
Theorem serialize_message_length (m : Message) :
  in_size_domains m -> m <> GenericMessage ->
  exists payload,
    serialize_message m
    = Ok (byte_of_Z (get_length m) :: byte_of_Z (opcode m) :: payload) /\
    len payload = get_length m /\
    well_formed_frame
      (byte_of_Z (get_length m) :: byte_of_Z (opcode m) :: payload).
Proof.
  intros Hd Hg. exists (wire_payload m). split; [|split].
  - unfold serialize_message. now rewrite (serialize_layout m [] Hd Hg).
  - now apply len_wire_payload.
  - apply (message_layout_well_formed m Hd).
Qed.

Lemma serialize_message_length_witness :
  exists payload,
    serialize_message (MeshMessageRequestMessage 0xAA 0xBB 0xDDCC [x12; x34])
    = Ok (byte_of_Z 6 :: byte_of_Z 7 :: payload) /\
    len payload = 6 /\
    well_formed_frame (byte_of_Z 6 :: byte_of_Z 7 :: payload).
Proof.
  apply (serialize_message_length
           (MeshMessageRequestMessage 0xAA 0xBB 0xDDCC [x12; x34]));
    [|discriminate].
  split; [vm_compute; discriminate|].
  unfold u8, u16. lia.
Defined.






(** *** The class of a decoded message *)

Lemma returns_ret {A : Type} (P : A -> Prop) (a : A) :
  P a -> returns P (ret a).
Proof. intros H s a' s' E. injection E as <- _. exact H. Qed.

Lemma returns_raise {A : Type} (P : A -> Prop) (e : exn) :
  returns P (@raise A e).
Proof. intros s a s' E. discriminate E. Qed.

Lemma returns_bind {A B : Type} (P : B -> Prop) (m : M A) (k : A -> M B) :
  (forall a, returns P (k a)) -> returns P (bind m k).
Proof.
  intros Hk s b s' E. unfold bind in E.
  destruct (m s) as [[a s0]|e]; [|discriminate E]. exact (Hk a s0 b s' E).
Qed.

Ltac returns_step :=
  first
    [ apply returns_raise
    | apply returns_ret; reflexivity
    | apply returns_bind; intros ?
    | match goal with
      | |- returns _ (if ?c then _ else _) => destruct c
      | |- returns _ (let '(_, _) := ?p in _) => destruct p
      end ].

Lemma deserialize_keeps_class (self : Message) :
  returns (fun m => msg_type m = msg_type self) (deserialize self).
Proof. destruct self; unfold_decoders; repeat returns_step. Qed.

Lemma UART_CLASSES_entries :
  Forall (fun kv => msg_type (snd kv) = fst kv) UART_CLASSES.
Proof. repeat constructor. Qed.

Lemma UART_CLASSES_get_opcode (cmd : Z) (c : Message) :
  UART_CLASSES_get cmd = Some c -> opcode c = cmd.
Proof.
  unfold UART_CLASSES_get.
  destruct (find _ UART_CLASSES) as [kv|] eqn:E; [|discriminate].
  intros H. injection H as <-. apply find_some in E as [Hin Hv].
  pose proof (proj1 (Forall_forall _ _) UART_CLASSES_entries kv Hin) as Ht.
  cbn beta in Ht. unfold opcode. rewrite Ht. now apply Z.eqb_eq.
Qed.

(** X16. What [deserialize_message] returns is always an instance of the
    class registered for the second byte of the buffer: its [type] is that
    byte.  In particular the base class [GenericMessage] is never
    produced. *)
Theorem deserialize_message_class (data : bytes) (m : Message) :
  deserialize_message data = Ok m ->
  exists b, nth_error data 1 = Some b /\ opcode m = byte_to_Z b /\
            m <> GenericMessage.
Proof.
  unfold deserialize_message.
  destruct (nth_error data 1) as [b|]; [|discriminate].
  cbv zeta. destruct (UART_CLASSES_get (byte_to_Z b)) as [c|] eqn:Ec;
    [|discriminate].
  destruct (deserialize c data) as [[m' s']|e] eqn:Ed; [|discriminate].
  intros H. injection H as ->.
  pose proof (deserialize_keeps_class c data m s' Ed) as Ht. cbn beta in Ht.
  exists b. repeat split.
  - unfold opcode. rewrite Ht. apply (UART_CLASSES_get_opcode _ _ Ec).
  - intros ->. destruct c; try discriminate Ht. discriminate Ed.
Qed.

Lemma deserialize_message_class_witness :
  exists b, nth_error [x01; x01; xaa] 1 = Some b /\
            opcode (PingRequestMessage [xaa]) = byte_to_Z b /\
            PingRequestMessage [xaa] <> GenericMessage.
Proof. apply deserialize_message_class. reflexivity. Defined.

(** X17. The registry is consistent with the classes: every class is
    entered under its own [type], no opcode is entered twice, and among the
    values of [UartCommand] exactly [OpcodeError] has no class. *)
Theorem UART_CLASSES_consistent :
  (forall cmd c, UART_CLASSES_get cmd = Some c -> opcode c = cmd) /\
  NoDup (map (fun kv => UartCommand.value (fst kv)) UART_CLASSES) /\
  (forall k, UART_CLASSES_get (UartCommand.value k) = None
             <-> k = UartCommand.OpcodeError).
Proof.
  split; [exact UART_CLASSES_get_opcode|]. split.
  - assert (H : nodup Z.eq_dec
                  (map (fun kv => UartCommand.value (fst kv)) UART_CLASSES)
                = map (fun kv => UartCommand.value (fst kv)) UART_CLASSES)
      by (vm_compute; reflexivity).
    rewrite <- H. apply NoDup_nodup.
  - intros k. split.
    + destruct k; intros H; try reflexivity; discriminate H.
    + intros ->. reflexivity.
Qed.

(** *** The lists of model identifiers *)

Lemma model_ids_loop_appends (fuel : nat) :
  forall length acc s r s',
    model_ids_loop fuel length acc s = Ok (r, s') ->
    exists new, snd r = acc ++ new /\ length = fst r + 2 * len new.
Proof.
  induction fuel as [|fuel IH]; intros length acc s r s';
    rewrite model_ids_loop_eq; unfold_consts;
    destruct (2 <=? length);
    try (intros H; injection H as <- _; exists [];
         cbn [fst snd]; rewrite app_nil_r; split; [reflexivity|];
         unfold len; cbn [List.length]; lia).
  unfold bind. destruct (read 2 s) as [[b s0]|e]; [|discriminate].
  destruct (lift (ModelID.from_bytes b) s0) as [[id s1]|e]; [|discriminate].
  intros H. apply IH in H as (new & Hs & Hl).
  exists (id :: new). split.
  - now rewrite Hs, <- app_assoc.
  - unfold len in *. cbn [List.length]. lia.
Qed.

Lemma deserialize_model_ids_appends (self : Message)
    (acc : list ModelID.t) (mk : list ModelID.t -> Message) (l o : byte)
    (payload rest : bytes) (m : Message) :
  deserialize_model_ids self acc mk (l :: o :: payload) = Ok (m, rest) ->
  exists new, m = mk (acc ++ new) /\ byte_to_Z l = 2 * len new.
Proof.
  unfold deserialize_model_ids, bind.
  rewrite deserialize_common_part_cons.
  destruct (negb (byte_to_Z o =? opcode self)); [discriminate|].
  destruct (model_ids_loop _ _ _ _) as [[[length' ids'] s']|e] eqn:E;
    [|discriminate].
  apply model_ids_loop_appends in E as (new & Hs & Hl).
  cbn [fst snd] in *.
  destruct (length' =? 0) eqn:E0; cbn [negb]; [|discriminate].
  apply Z.eqb_eq in E0. intros H. injection H as <- _.
  exists new. subst. split; [reflexivity | lia].
Qed.

(** X18. The three messages that carry a list of model identifiers decode
    by appending to the list the instance already holds: a successful
    decode adds exactly LENGTH / 2 identifiers behind the old ones, so an
    instance that is decoded into twice accumulates both lists, and an odd
    LENGTH never decodes. *)
Theorem model_id_lists_append (acc : list ModelID.t) (l o : byte)
    (payload rest : bytes) (m : Message) :
  (deserialize (InitDeviceEventMessage acc) (l :: o :: payload)
     = Ok (m, rest) ->
   exists new, m = InitDeviceEventMessage (acc ++ new) /\
               byte_to_Z l = 2 * len new) /\
  (deserialize (CreateInstancesResponseMessage acc) (l :: o :: payload)
     = Ok (m, rest) ->
   exists new, m = CreateInstancesResponseMessage (acc ++ new) /\
               byte_to_Z l = 2 * len new) /\
  (deserialize (InitNodeEventMessage acc) (l :: o :: payload)
     = Ok (m, rest) ->
   exists new, m = InitNodeEventMessage (acc ++ new) /\
               byte_to_Z l = 2 * len new).
Proof.
  repeat split; cbn [deserialize]; apply deserialize_model_ids_appends.
Qed.

Lemma model_id_lists_append_witness :
  exists new,
    InitDeviceEventMessage [ModelID.GenOnOffClientID; ModelID.GenLevelClientID]
    = InitDeviceEventMessage ([ModelID.GenOnOffClientID] ++ new) /\
    byte_to_Z x02 = 2 * len new.
Proof.
  apply (proj1 (model_id_lists_append [ModelID.GenOnOffClientID] x02 x03
                  [x03; x10] []
                  (InitDeviceEventMessage
                     [ModelID.GenOnOffClientID; ModelID.GenLevelClientID]))).
  reflexivity.
Defined.

(** *** Decoders and truncated input *)

Lemma len_slice_to (n : Z) (b : bytes) :
  0 <= n -> len (slice_to n b) = Z.min n (len b).
Proof. intros H. unfold len, slice_to. rewrite length_firstn. lia. Qed.

Lemma read_slice_to (n : Z) (s : bytes) :
  0 <= n -> read n s = Ok (slice_to n s, slice_from n s).
Proof. intros H. now rewrite read_nonneg. Qed.

(** X19. [PingRequestMessage] and [PongResponseMessage] decode exactly when
    at least LENGTH bytes follow the opcode; the data are the next LENGTH
    bytes and anything behind them stays unread.  With fewer bytes the
    decoder raises [InvalidLen]. *)
Theorem ping_pong_decoding (old : bytes) (l : byte) (payload : bytes) :
  deserialize (PingRequestMessage old) (l :: x01 :: payload)
  = (if byte_to_Z l <=? len payload
     then Ok (PingRequestMessage (slice_to (byte_to_Z l) payload),
              slice_from (byte_to_Z l) payload)
     else Err InvalidLen) /\
  deserialize (PongResponseMessage old) (l :: x02 :: payload)
  = (if byte_to_Z l <=? len payload
     then Ok (PongResponseMessage (slice_to (byte_to_Z l) payload),
              slice_from (byte_to_Z l) payload)
     else Err InvalidLen).
Proof.
  pose proof (byte_to_Z_range l) as Hl.
  split; unfold_decoders;
    (erewrite bind_ok
       by (rewrite deserialize_common_part_cons; reflexivity));
    rewrite (bind_ok _ _ _ _ _ (read_slice_to _ payload (proj1 Hl)));
    rewrite len_slice_to by lia;
    (destruct (byte_to_Z l <=? len payload) eqn:E;
     [ apply Z.leb_le in E; rewrite Z.min_l, Z.eqb_refl by lia; reflexivity
     | apply Z.leb_gt in E; rewrite Z.min_r by lia;
       replace (byte_to_Z l =? len payload) with false
         by (symmetry; apply Z.eqb_neq; lia);
       reflexivity ]).
Qed.

(** X20. [FirmwareVersionResponseMessage] refuses LENGTH 0 and checks
    nothing else: for every other LENGTH decoding succeeds with whatever
    bytes are there, up to LENGTH of them, so a truncated message decodes to
    a shorter version, an empty one when no byte follows. *)
Theorem firmware_version_accepts_truncated (old : bytes) (l : byte)
    (payload : bytes) :
  deserialize (FirmwareVersionResponseMessage old) (l :: x14 :: payload)
  = (if byte_to_Z l =? 0 then Err InvalidLen
     else Ok (FirmwareVersionResponseMessage
                (slice_to (byte_to_Z l) payload),
              slice_from (byte_to_Z l) payload)).
Proof.
  pose proof (byte_to_Z_range l) as Hl. unfold_decoders.
  erewrite bind_ok by (rewrite deserialize_common_part_cons; reflexivity).
  destruct (byte_to_Z l =? 0); [reflexivity|].
  now rewrite (bind_ok _ _ _ _ _ (read_slice_to _ payload (proj1 Hl))).
Qed.

(** X21. [MeshMessageResponseMessage] checks LENGTH against the size of its
    two fields and not the bytes themselves: with LENGTH 2 it decodes
    whatever follows, reading a missing byte as 0, and with any other
    LENGTH it raises [InvalidLen]. *)
Theorem mesh_message_response_decoding (i0 s0 : Z) (l : byte)
    (payload : bytes) :
  deserialize (MeshMessageResponseMessage i0 s0) (l :: x0f :: payload)
  = (if byte_to_Z l =? 2
     then Ok (MeshMessageResponseMessage
                (int_from_bytes (slice 0 1 payload))
                (int_from_bytes (slice 1 2 payload)),
              slice_from 2 payload)
     else Err InvalidLen).
Proof.
  unfold_decoders.
  erewrite bind_ok by (rewrite deserialize_common_part_cons; reflexivity).
  unfold_consts.
  rewrite (bind_ok _ _ _ _ _ (read_int_nonneg 1 payload ltac:(lia))).
  rewrite (bind_ok _ _ _ _ _ (read_int_nonneg 1 _ ltac:(lia))).
  rewrite skipn_skipn.
  replace (byte_to_Z l - 1 - 1 =? 0) with (byte_to_Z l =? 2)
    by (destruct (byte_to_Z l =? 2) eqn:E;
        [ apply Z.eqb_eq in E; symmetry; apply Z.eqb_eq; lia
        | apply Z.eqb_neq in E; symmetry; apply Z.eqb_neq; lia ]).
  destruct (byte_to_Z l =? 2); reflexivity.
Qed.

(** *** The model descriptor *)

(** X22. A consistent model descriptor survives the round trip on its own:
    [serialize] writes [get_length()] bytes, and [deserialize] into a fresh
    [ModelDesc()] reads exactly those bytes back into an equal descriptor,
    leaving what follows in the stream. *)
Theorem ModelDesc_round_trip (d : ModelDesc.t) (s : bytes) :
  ModelDesc_consistent d ->
  exists b,
    ModelDesc.serialize d [] = Ok (tt, b) /\
    len b = ModelDesc.get_length d /\
    ModelDesc.deserialize (ModelDesc.new None) (b ++ s) = Ok (d, s).
Proof.
  intros Hd. exists (model_desc_bytes d). split; [|split].
  - now rewrite (ModelDesc_serialize_consistent d [] Hd).
  - unfold ModelDesc_consistent in Hd.
    unfold model_desc_bytes, ModelDesc.get_length, UART_MODEL_ID_LEN.
    destruct (ModelDesc.model_id d); [|contradiction].
    rewrite len_app. unfold model_id_bytes, len. rewrite length_le_bytes. lia.
  - now apply ModelDesc_deserialize_consistent.
Qed.

Lemma ModelDesc_round_trip_witness :
  exists b,
    ModelDesc.serialize
      (ModelDesc.mk (Some ModelID.SensorSetupServerID) (repeat x07 10)) []
    = Ok (tt, b) /\
    len b = ModelDesc.get_length
              (ModelDesc.mk (Some ModelID.SensorSetupServerID)
                 (repeat x07 10)) /\
    ModelDesc.deserialize (ModelDesc.new None) (b ++ [x01; x10])
    = Ok (ModelDesc.mk (Some ModelID.SensorSetupServerID) (repeat x07 10),
          [x01; x10]).
Proof. apply ModelDesc_round_trip. reflexivity. Defined.

(** X23. [ModelDesc.get_length] counts the configuration whatever the
    identifier is, but [ModelDesc.serialize] writes it for the sensor-setup
    identifier only.  A [CreateInstancesRequestMessage] holding a descriptor
    with another identifier and a non-empty configuration is therefore
    serialized with a LENGTH that exceeds the two payload bytes written, and
    the result does not decode. *)
Theorem ModelDesc_config_not_written (id : ModelID.t) (c : bytes) :
  ModelID.eqb id ModelID.SensorSetupServerID = false ->
  c <> [] -> 2 + len c <= 255 ->
  let m := CreateInstancesRequestMessage [ModelDesc.mk (Some id) c] in
  let data := byte_of_Z (2 + len c) :: x04 :: model_id_bytes id in
  get_length m = 2 + len c /\
  serialize_message m = Ok data /\
  ~ well_formed_frame data /\
  exists e, deserialize_message data = Err e.
Proof.
  intros Hid Hc Hl m data.
  pose proof (len_nonneg c) as H0.
  assert (Hk : 1 <= len c)
    by (destruct c; [congruence | unfold len; cbn [length]; lia]).
  assert (Hg : get_length m = 2 + len c) by reflexivity.
  split; [exact Hg|]. split; [|split].
  - unfold serialize_message. subst m. cbn [serialize for_each].
    erewrite bind_ok
      by (apply serialize_common_part_as; [rewrite Hg; exact Hl | reflexivity]).
    unfold ModelDesc.serialize. cbn [ModelDesc.model_id ModelDesc.config].
    rewrite Hid. unfold_consts.
    erewrite bind_ok
      by (erewrite bind_ok;
          [ reflexivity
          | apply write_int_2; [apply ModelID_value_u16 | reflexivity] ]).
    rewrite Hg. reflexivity.
  - subst data. unfold model_id_bytes. cbn [le_bytes well_formed_frame].
    rewrite byte_to_of_Z, Z.mod_small by lia.
    unfold len in *. cbn [length]. lia.
  - subst data. unfold deserialize_message. cbn [nth_error].
    change (UART_CLASSES_get (byte_to_Z x04))
      with (Some (CreateInstancesRequestMessage [])).
    cbv beta iota zeta. cbn [deserialize].
    erewrite bind_ok
      by (rewrite deserialize_common_part_cons; reflexivity).
    rewrite byte_to_of_Z, Z.mod_small by lia.
    assert (Hfuel : exists fuel, Z.to_nat (2 + len c) = S (S fuel))
      by (exists (Z.to_nat (len c - 0) - 0 + 0 - 0)%nat; lia).
    destruct Hfuel as [fuel ->].
    rewrite model_descs_loop_eq. unfold_consts.
    replace (2 <=? 2 + len c) with true by (symmetry; apply Z.leb_le; lia).
    rewrite <- (app_nil_r (model_id_bytes id)).
    assert (Hd : ModelDesc.deserialize (ModelDesc.new None)
                   (model_id_bytes id ++ [])
                 = Ok (ModelDesc.new (Some id), [])).
    { unfold ModelDesc.deserialize, model_id_bytes. unfold_consts.
      erewrite bind_ok by (apply read_app; lens).
      erewrite bind_ok by (apply lift_as, ModelID_from_bytes_value).
      now rewrite Hid. }
    unfold bind at 1 2. rewrite Hd. cbv beta iota.
    change (ModelDesc.get_length (ModelDesc.new (Some id))) with 2.
    replace (2 + len c - 2) with (len c) by lia.
    rewrite model_descs_loop_eq. unfold_consts.
    destruct (2 <=? len c) eqn:E.
    + exists ValueError. reflexivity.
    + apply Z.leb_gt in E. exists InvalidLen. unfold ret.
      replace (len c =? 0) with false by (symmetry; apply Z.eqb_neq; lia).
      reflexivity.
Qed.

Lemma ModelDesc_config_not_written_witness :
  get_length
    (CreateInstancesRequestMessage
       [ModelDesc.mk (Some ModelID.LightLCClientID) [x01; x02; x03]]) = 5 /\
  serialize_message
    (CreateInstancesRequestMessage
       [ModelDesc.mk (Some ModelID.LightLCClientID) [x01; x02; x03]])
  = Ok [x05; x04; x11; x13] /\
  ~ well_formed_frame [x05; x04; x11; x13] /\
  exists e, deserialize_message [x05; x04; x11; x13] = Err e.
Proof.
  apply (ModelDesc_config_not_written ModelID.LightLCClientID
           [x01; x02; x03]);
    [reflexivity | discriminate | vm_compute; discriminate].
Defined.

(** X24. [MeshMessageRequestMessage] decodes exactly when LENGTH covers the
    four bytes of its fixed fields and the remaining LENGTH - 4 bytes of
    command follow them.  A LENGTH below 4 makes the decoder read with a
    negative size, which takes all the rest of the stream, and then raise
    [InvalidLen]. *)
Theorem mesh_message_request_decoding (i0 s0 o0 : Z) (c0 : bytes) (l : byte)
    (payload : bytes) :
  let n := byte_to_Z l - 4 in
  deserialize (MeshMessageRequestMessage i0 s0 o0 c0) (l :: x07 :: payload)
  = (if (0 <=? n) && (n <=? len (slice_from 4 payload))
     then Ok (MeshMessageRequestMessage
                (int_from_bytes (slice 0 1 payload))
                (int_from_bytes (slice 1 2 payload))
                (int_from_bytes (slice 2 4 payload))
                (slice 4 (4 + n) payload),
              slice_from (4 + n) payload)
     else Err InvalidLen).
Proof.
  intros n. unfold_decoders.
  erewrite bind_ok by (rewrite deserialize_common_part_cons; reflexivity).
  unfold_consts.
  rewrite (bind_ok _ _ _ _ _ (read_int_nonneg 1 payload ltac:(lia))).
  rewrite (bind_ok _ _ _ _ _ (read_int_nonneg 1 _ ltac:(lia))).
  rewrite (bind_ok _ _ _ _ _ (read_int_nonneg 2 _ ltac:(lia))).
  rewrite !skipn_skipn. cbv zeta.
  change (1 + 1 + 2) with 4. fold n.
  change (Z.to_nat 2 + (Z.to_nat 1 + Z.to_nat 1))%nat with (Z.to_nat 4).
  change (firstn (Z.to_nat 1) payload) with (slice 0 1 payload).
  change (firstn (Z.to_nat 1) (skipn (Z.to_nat 1) payload))
    with (slice 1 2 payload).
  change (firstn (Z.to_nat 2) (skipn (Z.to_nat 1 + Z.to_nat 1) payload))
    with (slice 2 4 payload).
  pose proof (len_nonneg (slice_from 4 payload)) as Hs.
  destruct (0 <=? n) eqn:E0; cbn [andb].
  - apply Z.leb_le in E0.
    rewrite (bind_ok _ _ _ _ _ (read_slice 4 n payload ltac:(lia) E0)).
    assert (Hlen : len (slice 4 (4 + n) payload)
                   = Z.min n (len (slice_from 4 payload))).
    { unfold len, slice, slice_from. rewrite length_firstn.
      replace (4 + n - 4) with n by lia. lia. }
    rewrite Hlen.
    destruct (n <=? len (slice_from 4 payload)) eqn:E1.
    + apply Z.leb_le in E1. rewrite Z.min_l, Z.eqb_refl by lia. reflexivity.
    + apply Z.leb_gt in E1. rewrite Z.min_r by lia.
      replace (n =? len (slice_from 4 payload)) with false
        by (symmetry; apply Z.eqb_neq; lia).
      reflexivity.
  - apply Z.leb_gt in E0. unfold bind, read.
    replace (n <? 0) with true by (symmetry; apply Z.ltb_lt; lia).
    replace (n =? len (skipn (Z.to_nat 4) payload)) with false
      by (symmetry; apply Z.eqb_neq; unfold slice_from in Hs; lia).
    reflexivity.
Qed.

Lemma read_one (b : byte) (s : bytes) : read 1 (b :: s) = Ok ([b], s).
Proof. reflexivity. Qed.

Lemma int_from_bytes_single (b : byte) : int_from_bytes [b] = byte_to_Z b.
Proof. cbn [int_from_bytes]. lia. Qed.

(** X25. The classes whose first field is an [IntEnum] (modem state, error
    code, attention state, DFU status) raise [ValueError] when the byte is
    no member of the enumeration, whatever LENGTH says: the conversion comes
    before the length check, so the error is neither [InvalidLen] nor
    [InvalidOpcode]. *)
Theorem enum_field_value_error (self : Message) (values : list Z)
    (l o b : byte) (rest : bytes) :
  enum_field_values self = Some values ->
  byte_to_Z o = opcode self ->
  ~ In (byte_to_Z b) values ->
  deserialize self (l :: o :: b :: rest) = Err ValueError.
Proof.
  intros Hv Ho Hn.
  assert (Hc : deserialize_common_part self (l :: o :: b :: rest)
               = Ok (byte_to_Z l, b :: rest))
    by (rewrite deserialize_common_part_cons; now rewrite Ho, Z.eqb_refl).
  destruct self; try discriminate Hv; cbn [enum_field_values] in Hv;
    injection Hv as <-; unfold_decoders;
    rewrite (bind_ok _ _ _ _ _ Hc); unfold_consts;
    rewrite (bind_ok _ _ _ _ _ (read_one b rest));
    apply bind_err; unfold lift; rewrite int_from_bytes_single;
    now rewrite enum_of_value_not_member by exact Hn.
Qed.

Lemma enum_field_value_error_witness :
  deserialize (CurrentStateResponseMessage ModemState.Unknown)
    [x02; x11; x09; xbb] = Err ValueError.
Proof.
  apply (enum_field_value_error
           (CurrentStateResponseMessage ModemState.Unknown)
           (map ModemState.value ModemState.members)
           x02 x11 x09 [xbb] eq_refl eq_refl).
  vm_compute. intuition discriminate.
Defined.
